(** * neuro-desktop process handler: envelope, validator, router, supervisor

    A shallow embedding of [process_handler.h] / [process_handler.cpp]
    (namespace [neuro]) and the properties of its message envelope,
    validator, command router and process manager.

    Conventions of the embedding
    - [std::string] is [string]; [std::string::length()] is
      [Z.of_nat (String.length s)].
    - [std::map<std::string, T>] is iterated in key order, so the process
      and channel tables are association lists kept sorted by
      [String.compare] (module [StrMap]); the handler table, whose order
      never matters, is a [gmap].
    - The POSIX branch of every [#ifdef _WIN32] is the one modelled.
    - The operating system is a parameter: the results of [fork], [pipe]
      and of reading the clock are oracles indexed by call number, and the
      signals sent with [kill] are recorded in the manager state.
    - [manager_mutex] is part of the manager state.  It is not recursive:
      a [lock_guard] on it while it is held never comes back, and neither
      does a [kill] that the manager sends to its own process group.  An
      operation therefore either returns or stops for good, and its model
      says which, with the state it returns or stops in (type [Run]).
    - A handler is a [std::function] that returns or throws.
    - Sleeps and console logging are left out, and so are [router_mutex]
      and [file_mutex]: each guards one function body that takes no other
      lock, and handlers are taken not to call back into the router. *)

From Stdlib Require Import ZArith NArith List String Ascii Bool Lia.
From Stdlib Require Import DecimalString Sorted.
From stdpp Require Import base option list relations gmap strings.

Import ListNotations.
Local Open Scope string_scope.
Local Open Scope Z_scope.

(* ================================================================== *)
(** ** Enumerations of [process_handler.h] *)

Inductive ProcessType :=
  RUST_MAIN | GO_INTEGRATION | PYTHON_CONTROLLER | FRONTEND_SERVER | CUSTOM.

Inductive CommMethod :=
  STDIO | FILE_IPC | NAMED_PIPE | SHARED_MEMORY | TCP_SOCKET.

Inductive ProcessState :=
  CREATED | STARTING | RUNNING | STOPPING | STOPPED | CRASHED | ZOMBIE.

Inductive MessageType :=
  COMMAND | RESPONSE | EVENT | HEARTBEAT | SHUTDOWN | ERROR.

(** [static_cast<int>] of an enumerator: its position in the declaration. *)
Definition MessageType_to_int (t : MessageType) : Z :=
  match t with
  | COMMAND => 0 | RESPONSE => 1 | EVENT => 2
  | HEARTBEAT => 3 | SHUTDOWN => 4 | ERROR => 5
  end.

Definition CommMethod_to_int (m : CommMethod) : Z :=
  match m with
  | STDIO => 0 | FILE_IPC => 1 | NAMED_PIPE => 2
  | SHARED_MEMORY => 3 | TCP_SOCKET => 4
  end.

Definition ProcessState_eqb (a b : ProcessState) : bool :=
  match a, b with
  | CREATED, CREATED | STARTING, STARTING | RUNNING, RUNNING
  | STOPPING, STOPPING | STOPPED, STOPPED | CRASHED, CRASHED
  | ZOMBIE, ZOMBIE => true
  | _, _ => false
  end.

(* ================================================================== *)
(** ** Stream insertion *)

(** [oss << n] for a signed integer, and [std::to_string(int)]. *)
Definition show_int (z : Z) : string := NilZero.string_of_int (Z.to_int z).

(** [oss << n] for a [uint64_t]. *)
Definition show_uint64 (n : N) : string := NilZero.string_of_uint (N.to_uint n).

(** An [std::ostringstream] that only ever receives [<<]: the pieces in
    the order they are inserted; [str()] concatenates them. *)
Definition oss_str (pieces : list string) : string := String.concat EmptyString pieces.

(* ================================================================== *)
(** ** Message *)

Record Message := mkMessage {
  type : MessageType;
  source_process : string;
  target_process : string;
  command : string;
  data : string;            (* JSON payload *)
  timestamp : N;            (* uint64_t *)
  message_id : string
}.

(** The one-character string holding a double quote (ASCII 34), the
    escaped quote of the C++ literals. *)
Definition dq : string := String (ascii_of_nat 34) EmptyString.

Definition to_json (m : Message) : string :=
  oss_str
    [ "{";
      dq; "type"; dq; ":"; dq; show_int (MessageType_to_int (type m)); dq; ",";
      dq; "source"; dq; ":"; dq; source_process m; dq; ",";
      dq; "target"; dq; ":"; dq; target_process m; dq; ",";
      dq; "command"; dq; ":"; dq; command m; dq; ",";
      dq; "data"; dq; ":"; data m; ",";
      dq; "timestamp"; dq; ":"; show_uint64 (timestamp m); ",";
      dq; "message_id"; dq; ":"; dq; message_id m; dq;
      "}" ].

(** [Message::from_json] is a stub: it default-initialises a [Message]
    and returns it without looking at its argument.  Default
    initialisation leaves the [type] and [timestamp] members indeterminate
    and makes every string member empty; the two indeterminate values are
    parameters here. *)
Definition from_json (indeterminate_type : MessageType)
    (indeterminate_timestamp : N) (json : string) : Message :=
  {| type := indeterminate_type;
     source_process := EmptyString;
     target_process := EmptyString;
     command := EmptyString;
     data := EmptyString;
     timestamp := indeterminate_timestamp;
     message_id := EmptyString |}.

(* ================================================================== *)
(** ** MessageValidator *)

(** [std::string::empty()]. *)
Definition empty (s : string) : bool :=
  match s with EmptyString => true | String _ _ => false end.

(** [std::string::length()]. *)
Definition string_length (s : string) : Z := Z.of_nat (String.length s).

Definition is_safe_json (json : string) : bool :=
  if 1024 * 1024 <? string_length json then false   (* 1MB limit *)
  else true.

(** [validate_message (msg, error)]: the result and the final contents of
    the out-parameter [error], which is left alone on success. *)
Definition validate_message (msg : Message) (error : string) : bool * string :=
  if empty (source_process msg) then (false, "Source process is empty")
  else if empty (target_process msg) then (false, "Target process is empty")
  else if empty (command msg) then (false, "Command is empty")
  else if negb (is_safe_json (data msg)) then (false, "Invalid JSON data")
  else (true, error).

Definition check_rate_limit (source : string) (max_per_second : Z) : bool := true.

(* ================================================================== *)
(** ** Channels *)

(** The one-character string holding a line feed. *)
Definition nl : string := String (ascii_of_nat 10) EmptyString.

Module FileIPCChannel.

Record t := mk {
  ipc_file_path : string;
  response_file_path : string
}.

Definition make (ipc_path : string) : t :=
  {| ipc_file_path := ipc_path;
     response_file_path := String.append ipc_path ".response" |}.

Definition initialize (c : t) : bool := true.

(** [send] opens [ipc_file_path] for writing (truncating it), writes the
    encoded message and closes the file.  The file system is a map from
    paths to contents; [can_open] says which paths the stream can open. *)
Definition send (can_open : string -> bool) (c : t) (msg : Message)
    (fs : gmap string string) : bool * gmap string string :=
  if negb (can_open (ipc_file_path c)) then (false, fs)
  else (true, <[ipc_file_path c := to_json msg]> fs).

(** [receive], for at most [fuel] turns of its loop.  [steady_clock k] is
    the [k]-th reading of the steady clock, in milliseconds ([start] is
    reading 0, turn [k] of the loop takes reading [k + 1]);
    [others k] is what the other processes do to the files while the
    channel sleeps after turn [k]; [ty] and [ts] are the indeterminate
    members of the message [from_json] returns.  The result is the
    message, if one was received, and the files as [receive] leaves
    them; [None] when the fuel runs out. *)
Fixpoint receive_loop (ty : MessageType) (ts : N) (steady_clock : nat -> Z)
    (others : nat -> gmap string string -> gmap string string)
    (fuel : nat) (c : t) (timeout_ms : Z) (start : Z) (k : nat)
    (fs : gmap string string) : option (option Message * gmap string string) :=
  match fuel with
  | O => None
  | S fuel =>
      let json := default EmptyString (fs !! response_file_path c) in
      if negb (empty json) then
        (* Delete response file *)
        Some (Some (from_json ty ts json), delete (response_file_path c) fs)
      else
        let elapsed := steady_clock (S k) - start in
        if timeout_ms <=? elapsed then Some (None, fs)
        else receive_loop ty ts steady_clock others fuel c timeout_ms start (S k)
               (others k fs)
  end.

Definition receive (ty : MessageType) (ts : N) (steady_clock : nat -> Z)
    (others : nat -> gmap string string -> gmap string string)
    (fuel : nat) (c : t) (timeout_ms : Z) (fs : gmap string string)
    : option (option Message * gmap string string) :=
  let start := steady_clock O in
  receive_loop ty ts steady_clock others fuel c timeout_ms start O fs.

(** [close] removes both files. *)
Definition close (c : t) (fs : gmap string string) : gmap string string :=
  delete (response_file_path c) (delete (ipc_file_path c) fs).

End FileIPCChannel.

Module StdioChannel.

(** The pipe ends are descriptors stored in [void*] members; 0 is the
    null pointer. *)
Record t := mk {
  stdin_pipe : Z;
  stdout_pipe : Z;
  stderr_pipe : Z
}.

Definition make : t := {| stdin_pipe := 0; stdout_pipe := 0; stderr_pipe := 0 |}.

(** The local [json] of [send]: the encoding followed by a line feed. *)
Definition send_json (msg : Message) : string := String.append (to_json msg) nl.

(** [send] hands [json] to [write(2)] on the stdin pipe; [sys_write fd buf]
    is what the call returns. *)
Definition send (sys_write : Z -> string -> Z) (c : t) (msg : Message) : bool :=
  let json := send_json msg in
  0 <? sys_write (stdin_pipe c) json.

(** [receive]: [select_result] is what [select] returns, [n] what
    [read] returns and [buffer] the bytes it read; [ty] and [ts] are the
    indeterminate members of the message [from_json] returns. *)
Definition receive (ty : MessageType) (ts : N)
    (select_result : Z) (n : Z) (buffer : string) : option Message :=
  if 0 <? select_result then
    if 0 <? n then Some (from_json ty ts buffer) else None
  else None.

End StdioChannel.

(* ================================================================== *)
(** ** MessageRouter *)

(** How a call of a handler ends: it returns, or it throws.  Either way
    [w] is the state it leaves. *)
Inductive Outcome (World : Type) : Type :=
| Returned (w : World)
| Threw (w : World).

Arguments Returned {World} w.
Arguments Threw {World} w.

Section Router.

(** A handler is a [std::function<void(const Message&)>]: it is run for
    its effect, a transformation of whatever state [World] it closes
    over, and it may throw.  An empty [std::function] throws when it is
    called, without any effect: it is the handler [fun _ w => Threw w]. *)
Context {World : Type}.

Definition Handler : Type := Message -> World -> Outcome World.

(** [handlers[command].push_back(handler)]: [operator[]] creates the
    empty vector when the key is new. *)
Definition register_handler (cmd : string) (handler : Handler)
    (handlers : gmap string (list Handler)) : gmap string (list Handler) :=
  <[cmd := (default [] (handlers !! cmd) ++ [handler])%list]> handlers.

(** The range-for of [route_message] over the vector [hs]: the handlers
    are called with [msg], first to last.  Nothing catches what a handler
    throws: the loop ends there and the exception leaves
    [route_message]. *)
Fixpoint run_handlers (msg : Message) (hs : list Handler) (w : World)
    : Outcome World :=
  match hs with
  | [] => Returned w
  | handler :: hs =>
      match handler msg w with
      | Returned w => run_handlers msg hs w
      | Threw w => Threw w
      end
  end.

Definition route_message (msg : Message)
    (handlers : gmap string (list Handler)) (w : World) : Outcome World :=
  match handlers !! command msg with
  | Some hs => run_handlers msg hs w
  | None => Returned w
  end.

Definition unregister_all (handlers : gmap string (list Handler))
    : gmap string (list Handler) := ∅.

End Router.

(* ================================================================== *)
(** ** [std::map<std::string, V>] *)

Module StrMap.
Section Defs.

Context {V : Type}.

(** [find]: the value stored under [k], if any. *)
Fixpoint find (k : string) (m : list (string * V)) : option V :=
  match m with
  | [] => None
  | (k', v) :: m' => if String.eqb k k' then Some v else find k m'
  end.

(** [m[k] = v]: replaces the value of an existing key, otherwise adds the
    pair at its place in key order. *)
Fixpoint insert (k : string) (v : V) (m : list (string * V)) : list (string * V) :=
  match m with
  | [] => [(k, v)]
  | (k', v') :: m' =>
      match String.compare k k' with
      | Lt => (k, v) :: (k', v') :: m'
      | Eq => (k, v) :: m'
      | Gt => (k', v') :: insert k v m'
      end
  end.

(** Assignment through an iterator or reference to the element stored
    under [k]: the value changes, the shape of the map does not. *)
Definition set (k : string) (v : V) (m : list (string * V)) : list (string * V) :=
  map (fun kv => if String.eqb k (fst kv) then (fst kv, v) else kv) m.

(** The keys in iteration order. *)
Definition keys (m : list (string * V)) : list string := map fst m.

End Defs.
End StrMap.

(* ================================================================== *)
(** ** Process configuration and information *)

Record ProcessConfig := mkProcessConfig {
  process_type : ProcessType;             (* member [type] *)
  name : string;
  executable_path : string;
  args : list string;
  env_vars : list (string * string);
  comm_methods : list CommMethod;
  (* Restart policy *)
  auto_restart : bool;
  max_restart_attempts : Z;
  restart_delay : Z;                      (* seconds *)
  (* Health check *)
  enable_heartbeat : bool;
  heartbeat_interval : Z;
  heartbeat_timeout : Z;
  (* Dependencies (must start before this process) *)
  depends_on : list string
}.

(** A default-constructed [ProcessConfig]: the default member initialisers,
    zero and empty elsewhere. *)
Definition ProcessConfig_default : ProcessConfig :=
  {| process_type := RUST_MAIN; name := EmptyString;
     executable_path := EmptyString; args := []; env_vars := [];
     comm_methods := [];
     auto_restart := true; max_restart_attempts := 3; restart_delay := 5;
     enable_heartbeat := true; heartbeat_interval := 5; heartbeat_timeout := 15;
     depends_on := [] |}.

Record ProcessInfo := mkProcessInfo {
  config : ProcessConfig;
  state : ProcessState;
  platform_handle : Z;                    (* pid_t on Unix; 0 is nullptr *)
  pid : Z;
  start_time : Z;                         (* clock ticks since the epoch *)
  last_heartbeat : Z;
  restart_count : Z;
  last_error : string
}.

(** A value-initialised [ProcessInfo], what [processes[name]] creates for a
    key that is not in the table. *)
Definition ProcessInfo_default : ProcessInfo :=
  {| config := ProcessConfig_default; state := CREATED;
     platform_handle := 0; pid := 0; start_time := 0; last_heartbeat := 0;
     restart_count := 0; last_error := EmptyString |}.

Definition set_state (st : ProcessState) (info : ProcessInfo) : ProcessInfo :=
  {| config := config info; state := st;
     platform_handle := platform_handle info; pid := pid info;
     start_time := start_time info; last_heartbeat := last_heartbeat info;
     restart_count := restart_count info; last_error := last_error info |}.

Definition set_last_error (e : string) (info : ProcessInfo) : ProcessInfo :=
  {| config := config info; state := state info;
     platform_handle := platform_handle info; pid := pid info;
     start_time := start_time info; last_heartbeat := last_heartbeat info;
     restart_count := restart_count info; last_error := e |}.

(* ================================================================== *)
(** ** The operating system *)

(** What the system calls return, by call number: [os_fork n] is the child
    identifier the parent gets from its [n]-th [fork] ([None] when the call
    returns a negative value), [os_pipe n] the two descriptors of the
    [n]-th [pipe] ([None] when it fails), [os_now n] the [n]-th reading of
    the system clock, in ticks of that clock.  [os_ticks_per_second] is
    the number of ticks in a second, the period of
    [std::chrono::system_clock]. *)
Record OS := mkOS {
  os_fork : nat -> option positive;
  os_pipe : nat -> option (Z * Z);
  os_now : nat -> Z;
  os_ticks_per_second : Z
}.

Inductive Signal := SIGTERM | SIGKILL.

(** The calls made for their effect. *)
Inductive Syscall :=
| sys_kill (p : Z) (sig : Signal)
| sys_close (fd : Z)
| sys_remove (path : string).

Inductive Channel :=
| FileIPC (c : FileIPCChannel.t)
| Stdio (c : StdioChannel.t).

(* ================================================================== *)
(** ** ProcessManager *)

Record ProcessManager := mkProcessManager {
  processes : list (string * ProcessInfo);
  channels : list (string * Channel);
  running : bool;
  manager_mutex : bool;         (* held *)
  forks : nat;                  (* calls of fork so far *)
  pipes : nat;                  (* calls of pipe so far *)
  ticks : nat;                  (* readings of the clock so far *)
  syscalls : list Syscall       (* kill, close and remove calls, oldest first *)
}.

(** A freshly constructed manager. *)
Definition ProcessManager_new : ProcessManager :=
  {| processes := []; channels := []; running := false; manager_mutex := false;
     forks := 0; pipes := 0; ticks := 0; syscalls := [] |}.

Definition set_processes (ps : list (string * ProcessInfo)) (s : ProcessManager) :=
  {| processes := ps; channels := channels s; running := running s;
     manager_mutex := manager_mutex s;
     forks := forks s; pipes := pipes s; ticks := ticks s; syscalls := syscalls s |}.

Definition set_channels (cs : list (string * Channel)) (s : ProcessManager) :=
  {| processes := processes s; channels := cs; running := running s;
     manager_mutex := manager_mutex s;
     forks := forks s; pipes := pipes s; ticks := ticks s; syscalls := syscalls s |}.

Definition set_running (b : bool) (s : ProcessManager) :=
  {| processes := processes s; channels := channels s; running := b;
     manager_mutex := manager_mutex s;
     forks := forks s; pipes := pipes s; ticks := ticks s; syscalls := syscalls s |}.

Definition set_mutex (held : bool) (s : ProcessManager) :=
  {| processes := processes s; channels := channels s; running := running s;
     manager_mutex := held;
     forks := forks s; pipes := pipes s; ticks := ticks s; syscalls := syscalls s |}.

Definition set_forks (n : nat) (s : ProcessManager) :=
  {| processes := processes s; channels := channels s; running := running s;
     manager_mutex := manager_mutex s;
     forks := n; pipes := pipes s; ticks := ticks s; syscalls := syscalls s |}.

Definition set_pipes (n : nat) (s : ProcessManager) :=
  {| processes := processes s; channels := channels s; running := running s;
     manager_mutex := manager_mutex s;
     forks := forks s; pipes := n; ticks := ticks s; syscalls := syscalls s |}.

Definition set_ticks (n : nat) (s : ProcessManager) :=
  {| processes := processes s; channels := channels s; running := running s;
     manager_mutex := manager_mutex s;
     forks := forks s; pipes := pipes s; ticks := n; syscalls := syscalls s |}.

(** Appends the calls [cs] to the record of system calls. *)
Definition emit (cs : list Syscall) (s : ProcessManager) :=
  {| processes := processes s; channels := channels s; running := running s;
     manager_mutex := manager_mutex s;
     forks := forks s; pipes := pipes s; ticks := ticks s;
     syscalls := (syscalls s ++ cs)%list |}.

(** Writes [info] back to the element of [processes] it refers to. *)
Definition put (name : string) (info : ProcessInfo) (s : ProcessManager) :=
  set_processes (StrMap.set name info (processes s)) s.

(* ================================================================== *)
(** ** Operations that may not return *)

(** Why a call never comes back: it locks a mutex that is already held,
    or it has sent a signal to the process group of the manager itself. *)
Inductive Halt := Deadlock | SelfSignalled.

(** The run of an operation on the manager: it returns [a] and leaves the
    manager in state [s], or it stops for the reason [why] with the
    manager in state [s]. *)
Inductive Run (A : Type) : Type :=
| Ret (a : A) (s : ProcessManager)
| Stop (why : Halt) (s : ProcessManager).

Arguments Ret {A} a s.
Arguments Stop {A} why s.

(** The state in which a run leaves the manager. *)
Definition state_of {A : Type} (r : Run A) : ProcessManager :=
  match r with Ret _ s => s | Stop _ s => s end.

(** [r], and then [k] on what it returns; nothing follows a run that
    stops. *)
Definition bind {A B : Type} (r : Run A) (k : A -> ProcessManager -> Run B) : Run B :=
  match r with
  | Ret a s => k a s
  | Stop why s => Stop why s
  end.

(** A function on the manager state that always returns. *)
Definition lift {A : Type} (f : ProcessManager -> A * ProcessManager)
    (s : ProcessManager) : Run A :=
  Ret (fst (f s)) (snd (f s)).

(** [std::lock_guard<std::mutex> lock (manager_mutex)] at the head of the
    block [body]: locking a mutex that is held does not return; otherwise
    the mutex is held during [body] and released when [body] returns.  If
    [body] stops, the end of the block is not reached and the mutex stays
    held. *)
Definition locked {A : Type} (body : ProcessManager -> Run A)
    (s : ProcessManager) : Run A :=
  if manager_mutex s then Stop Deadlock s
  else
    match body (set_mutex true s) with
    | Ret a s => Ret a (set_mutex false s)
    | Stop why s => Stop why s
    end.

(** A range-for over [items] whose body may stop: [a] is what the body
    carries from one turn to the next. *)
Fixpoint for_each {A B : Type} (body : A -> B -> ProcessManager -> Run A)
    (items : list B) (a : A) (s : ProcessManager) : Run A :=
  match items with
  | [] => Ret a s
  | item :: items => bind (body a item s) (for_each body items)
  end.

Section Supervisor.

Context (os : OS).

(** [StdioChannel::initialize]: three [pipe] calls, giving up at the
    first that fails.  Keeps the write end of the first pair and the
    read ends of the other two. *)
Definition StdioChannel_initialize (s : ProcessManager)
    : option StdioChannel.t * ProcessManager :=
  match os_pipe os (pipes s) with
  | None => (None, set_pipes (pipes s + 1) s)
  | Some stdin_fds =>
      match os_pipe os (pipes s + 1) with
      | None => (None, set_pipes (pipes s + 2) s)
      | Some stdout_fds =>
          match os_pipe os (pipes s + 2) with
          | None => (None, set_pipes (pipes s + 3) s)
          | Some stderr_fds =>
              (Some {| StdioChannel.stdin_pipe := snd stdin_fds;
                       StdioChannel.stdout_pipe := fst stdout_fds;
                       StdioChannel.stderr_pipe := fst stderr_fds |},
               set_pipes (pipes s + 3) s)
          end
      end
  end.

(** The key of a channel in [channels]. *)
Definition channel_key (name : string) (method : CommMethod) : string :=
  String.append name (String.append "_" (show_int (CommMethod_to_int method))).

(** The body of the loop over [config.comm_methods] in
    [register_process]. *)
Definition create_channel (name : string) (s : ProcessManager)
    (method : CommMethod) : ProcessManager :=
  match method with
  | FILE_IPC =>
      let channel :=
        FileIPCChannel.make (String.append "ipc_" (String.append name ".json")) in
      if FileIPCChannel.initialize channel
      then set_channels
             (StrMap.insert (channel_key name method) (FileIPC channel) (channels s)) s
      else s
  | STDIO =>
      match StdioChannel_initialize s with
      | (Some channel, s') =>
          set_channels
            (StrMap.insert (channel_key name method) (Stdio channel) (channels s')) s'
      | (None, s') => s'
      end
  | _ => s                     (* no channel is created: the pointer stays null *)
  end.

(** [register_process] below its [lock_guard]. *)
Definition register_process_locked (cfg : ProcessConfig) (s : ProcessManager)
    : bool * ProcessManager :=
  match StrMap.find (name cfg) (processes s) with
  | Some _ => (false, s)       (* already registered *)
  | None =>
      let info :=
        {| config := cfg; state := CREATED; platform_handle := 0; pid := 0;
           start_time := 0; last_heartbeat := 0;
           restart_count := 0; last_error := EmptyString |} in
      let s1 := set_processes (StrMap.insert (name cfg) info (processes s)) s in
      (* Create communication channels *)
      (true, fold_left (create_channel (name cfg)) (comm_methods cfg) s1)
  end.

Definition register_process (cfg : ProcessConfig) : ProcessManager -> Run bool :=
  locked (lift (register_process_locked cfg)).

(** [spawn_process (info)], seen from the parent: the updated [info], and
    the manager with the calls to [fork] and to the clock counted. *)
Definition spawn_process (info : ProcessInfo) (s : ProcessManager)
    : bool * ProcessInfo * ProcessManager :=
  match os_fork os (forks s) with
  | None =>
      (false, set_last_error "Fork failed" info, set_forks (forks s + 1) s)
  | Some child =>
      (true,
       {| config := config info; state := RUNNING;
          platform_handle := Z.pos child; pid := Z.pos child;
          start_time := os_now os (ticks s);
          last_heartbeat := os_now os (ticks s + 1);
          restart_count := restart_count info; last_error := last_error info |},
       set_ticks (ticks s + 2) (set_forks (forks s + 1) s))
  end.

Definition check_dependencies_ready (cfg : ProcessConfig) (s : ProcessManager)
    : bool :=
  forallb
    (fun dep =>
       match StrMap.find dep (processes s) with
       | None => false
       | Some it => ProcessState_eqb (state it) RUNNING
       end)
    (depends_on cfg).

(** [start_process] below its [lock_guard]. *)
Definition start_process_locked (name : string) (s : ProcessManager)
    : bool * ProcessManager :=
  match StrMap.find name (processes s) with
  | None => (false, s)                                  (* not found *)
  | Some info =>
      (* Check dependencies *)
      if negb (check_dependencies_ready (config info) s) then (false, s)
      else
        let info := set_state STARTING info in
        match spawn_process info s with
        | (false, info, s) => (false, put name (set_state CRASHED info) s)
        | (true, info, s) => (true, put name info s)    (* monitor thread starts *)
        end
  end.

Definition start_process (name : string) : ProcessManager -> Run bool :=
  locked (lift (start_process_locked name)).

(** [stop_process] below its [lock_guard].  [info.pid] is the identifier
    of a child or 0.  With 0, [kill] addresses the process group of the
    caller, the manager itself: the call is recorded and the operation
    stops there, [STOPPING].  (Where SIGTERM is caught, as [main]
    arranges, the SIGKILL that follows it ends the manager all the same;
    the operation does not return either way.) *)
Definition stop_process_locked (name : string) (force : bool) (s : ProcessManager)
    : Run bool :=
  match StrMap.find name (processes s) with
  | None => Ret false s
  | Some info =>
      let info := set_state STOPPING info in
      if pid info =? 0 then
        Stop SelfSignalled
          (put name info (emit [sys_kill 0 (if force then SIGKILL else SIGTERM)] s))
      else
        let calls :=
          if force then [sys_kill (pid info) SIGKILL]
          else [sys_kill (pid info) SIGTERM; sys_kill (pid info) SIGKILL] in
        let info :=
          {| config := config info; state := STOPPED;
             platform_handle := 0; pid := 0;
             start_time := start_time info; last_heartbeat := last_heartbeat info;
             restart_count := restart_count info; last_error := last_error info |} in
        Ret true (put name info (emit calls s))
  end.

Definition stop_process (name : string) (force : bool) : ProcessManager -> Run bool :=
  locked (stop_process_locked name force).

Definition restart_process (name : string) (s : ProcessManager) : Run bool :=
  bind (stop_process name false s) (fun _ => start_process name).

(** The first two statements of [handle_process_crash]:
    [auto& info = processes[name]; info.state = CRASHED;]. *)
Definition mark_crashed (name : string) (s : ProcessManager) : ProcessManager :=
  match StrMap.find name (processes s) with
  | Some info => put name (set_state CRASHED info) s
  | None =>
      set_processes
        (StrMap.insert name (set_state CRASHED ProcessInfo_default) (processes s)) s
  end.

(** [handle_process_crash] takes no lock itself; [monitor_process] calls
    it with [manager_mutex] held. *)
Definition handle_process_crash (name : string) (s : ProcessManager) : Run unit :=
  let s := mark_crashed name s in
  match StrMap.find name (processes s) with
  | Some info =>
      if auto_restart (config info)
         && (restart_count info <? max_restart_attempts (config info))
      then bind (restart_process name s) (fun _ => Ret tt)
      else Ret tt s
  | None => Ret tt s
  end.

(** One turn of the loop of [monitor_process], entered with [running]
    set: [waitpid_result] is what [waitpid (pid, WNOHANG)] returns.  The
    turn runs under a [lock_guard]; the boolean it returns tells whether
    the loop goes on.  [duration_cast<seconds>] rounds towards zero. *)
Definition monitor_iteration (name : string) (waitpid_result : Z)
    : ProcessManager -> Run bool :=
  locked (fun s =>
    match StrMap.find name (processes s) with
    | None => Ret false s
    | Some info =>
        if negb (waitpid_result =? 0)
        then bind (handle_process_crash name s) (fun _ => Ret false)
        else if enable_heartbeat (config info) then
          let now := os_now os (ticks s) in
          let s := set_ticks (ticks s + 1) s in
          let elapsed := Z.quot (now - last_heartbeat info) (os_ticks_per_second os) in
          if heartbeat_timeout (config info) <? elapsed
          then bind (handle_process_crash name s) (fun _ => Ret false)
          else Ret true s
        else Ret true s
    end).

(** The body of the range-for of [start_all], at the element with key
    [name]; [progress] is carried from turn to turn.  [start_all] holds
    no lock; [start_process] takes it. *)
Definition start_all_visit (progress : bool) (name : string) (s : ProcessManager)
    : Run bool :=
  match StrMap.find name (processes s) with
  | None => Ret progress s
  | Some info =>
      if ProcessState_eqb (state info) CREATED then
        if check_dependencies_ready (config info) s
        then bind (start_process name s) (fun _ => Ret true)
        else Ret progress s
      else Ret progress s
  end.

(** One pass of the range-for over [processes], starting with
    [progress = false]. *)
Definition start_all_pass (s : ProcessManager) : Run bool :=
  for_each start_all_visit (StrMap.keys (processes s)) false s.

(** The [while (progress)] loop, for at most [fuel] passes. *)
Fixpoint start_all_loop (fuel : nat) (s : ProcessManager) : option (Run unit) :=
  match fuel with
  | O => None
  | S fuel =>
      match start_all_pass s with
      | Ret true s => start_all_loop fuel s
      | Ret false s => Some (Ret tt s)
      | Stop why s => Some (Stop why s)
      end
  end.

(** Every pass that makes progress takes a process out of [CREATED], so
    one pass more than there are processes is enough (lemma
    [start_all_loop_returns]). *)
Definition start_all (s : ProcessManager) : Run unit :=
  default (Ret tt s) (start_all_loop (S (List.length (processes s))) s).

(** The body of the range-for of [stop_all]; [stop_process (name)] is
    [stop_process (name, false)]. *)
Definition stop_all_visit (_ : unit) (name : string) (s : ProcessManager) : Run unit :=
  match StrMap.find name (processes s) with
  | None => Ret tt s
  | Some info =>
      if ProcessState_eqb (state info) RUNNING
      then bind (stop_process name false s) (fun _ => Ret tt)
      else Ret tt s
  end.

Definition stop_all (s : ProcessManager) : Run unit :=
  for_each stop_all_visit (StrMap.keys (processes s)) tt s.

(** [channel->close()]. *)
Definition close_channel (c : Channel) : list Syscall :=
  match c with
  | FileIPC c =>
      [sys_remove (FileIPCChannel.ipc_file_path c);
       sys_remove (FileIPCChannel.response_file_path c)]
  | Stdio c =>
      ((if StdioChannel.stdin_pipe c =? 0 then []
        else [sys_close (StdioChannel.stdin_pipe c)]) ++
       (if StdioChannel.stdout_pipe c =? 0 then []
        else [sys_close (StdioChannel.stdout_pipe c)]) ++
       (if StdioChannel.stderr_pipe c =? 0 then []
        else [sys_close (StdioChannel.stderr_pipe c)]))%list
  end.

(** The loop of [shutdown] that closes every channel. *)
Definition close_channels (s : ProcessManager) : ProcessManager :=
  emit (concat (map (fun kc => close_channel (snd kc)) (channels s))) s.

(** [channels.clear(); processes.clear();]. *)
Definition clear_tables (s : ProcessManager) : ProcessManager :=
  set_processes [] (set_channels [] s).

Definition shutdown (s : ProcessManager) : Run unit :=
  let s := set_running false s in
  bind (stop_all s) (fun _ s =>
  let s := close_channels s in
  Ret tt (clear_tables s)).

Definition get_process_state (name : string) : ProcessManager -> Run ProcessState :=
  locked (fun s =>
    Ret (match StrMap.find name (processes s) with
         | Some it => state it
         | None => STOPPED
         end) s).

Definition get_all_processes : ProcessManager -> Run (list ProcessInfo) :=
  locked (fun s => Ret (map snd (processes s)) s).

(** [run] up to its event loop. *)
Definition run_startup (s : ProcessManager) : Run unit :=
  start_all (set_running true s).

End Supervisor.

(* ================================================================== *)
(** ** The supervisor as a transition system *)

Section Transitions.

Context (os : OS).

(** The transitions of the manager state: taking and releasing the lock,
    the three operations as they run under it, and the state changes that
    the composite operations make between them. *)
Inductive step : ProcessManager -> ProcessManager -> Prop :=
| step_register cfg s : step s (snd (register_process_locked os cfg s))
| step_start name s : step s (snd (start_process_locked os name s))
| step_stop name force s : step s (state_of (stop_process_locked name force s))
| step_mark_crashed name s : step s (mark_crashed name s)
| step_set_running b s : step s (set_running b s)
| step_set_mutex held s : step s (set_mutex held s)
| step_read_clock s : step s (set_ticks (ticks s + 1) s)
| step_close_channels s : step s (close_channels s)
| step_clear_tables s : step s (clear_tables s).

(** The public operations of the manager, and the turn of a monitor
    thread. *)
Inductive Operation :=
| op_register_process (cfg : ProcessConfig)
| op_start_process (name : string)
| op_stop_process (name : string) (force : bool)
| op_restart_process (name : string)
| op_start_all
| op_stop_all
| op_run_startup
| op_shutdown
| op_monitor_iteration (name : string) (waitpid_result : Z).

(** The state in which an operation leaves the manager, whether it
    returns or stops. *)
Definition exec (op : Operation) (s : ProcessManager) : ProcessManager :=
  match op with
  | op_register_process cfg => state_of (register_process os cfg s)
  | op_start_process name => state_of (start_process os name s)
  | op_stop_process name force => state_of (stop_process name force s)
  | op_restart_process name => state_of (restart_process os name s)
  | op_start_all => state_of (start_all os s)
  | op_stop_all => state_of (stop_all s)
  | op_run_startup => state_of (run_startup os s)
  | op_shutdown => state_of (shutdown s)
  | op_monitor_iteration name r => state_of (monitor_iteration os name r s)
  end.

(** The states a manager can be in: those that a sequence of operations
    produces from a fresh manager.  An operation that stops leaves the
    manager, in the state it stopped in, to the operations of the other
    threads. *)
Definition reachable (s : ProcessManager) : Prop :=
  exists ops : list Operation, s = fold_left (fun s op => exec op s) ops ProcessManager_new.

End Transitions.

(** [name] has a record in the table [ps], in state [RUNNING]. *)
Definition running_in (ps : list (string * ProcessInfo)) (name : string) : Prop :=
  exists info, StrMap.find name ps = Some info /\ state info = RUNNING.

Definition is_running (name : string) (s : ProcessManager) : Prop :=
  running_in (processes s) name.

(** [name] is not [RUNNING] in [s] and is [RUNNING] in [s']. *)
Definition enters_running (name : string) (s s' : ProcessManager) : Prop :=
  ~ is_running name s /\ is_running name s'.

(** [name] is registered in [s] and every process its configuration
    depends on is [RUNNING] in [s]. *)
Definition dependencies_running (name : string) (s : ProcessManager) : Prop :=
  exists info, StrMap.find name (processes s) = Some info /\
    Forall (fun dep => is_running dep s) (depends_on (config info)).

(** A transition in which every process that enters [RUNNING] has all its
    dependencies [RUNNING], before the transition and after it. *)
Definition safe_step (os : OS) (s s' : ProcessManager) : Prop :=
  step os s s' /\
  forall name, enters_running name s s' ->
    dependencies_running name s /\ dependencies_running name s'.

(** The ways a transition can change the process table from [ps] to
    [ps']: not at all; by overwriting the record of a registered process,
    keeping its configuration and restart counter, and making it [RUNNING]
    only if its dependencies are [RUNNING] in [ps]; by adding a record that
    is not [RUNNING], with a restart counter of zero; by emptying the
    table. *)
Inductive table_change (ps ps' : list (string * ProcessInfo)) : Prop :=
| change_none : ps' = ps -> table_change ps ps'
| change_record name info info' :
    StrMap.find name ps = Some info ->
    ps' = StrMap.set name info' ps ->
    config info' = config info ->
    restart_count info' = restart_count info ->
    (state info' = RUNNING -> Forall (running_in ps) (depends_on (config info))) ->
    table_change ps ps'
| change_added name info' :
    StrMap.find name ps = None ->
    ps' = StrMap.insert name info' ps ->
    state info' <> RUNNING ->
    restart_count info' = 0 ->
    table_change ps ps'
| change_cleared : ps' = [] -> table_change ps ps'.

(** Every restart counter is zero. *)
Definition restart_counts_zero (ps : list (string * ProcessInfo)) : Prop :=
  forall name info, StrMap.find name ps = Some info -> restart_count info = 0.

(** The number of processes in state [CREATED]. *)
Definition created_count (m : list (string * ProcessInfo)) : nat :=
  List.length (List.filter (fun kv => ProcessState_eqb (state (snd kv)) CREATED) m).

(* ================================================================== *)
(** ** The wire format as the interface description gives it *)

(** The line the documented wire format prescribes for a message: [type]
    is the bare ordinal, [data] is inlined, the other members are quoted
    strings or bare numbers, and a line feed ends the line. *)
Definition documented_wire_format (m : Message) : string :=
  oss_str
    [ "{";
      dq; "type"; dq; ":"; show_int (MessageType_to_int (type m)); ",";
      dq; "source"; dq; ":"; dq; source_process m; dq; ",";
      dq; "target"; dq; ":"; dq; target_process m; dq; ",";
      dq; "command"; dq; ":"; dq; command m; dq; ",";
      dq; "data"; dq; ":"; data m; ",";
      dq; "timestamp"; dq; ":"; show_uint64 (timestamp m); ",";
      dq; "message_id"; dq; ":"; dq; message_id m; dq;
      "}"; nl ].

(** The digit that stands for each message type on the wire. *)
Definition ordinal_digit (t : MessageType) : string :=
  match t with
  | COMMAND => "0" | RESPONSE => "1" | EVENT => "2"
  | HEARTBEAT => "3" | SHUTDOWN => "4" | ERROR => "5"
  end.

(* ================================================================== *)

(** ** Sample inputs *)

Module Sample.

Definition ping : Message :=
  {| type := COMMAND; source_process := "a"; target_process := "sup";
     command := "ping"; data := "{}"; timestamp := 1; message_id := "m1" |}.

Definition pong : Message :=
  {| type := COMMAND; source_process := "a"; target_process := "sup";
     command := "pong"; data := "{}"; timestamp := 2; message_id := "m2" |}.

(** A payload that is not JSON. *)
Definition not_json : Message :=
  {| type := COMMAND; source_process := "a"; target_process := "sup";
     command := "ping"; data := "not json"; timestamp := 1; message_id := "m1" |}.

(** [n] copies of the letter x. *)
Fixpoint xs (n : nat) : string :=
  match n with O => EmptyString | S n => String "x" (xs n) end.

Definition with_payload (payload : string) : Message :=
  {| type := COMMAND; source_process := "a"; target_process := "sup";
     command := "ping"; data := payload; timestamp := 1; message_id := "m1" |}.

(** Handlers that log their number and the command they were run for. *)
Definition logger (i : nat) : @Handler (list (nat * string)) :=
  fun msg w => Returned (w ++ [(i, command msg)])%list.

(** Handlers that log in the same way and then throw. *)
Definition thrower (i : nat) : @Handler (list (nat * string)) :=
  fun msg w => Threw (w ++ [(i, command msg)])%list.

(** An operating system where every call succeeds: the children get the
    identifiers 100, 101, ..., and the clock ticks once a second. *)
Definition os_ok : OS :=
  {| os_fork := fun n => Some (Pos.of_nat (100 + n));
     os_pipe := fun n => Some (Z.of_nat (3 + 2 * n), Z.of_nat (4 + 2 * n));
     os_now := fun n => Z.of_nat n;
     os_ticks_per_second := 1 |}.

(** The same with a clock in milliseconds, read every 15.9 seconds. *)
Definition os_ms : OS :=
  {| os_fork := fun n => Some (Pos.of_nat (100 + n));
     os_pipe := fun n => Some (Z.of_nat (3 + 2 * n), Z.of_nat (4 + 2 * n));
     os_now := fun n => 15900 * Z.of_nat n;
     os_ticks_per_second := 1000 |}.

Definition cfg (nm : string) (deps : list string) : ProcessConfig :=
  {| process_type := CUSTOM; name := nm; executable_path := "/bin/sleep";
     args := ["10"]; env_vars := []; comm_methods := [FILE_IPC];
     auto_restart := true; max_restart_attempts := 2; restart_delay := 5;
     enable_heartbeat := false; heartbeat_interval := 5; heartbeat_timeout := 15;
     depends_on := deps |}.

(** The same configuration with the heartbeat enabled, and without
    restarts. *)
Definition cfg_heartbeat (nm : string) : ProcessConfig :=
  {| process_type := CUSTOM; name := nm; executable_path := "/bin/sleep";
     args := ["10"]; env_vars := []; comm_methods := [FILE_IPC];
     auto_restart := false; max_restart_attempts := 2; restart_delay := 5;
     enable_heartbeat := true; heartbeat_interval := 5; heartbeat_timeout := 15;
     depends_on := [] |}.

(** A manager with the single process X registered. *)
Definition registered_X : ProcessManager :=
  state_of (register_process os_ok (cfg "X" []) ProcessManager_new).

(** X registered and started. *)
Definition running_X : ProcessManager :=
  state_of (start_process os_ok "X" registered_X).

(** The record of X in [running_X]. *)
Definition info_X : ProcessInfo :=
  {| config := cfg "X" []; state := RUNNING;
     platform_handle := 100; pid := 100;
     start_time := 0; last_heartbeat := 1;
     restart_count := 0; last_error := EmptyString |}.

(** A registered, B registered with A as its dependency, A started. *)
Definition running_A_created_B : ProcessManager :=
  state_of (start_process os_ok "A"
    (state_of (register_process os_ok (cfg "B" ["A"])
       (state_of (register_process os_ok (cfg "A" []) ProcessManager_new))))).

(** B registered, then A with B as its dependency; none started. *)
Definition created_A_needs_B : ProcessManager :=
  state_of (register_process os_ok (cfg "A" ["B"])
    (state_of (register_process os_ok (cfg "B" []) ProcessManager_new))).

(** B registered with a dependency that nobody registered. *)
Definition created_B_needs_ghost : ProcessManager :=
  state_of (register_process os_ok (cfg "B" ["ghost"]) ProcessManager_new).

(** A after B. *)
Definition rank_A_after_B (n : string) : nat :=
  if String.eqb n "A" then 1%nat else 0%nat.

(** Y, with a heartbeat, registered and started under the millisecond
    clock: its last heartbeat is at 15900 ms, the next reading of the
    clock at 31800 ms. *)
Definition running_Y : ProcessManager :=
  state_of (start_process os_ms "Y"
    (state_of (register_process os_ms (cfg_heartbeat "Y") ProcessManager_new))).

End Sample.

(* ================================================================== *)
(** ** The event loop of [run] *)

Section EventLoop.

Context {World : Type}.

(** What the body of the loop over [channels] does with the outcome of
    [channel->receive (msg, 100)]: a received message is validated, with a
    fresh empty [error], and routed if it is valid. *)
Definition run_on_receive (received : option Message)
    (handlers : gmap string (list (@Handler World))) (w : World) : Outcome World :=
  match received with
  | Some msg =>
      if fst (validate_message msg EmptyString) then route_message msg handlers w
      else Returned w                          (* Invalid message *)
  | None => Returned w
  end.

End EventLoop.

(* ================================================================== *)
(** ** Shapes of the process table *)

(** The names of the table come in strictly ascending order. *)
Definition keys_ascending (ps : list (string * ProcessInfo)) : Prop :=
  Sorted (fun a b => String.ltb a b = true) (StrMap.keys ps).

(** Every record is [CREATED] or [RUNNING]. *)
Definition created_or_running (ps : list (string * ProcessInfo)) : Prop :=
  forall name info, StrMap.find name ps = Some info ->
    state info = CREATED \/ state info = RUNNING.

(** Every name that a record depends on has a record. *)
Definition dependencies_registered (ps : list (string * ProcessInfo)) : Prop :=
  forall name info dep, StrMap.find name ps = Some info ->
    In dep (depends_on (config info)) -> StrMap.find dep ps <> None.

(** [rank] orders the table so that every record comes after the records
    it depends on: there is no cycle of dependencies. *)
Definition dependencies_ranked (rank : string -> nat)
    (ps : list (string * ProcessInfo)) : Prop :=
  forall name info dep, StrMap.find name ps = Some info ->
    In dep (depends_on (config info)) -> (rank dep < rank name)%nat.

(** Every [RUNNING] process has all its dependencies [RUNNING]. *)
Definition running_have_dependencies (ps : list (string * ProcessInfo)) : Prop :=
  forall name info, StrMap.find name ps = Some info -> state info = RUNNING ->
    Forall (running_in ps) (depends_on (config info)).

(** The tables [ps] and [ps'] have the same names, with the same
    configuration under each. *)
Definition same_configs (ps ps' : list (string * ProcessInfo)) : Prop :=
  forall name, option_map config (StrMap.find name ps')
             = option_map config (StrMap.find name ps).

(** Every [RUNNING] record holds the identifier of a child, not 0. *)
Definition running_have_pid (ps : list (string * ProcessInfo)) : Prop :=
  forall name info, StrMap.find name ps = Some info -> state info = RUNNING ->
    pid info <> 0.

(* ================================================================== *)

(** ** The configurations of [main] *)

Module Main.

Definition rust_config : ProcessConfig :=
  {| process_type := RUST_MAIN; name := "rust_main";
     executable_path := "./neuro-desktop.exe"; args := [];
     env_vars := [("NEURO_IPC_FILE", "./ipc_rust_main.json")];
     comm_methods := [FILE_IPC; STDIO];
     auto_restart := true; max_restart_attempts := 3; restart_delay := 5;
     enable_heartbeat := true; heartbeat_interval := 5; heartbeat_timeout := 15;
     depends_on := [] |}.

Definition go_config : ProcessConfig :=
  {| process_type := GO_INTEGRATION; name := "go_integration";
     executable_path := "./neuro-integration.exe"; args := [];
     env_vars := [("NEURO_IPC_FILE", "./neuro-integration-code-ipc.json");
                  ("NEURO_SDK_WS_URL", "ws://localhost:8000")];
     comm_methods := [FILE_IPC];
     auto_restart := true; max_restart_attempts := 5; restart_delay := 5;
     enable_heartbeat := true; heartbeat_interval := 10; heartbeat_timeout := 15;
     depends_on := ["rust_main"] |}.

(** [main] up to the event loop: the exit code 1 when a registration
    fails, otherwise the run of [run] up to the end of [start_all].  The
    four message handlers that [main] registers in between go to the
    router, which is modelled apart from the manager state. *)
Definition main (os : OS) : Z + Run unit :=
  let manager := ProcessManager_new in
  match register_process os rust_config manager with
  | Ret false _ => inl 1
  | Stop why manager => inr (Stop why manager)
  | Ret true manager =>
      match register_process os go_config manager with
      | Ret false _ => inl 1
      | Stop why manager => inr (Stop why manager)
      | Ret true manager => inr (run_startup os manager)
      end
  end.

End Main.

(* ================================================================== *)
(** * Properties *)

(* ================================================================== *)
(** ** Envelope encoding *)

Lemma empty_false_iff (s : string) : empty s = false <-> s <> EmptyString.
Proof. destruct s; simpl; split; congruence. Qed.

(** A message that passes the validator has a sender. *)
Lemma validate_message_source (msg : Message) (error : string) :
  fst (validate_message msg error) = true -> source_process msg <> EmptyString.
Proof.
  unfold validate_message.
  destruct (empty (source_process msg)) eqn:Hs; simpl; [discriminate|].
  intros _. now apply empty_false_iff.
Qed.

(** C3.  Decoding the encoding of a message that passes [validate_message]
    never gives the message back: [from_json] ignores its argument and
    returns a message whose strings are all empty, whatever values its two
    uninitialised members happen to hold. *)
Theorem from_json_to_json_not_identity
    (ty : MessageType) (ts : N) (msg : Message) (error : string) :
  fst (validate_message msg error) = true ->
  from_json ty ts (to_json msg) <> msg.
Proof.
  intros Hvalid Heq.
  apply validate_message_source in Hvalid.
  apply Hvalid. rewrite <- Heq. reflexivity.
Qed.

Lemma from_json_to_json_not_identity_witness :
  fst (validate_message Sample.ping EmptyString) = true /\
  from_json COMMAND 1 (to_json Sample.ping) <> Sample.ping.
Proof.
  split; [reflexivity|].
  apply (from_json_to_json_not_identity COMMAND 1 Sample.ping EmptyString).
  reflexivity.
Defined.

(** Encoding again what [from_json] decoded does not give the first
    encoding back either. *)
Example to_json_from_json_to_json_ping :
  to_json (from_json COMMAND 1 (to_json Sample.ping)) <> to_json Sample.ping.
Proof. vm_compute. discriminate. Qed.

(** C4, as the interface description has it, fails: the [type] member is
    written between double quotes, so what [StdioChannel::send] puts on
    the pipe is not the documented envelope, and does not start with the
    bare ordinal. *)
Lemma send_json_type_not_bare_ordinal :
  StdioChannel.send_json Sample.ping <> documented_wire_format Sample.ping /\
  String.prefix (oss_str ["{"; dq; "type"; dq; ":0,"])
                (StdioChannel.send_json Sample.ping) = false.
Proof. split; [vm_compute; discriminate | reflexivity]. Qed.

(** C4, amended.  What [StdioChannel::send] writes for a message is one
    line: an object with the members type, source, target, command, data,
    timestamp and message_id in this order, then a line feed.  [type] is
    the ordinal of the message type (COMMAND 0, RESPONSE 1, EVENT 2,
    HEARTBEAT 3, SHUTDOWN 4, ERROR 5) as a decimal digit between double
    quotes, [data] is copied as it is, without quotes. *)
Theorem send_json_format (m : Message) :
  StdioChannel.send_json m =
  String.append
    (oss_str
       [ "{";
         dq; "type"; dq; ":"; dq; ordinal_digit (type m); dq; ",";
         dq; "source"; dq; ":"; dq; source_process m; dq; ",";
         dq; "target"; dq; ":"; dq; target_process m; dq; ",";
         dq; "command"; dq; ":"; dq; command m; dq; ",";
         dq; "data"; dq; ":"; data m; ",";
         dq; "timestamp"; dq; ":"; show_uint64 (timestamp m); ",";
         dq; "message_id"; dq; ":"; dq; message_id m; dq;
         "}" ])
    nl.
Proof.
  unfold StdioChannel.send_json, to_json.
  destruct m as [t src tgt cmd d ts id]; destruct t; reflexivity.
Qed.

(* ================================================================== *)
(** ** Validation *)

Lemma is_safe_json_true_iff (json : string) :
  is_safe_json json = true <-> string_length json <= 1048576.
Proof.
  unfold is_safe_json.
  change (1024 * 1024) with 1048576.
  destruct (Z.ltb_spec 1048576 (string_length json)); split; intros; try lia; congruence.
Qed.

(** Splits on which of the three names of [msg] are empty and on the
    verdict of [is_safe_json]. *)
Ltac validate_cases msg :=
  unfold validate_message;
  pose proof (is_safe_json_true_iff (data msg));
  destruct (source_process msg), (target_process msg), (command msg),
    (is_safe_json (data msg)); simpl;
  split; try congruence; try intuition (congruence || lia).

(** The first check: the sender. *)
Lemma validate_message_source_iff (msg : Message) (error : string) :
  validate_message msg error = (false, "Source process is empty") <->
  source_process msg = EmptyString.
Proof.
  validate_cases msg.
Qed.

(** The second check: the recipient. *)
Lemma validate_message_target_iff (msg : Message) (error : string) :
  validate_message msg error = (false, "Target process is empty") <->
  source_process msg <> EmptyString /\ target_process msg = EmptyString.
Proof.
  validate_cases msg.
Qed.

(** The third check: the command. *)
Lemma validate_message_command_iff (msg : Message) (error : string) :
  validate_message msg error = (false, "Command is empty") <->
  source_process msg <> EmptyString /\ target_process msg <> EmptyString /\
  command msg = EmptyString.
Proof.
  validate_cases msg.
Qed.

(** The fourth and last check: the size of the payload. *)
Lemma validate_message_data_iff (msg : Message) (error : string) :
  validate_message msg error = (false, "Invalid JSON data") <->
  source_process msg <> EmptyString /\ target_process msg <> EmptyString /\
  command msg <> EmptyString /\ 1048576 < string_length (data msg).
Proof.
  validate_cases msg.
Qed.

(** A message is accepted exactly when the three names are not empty and
    the payload has at most 1 MiB: what the payload holds plays no part. *)
Lemma validate_message_true_iff (msg : Message) (error : string) :
  fst (validate_message msg error) = true <->
  source_process msg <> EmptyString /\ target_process msg <> EmptyString /\
  command msg <> EmptyString /\ string_length (data msg) <= 1048576.
Proof.
  validate_cases msg.
Qed.

(** C7.  The validator accepts a message whose payload is not JSON: after
    the three emptiness checks and the size check there is no fifth
    check. *)
Theorem validate_message_accepts_non_json :
  validate_message Sample.not_json EmptyString = (true, EmptyString).
Proof. reflexivity. Qed.

Lemma string_length_xs (n : nat) : string_length (Sample.xs n) = Z.of_nat n.
Proof.
  unfold string_length. f_equal.
  induction n as [|n IH]; simpl; [reflexivity | now rewrite IH].
Qed.

(** C8.  With the three names not empty, a payload of exactly 1 MiB
    (1048576 bytes) is accepted and a payload of one byte more is
    rejected. *)
Theorem validate_message_payload_boundary (msg : Message) (error : string) :
  source_process msg <> EmptyString ->
  target_process msg <> EmptyString ->
  command msg <> EmptyString ->
  (string_length (data msg) = 1048576 ->
     validate_message msg error = (true, error)) /\
  (string_length (data msg) = 1048577 ->
     validate_message msg error = (false, "Invalid JSON data")).
Proof.
  intros Hs Ht Hc.
  apply empty_false_iff in Hs, Ht, Hc.
  unfold validate_message, is_safe_json. rewrite Hs, Ht, Hc.
  split; intros ->; reflexivity.
Qed.

Lemma validate_message_payload_boundary_witness :
  validate_message (Sample.with_payload (Sample.xs (N.to_nat 1048576))) EmptyString
    = (true, EmptyString) /\
  validate_message (Sample.with_payload (Sample.xs (N.to_nat 1048577))) EmptyString
    = (false, "Invalid JSON data").
Proof.
  split.
  - apply (validate_message_payload_boundary
             (Sample.with_payload (Sample.xs (N.to_nat 1048576))) EmptyString);
      try discriminate.
    unfold Sample.with_payload, data.
    rewrite string_length_xs, N_nat_Z. reflexivity.
  - apply (validate_message_payload_boundary
             (Sample.with_payload (Sample.xs (N.to_nat 1048577))) EmptyString);
      try discriminate.
    unfold Sample.with_payload, data.
    rewrite string_length_xs, N_nat_Z. reflexivity.
Defined.

(* ================================================================== *)

(** ** Routing *)

Section RouterProperties.

Context {World : Type}.
Implicit Types (handlers : gmap string (list (@Handler World))).
Implicit Types (h : @Handler World) (w : World).

Lemma route_message_registered handlers msg hs w :
  handlers !! command msg = Some hs ->
  route_message msg handlers w = run_handlers msg hs w.
Proof. unfold route_message. now intros ->. Qed.

(** A command without an entry in the table: nothing runs. *)
Lemma route_message_missing handlers msg w :
  handlers !! command msg = None -> route_message msg handlers w = Returned w.
Proof. unfold route_message. now intros ->. Qed.

(** Registration appends to the handlers already there for the command. *)
Lemma lookup_register_handler_eq handlers k h :
  register_handler k h handlers !! k = Some (default [] (handlers !! k) ++ [h])%list.
Proof. unfold register_handler. apply lookup_insert_eq. Qed.

(** Registration leaves the other commands alone. *)
Lemma lookup_register_handler_ne handlers k k' h :
  k <> k' -> register_handler k h handlers !! k' = handlers !! k'.
Proof. intros Hne. unfold register_handler. now apply lookup_insert_ne. Qed.

(** The handlers [hs2] run after [hs1], on the state [hs1] leave, unless
    one of [hs1] throws. *)
Lemma run_handlers_app msg (hs1 hs2 : list (@Handler World)) w :
  run_handlers msg (hs1 ++ hs2) w =
    match run_handlers msg hs1 w with
    | Returned w1 => run_handlers msg hs2 w1
    | Threw w1 => Threw w1
    end.
Proof.
  revert w. induction hs1 as [|h hs1 IH]; intros w; simpl; [reflexivity|].
  destruct (h msg w) as [w1|w1]; [apply IH | reflexivity].
Qed.

(** A single handler. *)
Lemma run_handlers_one msg h w : run_handlers msg [h] w = h msg w.
Proof. simpl. now destruct (h msg w). Qed.

(** C9, as stated, fails: with a first handler that throws, the second is
    not invoked.  Handler 1 logs its call and throws; handler 2, registered
    after it under the same command, leaves no trace, and the exception
    leaves [route_message]. *)
Lemma route_message_stops_at_throw :
  route_message Sample.ping
    (register_handler "ping" (Sample.logger 2)
       (register_handler "ping" (Sample.thrower 1) ∅)) []
    = Threw [(1%nat, "ping")] /\
  route_message Sample.ping
    (register_handler "ping" (Sample.logger 2)
       (register_handler "ping" (Sample.thrower 1) ∅)) []
    <> Returned [(1%nat, "ping"); (2%nat, "ping")].
Proof. split; [reflexivity | discriminate]. Qed.

(** C9, amended.  In a router that has no handler for [k], register [h1]
    and then [h2] under [k].  Routing a message whose command is [k] then
    calls [h1] once and, if [h1] returns, [h2] once on the state [h1]
    left; if [h1] throws, [h2] is not called and the exception leaves
    [route_message].  Routing a message whose command has no entry calls
    nothing. *)
Theorem route_message_registration_order handlers k h1 h2 msg msg' w :
  handlers !! k = None ->
  command msg = k ->
  register_handler k h2 (register_handler k h1 handlers) !! command msg' = None ->
  route_message msg (register_handler k h2 (register_handler k h1 handlers)) w
    = match h1 msg w with
      | Returned w1 => h2 msg w1
      | Threw w1 => Threw w1
      end /\
  route_message msg' (register_handler k h2 (register_handler k h1 handlers)) w
    = Returned w.
Proof.
  intros Hfresh <- Hmissing. split.
  - erewrite route_message_registered.
    2:{ rewrite lookup_register_handler_eq, lookup_register_handler_eq. reflexivity. }
    rewrite Hfresh. simpl.
    destruct (h1 msg w) as [w1|w1]; [apply run_handlers_one | reflexivity].
  - now apply route_message_missing.
Qed.

End RouterProperties.

Lemma route_message_registration_order_witness :
  route_message Sample.ping
    (register_handler "ping" (Sample.logger 2)
       (register_handler "ping" (Sample.logger 1) ∅)) []
    = Returned [(1%nat, "ping"); (2%nat, "ping")] /\
  route_message Sample.pong
    (register_handler "ping" (Sample.logger 2)
       (register_handler "ping" (Sample.logger 1) ∅)) []
    = Returned [].
Proof.
  apply (route_message_registration_order ∅ "ping" (Sample.logger 1) (Sample.logger 2)
           Sample.ping Sample.pong []);
    reflexivity.
Defined.

(* ================================================================== *)
(** ** The string-keyed map *)

Section StrMapProperties.

Context {V : Type}.
Implicit Types (m : list (string * V)) (k : string) (v : V).

Lemma find_insert_eq m k v : StrMap.find k (StrMap.insert k v m) = Some v.
Proof.
  induction m as [|[k' v'] m IH]; simpl.
  - now rewrite String.eqb_refl.
  - destruct (String.compare k k') eqn:Hcmp; simpl.
    + now rewrite String.eqb_refl.
    + now rewrite String.eqb_refl.
    + destruct (String.eqb_spec k k') as [->|_]; [|exact IH].
      pose proof (String.compare_antisym k' k') as Hanti.
      rewrite Hcmp in Hanti. discriminate Hanti.
Qed.

Lemma find_insert_ne m k k' v :
  k <> k' -> StrMap.find k' (StrMap.insert k v m) = StrMap.find k' m.
Proof.
  intros Hne. induction m as [|[k0 v0] m IH]; simpl.
  - destruct (String.eqb_spec k' k); congruence.
  - destruct (String.compare k k0) eqn:Hcmp; simpl.
    + apply String.compare_eq_iff in Hcmp. subst k0.
      destruct (String.eqb_spec k' k); congruence.
    + destruct (String.eqb_spec k' k); congruence.
    + now rewrite IH.
Qed.

Lemma find_set_eq m k v :
  StrMap.find k (StrMap.set k v m) = option_map (fun _ => v) (StrMap.find k m).
Proof.
  induction m as [|[k' v'] m IH]; simpl; [reflexivity|].
  destruct (String.eqb_spec k k') as [->|Hne]; simpl.
  - now rewrite String.eqb_refl.
  - destruct (String.eqb_spec k k'); [contradiction | exact IH].
Qed.

Lemma find_set_ne m k k' v :
  k <> k' -> StrMap.find k' (StrMap.set k v m) = StrMap.find k' m.
Proof.
  intros Hne. induction m as [|[k0 v0] m IH]; simpl; [reflexivity|].
  destruct (String.eqb_spec k k0) as [->|Hne0]; simpl.
  - destruct (String.eqb_spec k' k0); [congruence | exact IH].
  - now rewrite IH.
Qed.

Lemma keys_set m k v : StrMap.keys (StrMap.set k v m) = StrMap.keys m.
Proof.
  unfold StrMap.keys, StrMap.set. rewrite map_map. apply map_ext.
  intros [k' v']; simpl. now destruct (String.eqb k k').
Qed.

Lemma length_set m k v : List.length (StrMap.set k v m) = List.length m.
Proof. unfold StrMap.set. apply length_map. Qed.

End StrMapProperties.

(* ================================================================== *)
(** ** The lock *)

Lemma ProcessState_eqb_eq (a b : ProcessState) :
  ProcessState_eqb a b = true <-> a = b.
Proof. destruct a, b; simpl; split; congruence. Qed.

Lemma processes_put name info s :
  processes (put name info s) = StrMap.set name info (processes s).
Proof. reflexivity. Qed.

Lemma set_mutex_same s : set_mutex (manager_mutex s) s = s.
Proof. now destruct s. Qed.

Lemma set_mutex_free s : manager_mutex s = false -> set_mutex false s = s.
Proof. intros <-. apply set_mutex_same. Qed.

Lemma set_mutex_held s : manager_mutex s = true -> set_mutex true s = s.
Proof. intros <-. apply set_mutex_same. Qed.

(** An operation that locks [manager_mutex] while it is held never
    returns, and changes nothing. *)
Lemma locked_held {A : Type} (body : ProcessManager -> Run A) s :
  manager_mutex s = true -> locked body s = Stop Deadlock s.
Proof. unfold locked. now intros ->. Qed.

(** A critical section that always returns and does not look at the
    mutex: with the mutex free, the operation is the section. *)
Lemma locked_lift {A : Type} (f : ProcessManager -> A * ProcessManager) s :
  (forall b s, f (set_mutex b s) = (fst (f s), set_mutex b (snd (f s)))) ->
  manager_mutex s = false ->
  locked (lift f) s = Ret (fst (f s)) (snd (f s)).
Proof.
  intros Hblind Hfree. unfold locked, lift. rewrite Hfree, Hblind. simpl.
  f_equal. change (set_mutex false (set_mutex true (snd (f s))))
    with (set_mutex false (snd (f s))).
  pose proof (Hblind false s) as Hs. rewrite (set_mutex_free s Hfree) in Hs.
  now rewrite Hs at 2.
Qed.

(** Such a section leaves the mutex as it finds it. *)
Lemma blind_mutex {A : Type} (f : ProcessManager -> A * ProcessManager) s :
  (forall b s, f (set_mutex b s) = (fst (f s), set_mutex b (snd (f s)))) ->
  manager_mutex (snd (f s)) = manager_mutex s.
Proof.
  intros Hblind. pose proof (Hblind (manager_mutex s) s) as Hs.
  rewrite set_mutex_same in Hs. now rewrite Hs at 1.
Qed.

(* ================================================================== *)
(** ** How each operation changes the process table *)

Section SupervisorProperties.

Context (os : OS).

Lemma create_channel_mutex nm b s method :
  create_channel os nm (set_mutex b s) method
    = set_mutex b (create_channel os nm s method).
Proof.
  destruct method; simpl; try reflexivity.
  unfold StdioChannel_initialize. simpl.
  destruct (os_pipe os (pipes s)); [|reflexivity].
  destruct (os_pipe os (pipes s + 1)); [|reflexivity].
  destruct (os_pipe os (pipes s + 2)); reflexivity.
Qed.

Lemma create_channels_mutex nm b methods s :
  fold_left (create_channel os nm) methods (set_mutex b s)
    = set_mutex b (fold_left (create_channel os nm) methods s).
Proof.
  revert s. induction methods as [|method methods IH]; intros s; simpl;
    [reflexivity|].
  now rewrite create_channel_mutex, IH.
Qed.

Lemma register_process_locked_mutex cfg b s :
  register_process_locked os cfg (set_mutex b s)
    = (fst (register_process_locked os cfg s),
       set_mutex b (snd (register_process_locked os cfg s))).
Proof.
  unfold register_process_locked. simpl.
  destruct (StrMap.find (name cfg) (processes s)); [reflexivity|]. simpl.
  f_equal. rewrite <- create_channels_mutex. reflexivity.
Qed.

Lemma start_process_locked_mutex name b s :
  start_process_locked os name (set_mutex b s)
    = (fst (start_process_locked os name s),
       set_mutex b (snd (start_process_locked os name s))).
Proof.
  unfold start_process_locked. simpl.
  destruct (StrMap.find name (processes s)) as [info|]; [|reflexivity].
  change (check_dependencies_ready (config info) (set_mutex b s))
    with (check_dependencies_ready (config info) s).
  destruct (check_dependencies_ready (config info) s); [|reflexivity]. simpl.
  unfold spawn_process. simpl. now destruct (os_fork os (forks s)).
Qed.

(** With the mutex free, [register_process] is its critical section. *)
Lemma register_process_free cfg s :
  manager_mutex s = false ->
  register_process os cfg s
    = Ret (fst (register_process_locked os cfg s))
          (snd (register_process_locked os cfg s)).
Proof. apply locked_lift, register_process_locked_mutex. Qed.

(** And so is [start_process]. *)
Lemma start_process_free name s :
  manager_mutex s = false ->
  start_process os name s
    = Ret (fst (start_process_locked os name s))
          (snd (start_process_locked os name s)).
Proof. apply locked_lift, start_process_locked_mutex. Qed.

Lemma register_process_locked_keeps_mutex cfg s :
  manager_mutex (snd (register_process_locked os cfg s)) = manager_mutex s.
Proof. apply blind_mutex, register_process_locked_mutex. Qed.

Lemma start_process_locked_keeps_mutex name s :
  manager_mutex (snd (start_process_locked os name s)) = manager_mutex s.
Proof. apply blind_mutex, start_process_locked_mutex. Qed.

(** The state in which [start_process] leaves the manager. *)
Lemma state_of_start_process name s :
  state_of (start_process os name s)
    = if manager_mutex s then s else snd (start_process_locked os name s).
Proof.
  destruct (manager_mutex s) eqn:Hmutex.
  - unfold start_process. now rewrite locked_held.
  - now rewrite start_process_free.
Qed.

Lemma state_of_register_process cfg s :
  state_of (register_process os cfg s)
    = if manager_mutex s then s else snd (register_process_locked os cfg s).
Proof.
  destruct (manager_mutex s) eqn:Hmutex.
  - unfold register_process. now rewrite locked_held.
  - now rewrite register_process_free.
Qed.

Lemma processes_create_channel nm s method :
  processes (create_channel os nm s method) = processes s.
Proof.
  destruct method; simpl; try reflexivity.
  unfold StdioChannel_initialize.
  destruct (os_pipe os (pipes s)); [|reflexivity].
  destruct (os_pipe os (pipes s + 1)); [|reflexivity].
  destruct (os_pipe os (pipes s + 2)); reflexivity.
Qed.

Lemma processes_create_channels nm methods s :
  processes (fold_left (create_channel os nm) methods s) = processes s.
Proof.
  revert s. induction methods as [|method methods IH]; intros s; simpl.
  - reflexivity.
  - now rewrite IH, processes_create_channel.
Qed.

(** The critical section of [register_process] on a name that is not in
    the table. *)
Lemma register_process_locked_fresh cfg s :
  StrMap.find (name cfg) (processes s) = None ->
  fst (register_process_locked os cfg s) = true /\
  processes (snd (register_process_locked os cfg s)) =
    StrMap.insert (name cfg)
      {| config := cfg; state := CREATED; platform_handle := 0; pid := 0;
         start_time := 0; last_heartbeat := 0;
         restart_count := 0; last_error := EmptyString |}
      (processes s).
Proof.
  intros Hfresh. unfold register_process_locked. rewrite Hfresh. simpl.
  split; [reflexivity|]. now rewrite processes_create_channels.
Qed.

(** And on a name that is in the table. *)
Lemma register_process_locked_duplicate cfg s info :
  StrMap.find (name cfg) (processes s) = Some info ->
  register_process_locked os cfg s = (false, s).
Proof. intros Hfound. unfold register_process_locked. now rewrite Hfound. Qed.

(** [register_process] on a name that is not in the table. *)
Lemma register_process_fresh cfg s :
  StrMap.find (name cfg) (processes s) = None ->
  manager_mutex s = false ->
  exists s',
    register_process os cfg s = Ret true s' /\
    manager_mutex s' = false /\
    processes s' =
      StrMap.insert (name cfg)
        {| config := cfg; state := CREATED; platform_handle := 0; pid := 0;
           start_time := 0; last_heartbeat := 0;
           restart_count := 0; last_error := EmptyString |}
        (processes s).
Proof.
  intros Hfresh Hfree.
  destruct (register_process_locked_fresh cfg s Hfresh) as [Hok Hps].
  exists (snd (register_process_locked os cfg s)).
  rewrite (register_process_free cfg s Hfree), Hok.
  split_and!; [reflexivity | | exact Hps].
  now rewrite register_process_locked_keeps_mutex.
Qed.

(** [register_process] on a name that is in the table. *)
Lemma register_process_duplicate cfg s info :
  StrMap.find (name cfg) (processes s) = Some info ->
  manager_mutex s = false ->
  register_process os cfg s = Ret false s.
Proof.
  intros Hfound Hfree.
  now rewrite (register_process_free cfg s Hfree),
    (register_process_locked_duplicate cfg s info Hfound).
Qed.

(** [check_dependencies_ready] holds exactly when every dependency is in
    the table and [RUNNING]. *)
Lemma check_dependencies_ready_iff cfg s :
  check_dependencies_ready cfg s = true <->
  Forall (fun dep => is_running dep s) (depends_on cfg).
Proof.
  unfold check_dependencies_ready. rewrite forallb_forall, List.Forall_forall.
  split; intros Hall dep Hin; specialize (Hall dep Hin).
  - destruct (StrMap.find dep (processes s)) as [it|] eqn:Hfind; [|discriminate].
    exists it. split; [assumption|]. now apply ProcessState_eqb_eq.
  - destruct Hall as (it & -> & Hstate). now apply ProcessState_eqb_eq.
Qed.

Lemma start_process_locked_unknown name s :
  StrMap.find name (processes s) = None ->
  start_process_locked os name s = (false, s).
Proof. intros Hfind. unfold start_process_locked. now rewrite Hfind. Qed.

Lemma start_process_locked_not_ready name s info :
  StrMap.find name (processes s) = Some info ->
  check_dependencies_ready (config info) s = false ->
  start_process_locked os name s = (false, s).
Proof. intros Hfind Hdeps. unfold start_process_locked. now rewrite Hfind, Hdeps. Qed.

(** The critical section of [start_process] on a registered name whose
    dependencies are ready: [fork] is called and the record is
    overwritten, [RUNNING] with the new child when [fork] succeeded and
    the result is [true], [CRASHED] otherwise.  The state the record had
    plays no part. *)
Lemma start_process_locked_spawns name s info :
  StrMap.find name (processes s) = Some info ->
  check_dependencies_ready (config info) s = true ->
  exists info',
    processes (snd (start_process_locked os name s))
      = StrMap.set name info' (processes s) /\
    forks (snd (start_process_locked os name s)) = S (forks s) /\
    syscalls (snd (start_process_locked os name s)) = syscalls s /\
    config info' = config info /\
    restart_count info' = restart_count info /\
    ((fst (start_process_locked os name s) = true /\ state info' = RUNNING /\
      exists child, os_fork os (forks s) = Some child /\ pid info' = Z.pos child) \/
     (fst (start_process_locked os name s) = false /\ state info' = CRASHED /\
      os_fork os (forks s) = None)).
Proof.
  intros Hfind Hdeps. unfold start_process_locked. rewrite Hfind, Hdeps. simpl.
  unfold spawn_process.
  destruct (os_fork os (forks s)) as [child|] eqn:Hfork; simpl.
  - eexists. split_and!; [reflexivity | simpl; lia | done..|].
    left. split_and!; [done..|]. now exists child.
  - eexists. split_and!; [reflexivity | simpl; lia | done..|].
    right. now split_and!.
Qed.

(** The outcomes of the critical section of [start_process] together. *)
Lemma start_process_locked_outcome name s :
  start_process_locked os name s = (false, s) \/
  exists info info',
    StrMap.find name (processes s) = Some info /\
    check_dependencies_ready (config info) s = true /\
    processes (snd (start_process_locked os name s))
      = StrMap.set name info' (processes s) /\
    config info' = config info /\
    restart_count info' = restart_count info /\
    (state info' = RUNNING \/ state info' = CRASHED).
Proof.
  destruct (StrMap.find name (processes s)) as [info|] eqn:Hfind;
    [|left; now apply start_process_locked_unknown].
  destruct (check_dependencies_ready (config info) s) eqn:Hdeps;
    [|left; now apply (start_process_locked_not_ready name s info)].
  right.
  destruct (start_process_locked_spawns name s info Hfind Hdeps)
    as (info' & Hps & _ & _ & Hcfg & Hcount & Hstate).
  exists info, info'. split_and!; try done.
  destruct Hstate as [(_ & ? & _)|(_ & ? & _)]; [now left | now right].
Qed.

(** [start_process] on a name that is not in the table. *)
Lemma start_process_unknown name s :
  StrMap.find name (processes s) = None ->
  manager_mutex s = false ->
  start_process os name s = Ret false s.
Proof.
  intros Hfind Hfree.
  now rewrite (start_process_free name s Hfree), (start_process_locked_unknown name s Hfind).
Qed.

(** [start_process] while a dependency is missing or not [RUNNING]. *)
Lemma start_process_not_ready name s info :
  StrMap.find name (processes s) = Some info ->
  check_dependencies_ready (config info) s = false ->
  manager_mutex s = false ->
  start_process os name s = Ret false s.
Proof.
  intros Hfind Hdeps Hfree.
  now rewrite (start_process_free name s Hfree),
    (start_process_locked_not_ready name s info Hfind Hdeps).
Qed.

(** [start_process] on a registered name whose dependencies are ready. *)
Lemma start_process_spawns name s info :
  StrMap.find name (processes s) = Some info ->
  check_dependencies_ready (config info) s = true ->
  manager_mutex s = false ->
  exists ok s' info',
    start_process os name s = Ret ok s' /\
    manager_mutex s' = false /\
    processes s' = StrMap.set name info' (processes s) /\
    forks s' = S (forks s) /\
    syscalls s' = syscalls s /\
    channels s' = channels s /\
    running s' = running s /\
    config info' = config info /\
    restart_count info' = restart_count info /\
    ((ok = true /\ state info' = RUNNING /\
      exists child, os_fork os (forks s) = Some child /\ pid info' = Z.pos child) \/
     (ok = false /\ state info' = CRASHED /\ os_fork os (forks s) = None)).
Proof.
  intros Hfind Hdeps Hfree.
  destruct (start_process_locked_spawns name s info Hfind Hdeps)
    as (info' & Hps & Hforks & Hsys & Hcfg & Hcount & Hstate).
  exists (fst (start_process_locked os name s)),
    (snd (start_process_locked os name s)), info'.
  split_and!; try assumption.
  - now apply start_process_free.
  - now rewrite start_process_locked_keeps_mutex.
  - unfold start_process_locked. rewrite Hfind, Hdeps. simpl.
    unfold spawn_process. now destruct (os_fork os (forks s)).
  - unfold start_process_locked. rewrite Hfind, Hdeps. simpl.
    unfold spawn_process. now destruct (os_fork os (forks s)).
Qed.

End SupervisorProperties.

(** The outcomes of the critical section of [stop_process]: an unknown
    name is refused; a known one whose record holds the identifier of a
    child is signalled and ends [STOPPED] with its handle and identifier
    cleared; with a record that holds 0 the signal goes to the group of
    the manager and the section stops, the record [STOPPING]. *)
Lemma stop_process_locked_outcome name force s :
  (StrMap.find name (processes s) = None /\
   stop_process_locked name force s = Ret false s) \/
  (exists info,
     StrMap.find name (processes s) = Some info /\ pid info <> 0 /\
     stop_process_locked name force s =
       Ret true
         (put name
            {| config := config info; state := STOPPED;
               platform_handle := 0; pid := 0;
               start_time := start_time info; last_heartbeat := last_heartbeat info;
               restart_count := restart_count info; last_error := last_error info |}
            (emit (if force then [sys_kill (pid info) SIGKILL]
                   else [sys_kill (pid info) SIGTERM; sys_kill (pid info) SIGKILL]) s))) \/
  (exists info,
     StrMap.find name (processes s) = Some info /\ pid info = 0 /\
     stop_process_locked name force s =
       Stop SelfSignalled
         (put name (set_state STOPPING info)
            (emit [sys_kill 0 (if force then SIGKILL else SIGTERM)] s))).
Proof.
  unfold stop_process_locked.
  destruct (StrMap.find name (processes s)) as [info|] eqn:Hfind; [|now left].
  right. simpl. destruct (Z.eqb_spec (pid info) 0) as [Hzero|Hpid].
  - right. now exists info.
  - left. exists info. split_and!; [reflexivity | assumption |].
    now destruct force.
Qed.

(** With the mutex free, [stop_process] is its critical section; where
    the section stops, the mutex stays held. *)
Lemma stop_process_free name force s :
  manager_mutex s = false ->
  stop_process name force s =
    match stop_process_locked name force s with
    | Ret ok s' => Ret ok s'
    | Stop why s' => Stop why (set_mutex true s')
    end.
Proof.
  intros Hfree. unfold stop_process, locked. rewrite Hfree.
  unfold stop_process_locked.
  change (processes (set_mutex true s)) with (processes s).
  destruct (StrMap.find name (processes s)) as [info|].
  - simpl. destruct (pid info =? 0); [reflexivity|].
    f_equal. destruct s; simpl in *; subst; reflexivity.
  - f_equal. destruct s; simpl in *; subst; reflexivity.
Qed.

(** A [stop_process] that returns leaves the mutex free. *)
Lemma stop_process_returns_free name force s ok s' :
  stop_process name force s = Ret ok s' ->
  manager_mutex s = false /\ manager_mutex s' = false.
Proof.
  unfold stop_process, locked.
  destruct (manager_mutex s) eqn:Hfree; [discriminate|].
  destruct (stop_process_locked name force (set_mutex true s)); [|discriminate].
  now intros [= _ <-].
Qed.

(** The state in which [stop_process] leaves the manager. *)
Lemma state_of_stop_process name force s :
  state_of (stop_process name force s)
    = if manager_mutex s then s
      else match stop_process_locked name force s with
           | Ret _ s' => s'
           | Stop _ s' => set_mutex true s'
           end.
Proof.
  destruct (manager_mutex s) eqn:Hmutex.
  - unfold stop_process. now rewrite locked_held.
  - rewrite (stop_process_free name force s Hmutex).
    now destruct (stop_process_locked name force s).
Qed.

Lemma mark_crashed_table_change name s :
  table_change (processes s) (processes (mark_crashed name s)).
Proof.
  unfold mark_crashed.
  destruct (StrMap.find name (processes s)) as [info|] eqn:Hfind.
  - apply (change_record _ _ name info (set_state CRASHED info)); try done.
  - apply (change_added _ _ name (set_state CRASHED ProcessInfo_default)); done.
Qed.

(** Every transition changes the process table in one of the four ways. *)
Lemma step_table_change os s s' :
  step os s s' -> table_change (processes s) (processes s').
Proof.
  intros [cfg s0|name s0|name force s0|name s0|b s0|held s0|s0|s0|s0].
  - destruct (StrMap.find (name cfg) (processes s0)) as [info|] eqn:Hfind.
    + rewrite (register_process_locked_duplicate os cfg s0 info Hfind).
      now apply change_none.
    + destruct (register_process_locked_fresh os cfg s0 Hfind) as [_ Hps].
      eapply change_added; [exact Hfind | exact Hps | done | done].
  - destruct (start_process_locked_outcome os name s0)
      as [->|(info & info' & Hfind & Hdeps & Hps & Hcfg & Hcount & Hstate)].
    + now apply change_none.
    + eapply change_record; [exact Hfind | exact Hps | exact Hcfg | exact Hcount |].
      intros _. now apply check_dependencies_ready_iff.
  - destruct (stop_process_locked_outcome name force s0)
      as [[_ ->]|[(info & Hfind & _ & ->)|(info & Hfind & _ & ->)]].
    + now apply change_none.
    + eapply change_record; [exact Hfind | reflexivity | done | done | discriminate].
    + eapply change_record; [exact Hfind | reflexivity | done | done | discriminate].
  - apply mark_crashed_table_change.
  - now apply change_none.
  - now apply change_none.
  - now apply change_none.
  - now apply change_none.
  - now apply change_cleared.
Qed.

(** A change of the table never lets a process enter [RUNNING] unless its
    dependencies are [RUNNING] in the table before and in the table
    after. *)
Lemma table_change_running ps ps' name :
  table_change ps ps' ->
  ~ running_in ps name -> running_in ps' name ->
  (exists info, StrMap.find name ps = Some info /\
     Forall (running_in ps) (depends_on (config info))) /\
  (exists info, StrMap.find name ps' = Some info /\
     Forall (running_in ps') (depends_on (config info))).
Proof.
  intros [->|changed info info' Hfind -> Hcfg _ Hdeps
         | added info' Hfresh -> Hstate _ | -> ] Hbefore Hafter.
  - contradiction.
  - destruct (String.eqb_spec changed name) as [->|Hne].
    + destruct Hafter as (info0 & Hfind0 & Hrunning).
      rewrite find_set_eq, Hfind in Hfind0. simpl in Hfind0.
      injection Hfind0 as <-. specialize (Hdeps Hrunning).
      split.
      * now exists info.
      * exists info'. rewrite find_set_eq, Hfind. split; [reflexivity|].
        rewrite Hcfg. eapply List.Forall_impl; [|exact Hdeps].
        intros dep (it & Hit & Hst).
        destruct (String.eqb_spec name dep) as [<-|Hdep].
        -- exists info'. rewrite find_set_eq, Hfind. now split.
        -- exists it. now rewrite find_set_ne.
    + exfalso. apply Hbefore.
      destruct Hafter as (info0 & Hfind0 & Hrunning).
      rewrite find_set_ne in Hfind0 by assumption. now exists info0.
  - exfalso. destruct Hafter as (info0 & Hfind0 & Hrunning).
    destruct (String.eqb_spec added name) as [->|Hne].
    + rewrite find_insert_eq in Hfind0. congruence.
    + rewrite find_insert_ne in Hfind0 by assumption.
      apply Hbefore. now exists info0.
  - destruct Hafter as (info0 & Hfind0 & _). discriminate.
Qed.

(** A change of the table leaves the restart counter and the configuration
    of every record that is there before and after as they were. *)
Lemma table_change_restart_count ps ps' name info info' :
  table_change ps ps' ->
  StrMap.find name ps = Some info -> StrMap.find name ps' = Some info' ->
  restart_count info' = restart_count info /\ config info' = config info.
Proof.
  intros [->|changed info0 info0' Hfind -> Hcfg Hcount _
         | added info0' Hfresh -> _ _ | -> ] Hbefore Hafter.
  - split; congruence.
  - destruct (String.eqb_spec changed name) as [->|Hne].
    + rewrite find_set_eq, Hfind in Hafter. simpl in Hafter.
      split; congruence.
    + rewrite find_set_ne in Hafter by assumption. split; congruence.
  - destruct (String.eqb_spec added name) as [->|Hne].
    + congruence.
    + rewrite find_insert_ne in Hafter by assumption. split; congruence.
  - discriminate.
Qed.

(** Every transition is safe. *)
Lemma step_safe os s s' : step os s s' -> safe_step os s s'.
Proof.
  intros Hstep. split; [assumption|].
  intros name [Hbefore Hafter].
  apply (table_change_running _ _ name (step_table_change os s s' Hstep));
    assumption.
Qed.

(* ================================================================== *)
(** ** Every operation is a sequence of safe transitions *)

Section Sequences.

Context (os : OS).

Create HintDb steps.
Local Hint Resolve step_safe : steps.
Local Hint Constructors step : steps.

Lemma bind_steps {A B : Type} (r : Run A) (k : A -> ProcessManager -> Run B) s :
  rtc (safe_step os) s (state_of r) ->
  (forall a s1, rtc (safe_step os) s1 (state_of (k a s1))) ->
  rtc (safe_step os) s (state_of (bind r k)).
Proof.
  intros Hr Hk. destruct r as [a s1|why s1]; simpl in *; [|assumption].
  etrans; [exact Hr | apply Hk].
Qed.

Lemma locked_steps {A : Type} (body : ProcessManager -> Run A) s :
  (forall s0, rtc (safe_step os) s0 (state_of (body s0))) ->
  rtc (safe_step os) s (state_of (locked body s)).
Proof.
  intros Hbody. unfold locked.
  destruct (manager_mutex s); [reflexivity|].
  eapply rtc_l; [apply step_safe, (step_set_mutex os true)|].
  specialize (Hbody (set_mutex true s)).
  destruct (body (set_mutex true s)) as [a s1|why s1]; simpl in *; [|assumption].
  etrans; [exact Hbody | apply rtc_once; auto with steps].
Qed.

Lemma for_each_steps {A B : Type} (body : A -> B -> ProcessManager -> Run A)
    (items : list B) a s :
  (forall a item s0, rtc (safe_step os) s0 (state_of (body a item s0))) ->
  rtc (safe_step os) s (state_of (for_each body items a s)).
Proof.
  intros Hbody. revert a s.
  induction items as [|item items IH]; intros a s; simpl; [reflexivity|].
  apply bind_steps; [apply Hbody | apply IH].
Qed.

Lemma register_process_steps cfg s :
  rtc (safe_step os) s (state_of (register_process os cfg s)).
Proof. apply locked_steps. intros s0. apply rtc_once. simpl. auto with steps. Qed.

Lemma start_process_steps name s :
  rtc (safe_step os) s (state_of (start_process os name s)).
Proof. apply locked_steps. intros s0. apply rtc_once. simpl. auto with steps. Qed.

Lemma stop_process_steps name force s :
  rtc (safe_step os) s (state_of (stop_process name force s)).
Proof. apply locked_steps. intros s0. apply rtc_once. auto with steps. Qed.

Lemma restart_process_steps name s :
  rtc (safe_step os) s (state_of (restart_process os name s)).
Proof.
  unfold restart_process.
  apply bind_steps; [apply stop_process_steps | intros _; apply start_process_steps].
Qed.

Lemma handle_process_crash_steps name s :
  rtc (safe_step os) s (state_of (handle_process_crash os name s)).
Proof.
  unfold handle_process_crash.
  eapply rtc_l; [apply step_safe, (step_mark_crashed os name)|].
  destruct (StrMap.find name (processes (mark_crashed name s))) as [info|];
    [|reflexivity].
  destruct (auto_restart (config info)
            && (restart_count info <? max_restart_attempts (config info)));
    [|reflexivity].
  apply bind_steps; [apply restart_process_steps | reflexivity].
Qed.

Lemma monitor_iteration_steps name waitpid_result s :
  rtc (safe_step os) s (state_of (monitor_iteration os name waitpid_result s)).
Proof.
  apply locked_steps. intros s0.
  destruct (StrMap.find name (processes s0)) as [info|]; [|reflexivity].
  destruct (negb (waitpid_result =? 0)).
  { apply bind_steps; [apply handle_process_crash_steps | reflexivity]. }
  destruct (enable_heartbeat (config info)); [|reflexivity].
  cbv zeta.
  destruct (Z.ltb _ _).
  - eapply rtc_l; [apply step_safe, step_read_clock|].
    apply bind_steps; [apply handle_process_crash_steps | reflexivity].
  - apply rtc_once, step_safe, step_read_clock.
Qed.

Lemma start_all_visit_steps progress name s :
  rtc (safe_step os) s (state_of (start_all_visit os progress name s)).
Proof.
  unfold start_all_visit.
  destruct (StrMap.find name (processes s)) as [info|]; [|reflexivity].
  destruct (ProcessState_eqb (state info) CREATED); [|reflexivity].
  destruct (check_dependencies_ready (config info) s); [|reflexivity].
  apply bind_steps; [apply start_process_steps | reflexivity].
Qed.

Lemma start_all_pass_steps s :
  rtc (safe_step os) s (state_of (start_all_pass os s)).
Proof. apply for_each_steps. intros. apply start_all_visit_steps. Qed.

Lemma start_all_loop_steps fuel s r :
  start_all_loop os fuel s = Some r -> rtc (safe_step os) s (state_of r).
Proof.
  revert s. induction fuel as [|fuel IH]; intros s; simpl; [discriminate|].
  pose proof (start_all_pass_steps s) as Hpass.
  destruct (start_all_pass os s) as [[|] s1|why s1]; simpl in Hpass.
  - intros Hloop. etrans; [exact Hpass | now apply IH].
  - now intros [= <-].
  - now intros [= <-].
Qed.

Lemma start_all_steps s : rtc (safe_step os) s (state_of (start_all os s)).
Proof.
  unfold start_all.
  destruct (start_all_loop os _ s) as [r|] eqn:Hloop; simpl; [|reflexivity].
  now apply (start_all_loop_steps _ _ _ Hloop).
Qed.

Lemma stop_all_steps s : rtc (safe_step os) s (state_of (stop_all s)).
Proof.
  apply for_each_steps. intros [] name s0. unfold stop_all_visit.
  destruct (StrMap.find name (processes s0)) as [info|]; [|reflexivity].
  destruct (ProcessState_eqb (state info) RUNNING); [|reflexivity].
  apply bind_steps; [apply stop_process_steps | reflexivity].
Qed.

Lemma shutdown_steps s : rtc (safe_step os) s (state_of (shutdown s)).
Proof.
  unfold shutdown.
  eapply rtc_l; [apply step_safe, (step_set_running os false)|].
  apply bind_steps; [apply stop_all_steps|].
  intros _ s1. simpl.
  eapply rtc_l; [apply step_safe, step_close_channels|].
  apply rtc_once, step_safe, step_clear_tables.
Qed.

Lemma exec_steps op s : rtc (safe_step os) s (exec os op s).
Proof.
  destruct op; simpl.
  - apply register_process_steps.
  - apply start_process_steps.
  - apply stop_process_steps.
  - apply restart_process_steps.
  - apply start_all_steps.
  - apply stop_all_steps.
  - unfold run_startup.
    eapply rtc_l; [apply step_safe, (step_set_running os true)|].
    apply start_all_steps.
  - apply shutdown_steps.
  - apply monitor_iteration_steps.
Qed.

End Sequences.

(* ================================================================== *)
(** ** The loop of [start_all] ends *)

Lemma created_count_le_length (ps : list (string * ProcessInfo)) :
  (created_count ps <= List.length ps)%nat.
Proof. unfold created_count. apply List.filter_length_le. Qed.

(** Overwriting a record with one that is not [CREATED] does not add to
    the count of [CREATED] processes. *)
Lemma created_count_set_le ps name info' :
  state info' <> CREATED ->
  (created_count (StrMap.set name info' ps) <= created_count ps)%nat.
Proof.
  intros Hstate. unfold created_count.
  induction ps as [|[k v] ps IH]; simpl; [lia|].
  destruct (String.eqb name k); simpl.
  - destruct (ProcessState_eqb (state info') CREATED) eqn:Heq.
    + now apply ProcessState_eqb_eq in Heq.
    + destruct (ProcessState_eqb (state v) CREATED); simpl; lia.
  - destruct (ProcessState_eqb (state v) CREATED); simpl; lia.
Qed.

(** And it takes one away when the record was [CREATED]. *)
Lemma created_count_set_lt ps name info info' :
  StrMap.find name ps = Some info ->
  state info = CREATED ->
  state info' <> CREATED ->
  (created_count (StrMap.set name info' ps) < created_count ps)%nat.
Proof.
  intros Hfind Hcreated Hstate.
  induction ps as [|[k v] ps IH]; simpl in *; [discriminate|].
  pose proof (created_count_set_le ps name info' Hstate) as Hle.
  unfold created_count in *. simpl.
  destruct (String.eqb name k); simpl.
  - injection Hfind as ->. rewrite Hcreated. simpl.
    destruct (ProcessState_eqb (state info') CREATED) eqn:Heq.
    + now apply ProcessState_eqb_eq in Heq.
    + lia.
  - specialize (IH Hfind).
    destruct (ProcessState_eqb (state v) CREATED); simpl; lia.
Qed.

Section StartAll.

Context (os : OS).

(** What one turn of the range-for of [start_all] does: nothing; or it
    starts a process, sets [progress] and takes the process out of
    [CREATED]; or, the mutex being held, it stops at the lock. *)
Lemma start_all_visit_outcome progress name s :
  start_all_visit os progress name s = Ret progress s \/
  (exists s',
     start_all_visit os progress name s = Ret true s' /\
     manager_mutex s = false /\ manager_mutex s' = false /\
     (created_count (processes s') < created_count (processes s))%nat) \/
  (manager_mutex s = true /\
   start_all_visit os progress name s = Stop Deadlock s).
Proof.
  unfold start_all_visit.
  destruct (StrMap.find name (processes s)) as [info|] eqn:Hfind; [|now left].
  destruct (ProcessState_eqb (state info) CREATED) eqn:Hcreated; [|now left].
  destruct (check_dependencies_ready (config info) s) eqn:Hdeps; [|now left].
  right. apply ProcessState_eqb_eq in Hcreated.
  destruct (manager_mutex s) eqn:Hmutex.
  - right. split; [reflexivity|]. unfold start_process. now rewrite locked_held.
  - left.
    destruct (start_process_spawns os name s info Hfind Hdeps Hmutex)
      as (ok & s' & info' & -> & Hfree & Hps & _ & _ & _ & _ & _ & _ & Hstate).
    exists s'. split_and!; [reflexivity | reflexivity | assumption |].
    rewrite Hps. apply (created_count_set_lt _ name info info'); [assumption..|].
    destruct Hstate as [(_ & -> & _)|(_ & -> & _)]; discriminate.
Qed.

(** The same for the rest of a pass. *)
Lemma start_all_fold_outcome names progress s :
  for_each (start_all_visit os) names progress s = Ret progress s \/
  (exists s',
     for_each (start_all_visit os) names progress s = Ret true s' /\
     manager_mutex s = false /\ manager_mutex s' = false /\
     (created_count (processes s') < created_count (processes s))%nat) \/
  (manager_mutex s = true /\
   for_each (start_all_visit os) names progress s = Stop Deadlock s).
Proof.
  revert progress s.
  induction names as [|name names IH]; intros progress s; simpl; [now left|].
  destruct (start_all_visit_outcome progress name s)
    as [->|[(s1 & -> & Hfree & Hfree1 & Hlt)|[Hheld ->]]]; simpl.
  - apply IH.
  - right. left.
    destruct (IH true s1) as [->|[(s2 & -> & _ & Hfree2 & Hlt2)|[Hheld _]]].
    + exists s1. now split_and!.
    + exists s2. split_and!; [reflexivity | assumption | assumption | lia].
    + congruence.
  - right. right. now split.
Qed.

(** A pass either changes nothing and reports no progress, or reports
    progress and leaves fewer [CREATED] processes, or stops at the lock. *)
Lemma start_all_pass_outcome s :
  start_all_pass os s = Ret false s \/
  (exists s',
     start_all_pass os s = Ret true s' /\
     manager_mutex s = false /\ manager_mutex s' = false /\
     (created_count (processes s') < created_count (processes s))%nat) \/
  (manager_mutex s = true /\ start_all_pass os s = Stop Deadlock s).
Proof. apply start_all_fold_outcome. Qed.

(** With enough fuel the loop ends: it returns from a manager where a
    further pass finds nothing to start, or it stops at the lock. *)
Lemma start_all_loop_fuel fuel s :
  (created_count (processes s) < fuel)%nat ->
  (exists s', start_all_loop os fuel s = Some (Ret tt s') /\
     manager_mutex s' = manager_mutex s /\ start_all_pass os s' = Ret false s') \/
  (manager_mutex s = true /\ start_all_loop os fuel s = Some (Stop Deadlock s)).
Proof.
  revert s. induction fuel as [|fuel IH]; intros s Hfuel; [lia|]. simpl.
  destruct (start_all_pass_outcome s)
    as [Hsame|[(s1 & Hpass & Hfree & Hfree1 & Hlt)|[Hheld Hpass]]].
  - rewrite Hsame. left. now exists s.
  - rewrite Hpass.
    destruct (IH s1) as [(s' & Hloop & Hmutex & Hsettled)|[Hheld _]];
      [lia| |congruence].
    left. exists s'. split_and!; [assumption | congruence | assumption].
  - rewrite Hpass. right. now split.
Qed.

(** [start_all] never runs out of passes. *)
Lemma start_all_loop_returns s :
  start_all_loop os (S (List.length (processes s))) s = Some (start_all os s).
Proof.
  unfold start_all.
  destruct (start_all_loop_fuel (S (List.length (processes s))) s)
    as [(s' & -> & _)|[_ ->]]; [|reflexivity..].
  pose proof (created_count_le_length (processes s)). lia.
Qed.

(** With the mutex free [start_all] returns, and a further pass finds
    nothing to start. *)
Lemma start_all_free s :
  manager_mutex s = false ->
  exists s', start_all os s = Ret tt s' /\ manager_mutex s' = false /\
    start_all_pass os s' = Ret false s'.
Proof.
  intros Hfree. unfold start_all.
  destruct (start_all_loop_fuel (S (List.length (processes s))) s)
    as [(s' & -> & Hmutex & Hpass)|[Hheld _]]; [|  |congruence].
  - pose proof (created_count_le_length (processes s)). lia.
  - exists s'. split_and!; [reflexivity | congruence | assumption].
Qed.

End StartAll.

(* ================================================================== *)
(** ** Restarting *)

(** [stop_process] on a record that holds the identifier of a child. *)
Lemma stop_process_stops name force s info :
  StrMap.find name (processes s) = Some info ->
  manager_mutex s = false ->
  pid info <> 0 ->
  exists s1,
    stop_process name force s = Ret true s1 /\
    manager_mutex s1 = false /\
    processes s1 =
      StrMap.set name
        {| config := config info; state := STOPPED;
           platform_handle := 0; pid := 0;
           start_time := start_time info; last_heartbeat := last_heartbeat info;
           restart_count := restart_count info; last_error := last_error info |}
        (processes s) /\
    syscalls s1 =
      (syscalls s ++
         if force then [sys_kill (pid info) SIGKILL]
         else [sys_kill (pid info) SIGTERM; sys_kill (pid info) SIGKILL])%list /\
    forks s1 = forks s /\ channels s1 = channels s /\ running s1 = running s.
Proof.
  intros Hfind Hfree Hpid. rewrite (stop_process_free name force s Hfree).
  destruct (stop_process_locked_outcome name force s)
    as [[Hnone _]|[(info0 & Hfind0 & _ & ->)|(info0 & Hfind0 & Hzero & _)]];
    [congruence| |congruence].
  assert (info0 = info) as -> by congruence.
  eexists. split_and!; reflexivity || assumption.
Qed.

(** [stop_process] on a record that holds no identifier: the signal goes
    to the process group of the manager, and the call does not return. *)
Lemma stop_process_self_signal name force s info :
  StrMap.find name (processes s) = Some info ->
  manager_mutex s = false ->
  pid info = 0 ->
  stop_process name force s =
    Stop SelfSignalled
      (set_mutex true
         (put name (set_state STOPPING info)
            (emit [sys_kill 0 (if force then SIGKILL else SIGTERM)] s))).
Proof.
  intros Hfind Hfree Hpid. rewrite (stop_process_free name force s Hfree).
  destruct (stop_process_locked_outcome name force s)
    as [[Hnone _]|[(info0 & Hfind0 & Hne & _)|(info0 & Hfind0 & _ & ->)]];
    congruence.
Qed.

Lemma start_process_locked_syscalls os name s :
  syscalls (snd (start_process_locked os name s)) = syscalls s.
Proof.
  destruct (StrMap.find name (processes s)) as [info|] eqn:Hfind;
    [|now rewrite start_process_locked_unknown].
  destruct (check_dependencies_ready (config info) s) eqn:Hdeps;
    [|now rewrite (start_process_locked_not_ready os name s info)].
  now destruct (start_process_locked_spawns os name s info Hfind Hdeps)
    as (_ & _ & _ & ? & _).
Qed.

(** C1.  [restart_process] leaves the restart counter of the record as it
    was: the counter is not incremented, whether the call returns or not.
    On a registered process whose record holds the identifier of a child,
    and with the mutex free, it sends SIGTERM and then SIGKILL to that
    child and goes on to [start_process], which returns without another
    signal. *)
Theorem restart_process_keeps_restart_count os name s info :
  StrMap.find name (processes s) = Some info ->
  (exists info',
     StrMap.find name (processes (state_of (restart_process os name s))) = Some info' /\
     restart_count info' = restart_count info) /\
  (manager_mutex s = false -> pid info <> 0 ->
   exists s1 ok s2,
     stop_process name false s = Ret true s1 /\
     syscalls s1 =
       (syscalls s ++ [sys_kill (pid info) SIGTERM; sys_kill (pid info) SIGKILL])%list /\
     restart_process os name s = start_process os name s1 /\
     start_process os name s1 = Ret ok s2 /\
     syscalls s2 = syscalls s1).
Proof.
  intros Hfind.
  assert (manager_mutex s = false -> pid info <> 0 ->
          exists s1 ok s2 info2,
            stop_process name false s = Ret true s1 /\
            syscalls s1 =
              (syscalls s ++
                 [sys_kill (pid info) SIGTERM; sys_kill (pid info) SIGKILL])%list /\
            start_process os name s1 = Ret ok s2 /\
            syscalls s2 = syscalls s1 /\
            StrMap.find name (processes s2) = Some info2 /\
            restart_count info2 = restart_count info) as Hreturns.
  { intros Hfree Hpid.
    destruct (stop_process_stops name false s info Hfind Hfree Hpid)
      as (s1 & Hstop & Hfree1 & Hps1 & Hsys1 & _).
    assert (exists info1, StrMap.find name (processes s1) = Some info1 /\
              restart_count info1 = restart_count info) as (info1 & Hfind1 & Hcount1).
    { eexists. rewrite Hps1, find_set_eq, Hfind. split; reflexivity. }
    exists s1, (fst (start_process_locked os name s1)),
      (snd (start_process_locked os name s1)).
    destruct (start_process_locked_outcome os name s1)
      as [Hsame|(i1 & info2 & Hi1 & _ & Hps2 & _ & Hcount2 & _)].
    - exists info1. rewrite (start_process_free os name s1 Hfree1), Hsame. simpl.
      now split_and!.
    - assert (i1 = info1) as -> by congruence.
      exists info2. rewrite (start_process_free os name s1 Hfree1).
      split_and!; [assumption | assumption | reflexivity | | | congruence].
      + apply start_process_locked_syscalls.
      + rewrite Hps2, find_set_eq, Hfind1. reflexivity. }
  split.
  - unfold restart_process.
    destruct (manager_mutex s) eqn:Hmutex.
    { unfold stop_process. rewrite locked_held by assumption. simpl.
      now exists info. }
    destruct (Z.eq_dec (pid info) 0) as [Hzero|Hpid].
    + rewrite (stop_process_self_signal name false s info Hfind Hmutex Hzero). simpl.
      eexists. rewrite find_set_eq, Hfind. split; reflexivity.
    + destruct (Hreturns eq_refl Hpid)
        as (s1 & ok & s2 & info2 & -> & _ & Hstart & _ & Hfind2 & Hcount2).
      simpl. rewrite Hstart. simpl. now exists info2.
  - intros Hfree Hpid.
    destruct (Hreturns Hfree Hpid)
      as (s1 & ok & s2 & info2 & Hstop & Hsys1 & Hstart & Hsys2 & _).
    exists s1, ok, s2. split_and!; try assumption.
    unfold restart_process. now rewrite Hstop.
Qed.

Lemma restart_process_keeps_restart_count_witness :
  exists info',
    StrMap.find "X"
      (processes (state_of (restart_process Sample.os_ok "X" Sample.running_X)))
      = Some info' /\
    restart_count info' = 0.
Proof.
  destruct (restart_process_keeps_restart_count Sample.os_ok "X" Sample.running_X
              Sample.info_X)
    as ((info' & Hfind & Hcount) & _).
  - reflexivity.
  - exists info'. split; [exact Hfind | exact Hcount].
Defined.

(** The crash scenario: X, registered with [auto_restart] and two restart
    attempts, is started and exits.  Its monitor marks it [CRASHED] and
    stops at the lock of [stop_process], holding the mutex: no signal is
    sent, no second [fork] is made, and the restart counter is zero. *)
Example first_crash_stops_at_the_lock :
  exists s',
    monitor_iteration Sample.os_ok "X" 1 Sample.running_X = Stop Deadlock s' /\
    manager_mutex s' = true /\
    option_map (fun info => (state info, restart_count info))
      (StrMap.find "X" (processes s')) = Some (CRASHED, 0) /\
    forks s' = 1%nat /\ syscalls s' = [].
Proof. eexists. split_and!; reflexivity. Qed.

Lemma table_change_restart_counts_zero ps ps' :
  table_change ps ps' -> restart_counts_zero ps -> restart_counts_zero ps'.
Proof.
  intros [->|changed info info' Hfind -> _ Hcount _
         | added info' Hfresh -> _ Hcount | -> ] Hzero name it Hit.
  - now apply (Hzero name).
  - destruct (String.eqb_spec changed name) as [->|Hne].
    + rewrite find_set_eq, Hfind in Hit. injection Hit as <-.
      rewrite Hcount. now apply (Hzero name).
    + rewrite find_set_ne in Hit by assumption. now apply (Hzero name).
  - destruct (String.eqb_spec added name) as [->|Hne].
    + rewrite find_insert_eq in Hit. congruence.
    + rewrite find_insert_ne in Hit by assumption. now apply (Hzero name).
  - discriminate.
Qed.

Lemma steps_restart_counts_zero os s s' :
  rtc (safe_step os) s s' ->
  restart_counts_zero (processes s) -> restart_counts_zero (processes s').
Proof.
  induction 1 as [|s0 s1 s2 [Hstep _] _ IH]; [done|].
  intros Hzero. apply IH.
  eapply table_change_restart_counts_zero; [|exact Hzero].
  now apply (step_table_change os).
Qed.

(** What holds of a fresh manager and is kept by every operation holds
    in every reachable state. *)
Lemma reachable_ind os (P : ProcessManager -> Prop) :
  P ProcessManager_new ->
  (forall op s, P s -> P (exec os op s)) ->
  forall s, reachable os s -> P s.
Proof.
  intros Hnew Hexec s [ops ->].
  assert (forall s0, P s0 -> P (fold_left (fun s op => exec os op s) ops s0)) as Hfold.
  { induction ops as [|op ops IH]; intros s0 Hs0; simpl; [assumption|].
    apply IH, Hexec, Hs0. }
  now apply Hfold.
Qed.

(** No sequence of operations ever makes a restart counter differ from
    zero. *)
Lemma reachable_restart_counts_zero os s :
  reachable os s -> restart_counts_zero (processes s).
Proof.
  apply (reachable_ind os (fun s => restart_counts_zero (processes s))).
  - intros name info Hfind. discriminate.
  - intros op s0 Hzero.
    eapply steps_restart_counts_zero; [apply exec_steps | exact Hzero].
Qed.

(* ================================================================== *)
(** ** Registration *)

(** C2, as stated, fails: a configuration that depends on a process nobody
    registered is accepted, and its record is added to the table. *)
Lemma register_process_accepts_unknown_dependency :
  In "ghost" (depends_on (Sample.cfg "B" ["ghost"])) /\
  StrMap.find "ghost" (processes ProcessManager_new) = None /\
  register_process Sample.os_ok (Sample.cfg "B" ["ghost"]) ProcessManager_new
    = Ret true Sample.created_B_needs_ghost /\
  option_map state (StrMap.find "B" (processes Sample.created_B_needs_ghost))
    = Some CREATED.
Proof. split_and!; [now left | reflexivity..]. Qed.

(** C2, amended.  [register_process] does not look at [depends_on]: for a
    name that is not registered yet it returns [true] and adds the record,
    in state [CREATED], whatever the configuration depends on.  A
    dependency that is not registered shows when the process is started:
    [start_process] then returns [false] and changes nothing. *)
Theorem register_process_ignores_depends_on os cfg s :
  StrMap.find (name cfg) (processes s) = None ->
  manager_mutex s = false ->
  exists s',
    register_process os cfg s = Ret true s' /\
    (exists info,
       StrMap.find (name cfg) (processes s') = Some info /\
       config info = cfg /\ state info = CREATED) /\
    (forall dep,
       In dep (depends_on cfg) -> StrMap.find dep (processes s) = None ->
       start_process os (name cfg) s' = Ret false s').
Proof.
  intros Hfresh Hfree.
  destruct (register_process_fresh os cfg s Hfresh Hfree) as (s' & Hok & Hfree' & Hps).
  exists s'. split_and!; [exact Hok | |].
  - eexists. rewrite Hps, find_insert_eq. now split_and!.
  - intros dep Hin Hunknown.
    eapply start_process_not_ready;
      [rewrite Hps; apply find_insert_eq | | assumption]. simpl.
    unfold check_dependencies_ready.
    destruct (forallb _ (depends_on cfg)) eqn:Hready; [|reflexivity].
    rewrite forallb_forall in Hready. specialize (Hready dep Hin).
    rewrite Hps in Hready.
    destruct (String.eqb_spec (name cfg) dep) as [<-|Hne].
    + rewrite find_insert_eq in Hready. discriminate.
    + rewrite find_insert_ne, Hunknown in Hready by assumption. discriminate.
Qed.

Lemma register_process_ignores_depends_on_witness :
  exists s',
    register_process Sample.os_ok (Sample.cfg "B" ["ghost"]) ProcessManager_new
      = Ret true s' /\
    start_process Sample.os_ok "B" s' = Ret false s'.
Proof.
  destruct (register_process_ignores_depends_on Sample.os_ok
              (Sample.cfg "B" ["ghost"]) ProcessManager_new)
    as (s' & Hok & _ & Hstart).
  - reflexivity.
  - reflexivity.
  - exists s'. split; [exact Hok|]. apply (Hstart "ghost"); [now left | reflexivity].
Defined.

(* ================================================================== *)
(** ** Starting *)

(** C5, as stated, fails: X is [RUNNING] with child 100, and
    [start_process] succeeds again, forks once more, and replaces the
    child by 101. *)
Lemma start_process_running_spawns_again :
  get_process_state "X" Sample.running_X = Ret RUNNING Sample.running_X /\
  option_map pid (StrMap.find "X" (processes Sample.running_X)) = Some 100 /\
  exists s',
    start_process Sample.os_ok "X" Sample.running_X = Ret true s' /\
    forks s' = S (forks Sample.running_X) /\
    option_map pid (StrMap.find "X" (processes s')) = Some 101.
Proof. split_and!; [reflexivity.. |]. eexists. split_and!; reflexivity. Qed.

(** C5, amended.  [start_process] does not look at the state of the
    process.  It returns [false] without calling [fork] when the name is
    not registered or when a dependency is not [RUNNING].  Otherwise it
    calls [fork] once, whatever the state: when [fork] succeeds it returns
    [true] and the record is [RUNNING] with the new child; when [fork]
    fails it returns [false] and the record is [CRASHED]. *)
Theorem start_process_ignores_state os name s :
  manager_mutex s = false ->
  (StrMap.find name (processes s) = None ->
     start_process os name s = Ret false s) /\
  (forall info,
     StrMap.find name (processes s) = Some info ->
     check_dependencies_ready (config info) s = false ->
     start_process os name s = Ret false s) /\
  (forall info child,
     StrMap.find name (processes s) = Some info ->
     check_dependencies_ready (config info) s = true ->
     os_fork os (forks s) = Some child ->
     exists s' info',
       start_process os name s = Ret true s' /\
       forks s' = S (forks s) /\
       StrMap.find name (processes s') = Some info' /\
       state info' = RUNNING /\ pid info' = Z.pos child) /\
  (forall info,
     StrMap.find name (processes s) = Some info ->
     check_dependencies_ready (config info) s = true ->
     os_fork os (forks s) = None ->
     exists s' info',
       start_process os name s = Ret false s' /\
       forks s' = S (forks s) /\
       StrMap.find name (processes s') = Some info' /\
       state info' = CRASHED).
Proof.
  intros Hfree. split_and!.
  - intros Hfind. now apply start_process_unknown.
  - intros info Hfind Hdeps. now apply (start_process_not_ready os name s info).
  - intros info child Hfind Hdeps Hfork.
    destruct (start_process_spawns os name s info Hfind Hdeps Hfree)
      as (ok & s' & info' & Hstart & _ & Hps & Hforks & _ & _ & _ & _ & _
          & [(-> & Hstate & child' & Hfork' & Hpid)|(_ & _ & Hfork')]);
      [|congruence].
    exists s', info'. split_and!; [exact Hstart | exact Hforks | | exact Hstate |].
    + rewrite Hps, find_set_eq, Hfind. reflexivity.
    + congruence.
  - intros info Hfind Hdeps Hfork.
    destruct (start_process_spawns os name s info Hfind Hdeps Hfree)
      as (ok & s' & info' & Hstart & _ & Hps & Hforks & _ & _ & _ & _ & _
          & [(_ & _ & child' & Hfork' & _)|(-> & Hstate & _)]);
      [congruence|].
    exists s', info'. split_and!; [exact Hstart | exact Hforks | | exact Hstate].
    rewrite Hps, find_set_eq, Hfind. reflexivity.
Qed.

Lemma start_process_ignores_state_witness :
  get_process_state "X" Sample.running_X = Ret RUNNING Sample.running_X /\
  exists s',
    start_process Sample.os_ok "X" Sample.running_X = Ret true s' /\
    forks s' = 2%nat.
Proof.
  split; [reflexivity|].
  destruct (start_process_ignores_state Sample.os_ok "X" Sample.running_X)
    as (_ & _ & Hspawn & _); [reflexivity|].
  destruct (Hspawn Sample.info_X 101%positive)
    as (s' & info' & Hstart & Hforks & _); [reflexivity..|].
  exists s'. split; [exact Hstart | exact Hforks].
Defined.

(* ================================================================== *)
(** ** Dependencies *)

(** C6.  In no transition of the manager does a process enter [RUNNING]
    unless every process named in its [depends_on] is [RUNNING], before
    the transition and after it; every operation of the manager and of
    its monitors, [start_all] among them, is a sequence of such
    transitions, whether it returns or not; and [start_process] refuses,
    without spawning or changing anything, while a dependency is missing
    or not [RUNNING]. *)
Theorem no_running_before_dependencies os :
  (forall s s' name,
     step os s s' -> enters_running name s s' ->
     dependencies_running name s /\ dependencies_running name s') /\
  (forall op s, rtc (safe_step os) s (exec os op s)) /\
  (forall name s info,
     StrMap.find name (processes s) = Some info ->
     ~ Forall (fun dep => is_running dep s) (depends_on (config info)) ->
     start_process os name s
       = if manager_mutex s then Stop Deadlock s else Ret false s).
Proof.
  split_and!.
  - intros s s' name Hstep Henters. now apply (step_safe os s s' Hstep).
  - apply exec_steps.
  - intros name s info Hfind Hdeps.
    destruct (manager_mutex s) eqn:Hmutex.
    { unfold start_process. now apply locked_held. }
    apply (start_process_not_ready os name s info Hfind); [|assumption].
    destruct (check_dependencies_ready (config info) s) eqn:Hready; [|reflexivity].
    exfalso. apply Hdeps. now apply check_dependencies_ready_iff.
Qed.

Lemma no_running_before_dependencies_witness :
  enters_running "B" Sample.running_A_created_B
    (snd (start_process_locked Sample.os_ok "B" Sample.running_A_created_B)) /\
  dependencies_running "B"
    (snd (start_process_locked Sample.os_ok "B" Sample.running_A_created_B)).
Proof.
  assert (enters_running "B" Sample.running_A_created_B
            (snd (start_process_locked Sample.os_ok "B" Sample.running_A_created_B)))
    as Henters.
  { split.
    - intros (info & Hfind & Hstate). vm_compute in Hfind.
      injection Hfind as <-. discriminate Hstate.
    - eexists. split; reflexivity. }
  split; [exact Henters|].
  apply (proj1 (no_running_before_dependencies Sample.os_ok)
           Sample.running_A_created_B _ "B" (step_start _ "B" _) Henters).
Defined.

(* ================================================================== *)
(** ** Accessors *)

(** With the mutex free, [get_process_state] returns the state of the
    record, [STOPPED] if there is none, and changes nothing. *)
Lemma get_process_state_free name s :
  manager_mutex s = false ->
  get_process_state name s =
    Ret (match StrMap.find name (processes s) with
         | Some it => state it
         | None => STOPPED
         end) s.
Proof.
  intros Hfree. unfold get_process_state, locked. rewrite Hfree. simpl.
  f_equal. destruct s; simpl in *; subst; reflexivity.
Qed.

(** And [get_all_processes] returns the records in the order of their
    names. *)
Lemma get_all_processes_free s :
  manager_mutex s = false ->
  get_all_processes s = Ret (map snd (processes s)) s.
Proof.
  intros Hfree. unfold get_all_processes, locked. rewrite Hfree. simpl.
  f_equal. destruct s; simpl in *; subst; reflexivity.
Qed.

(* ================================================================== *)
(** ** Stopping everything *)

(** One turn of the range-for of [stop_all], with the mutex free, in a
    table whose [RUNNING] records hold the identifier of a child: the turn
    returns, the process it visits is not [RUNNING] afterwards, and
    nothing else changes. *)
Lemma stop_all_visit_outcome name s :
  manager_mutex s = false ->
  running_have_pid (processes s) ->
  exists s',
    stop_all_visit tt name s = Ret tt s' /\
    manager_mutex s' = false /\
    ~ is_running name s' /\
    (forall n, n <> name ->
       StrMap.find n (processes s') = StrMap.find n (processes s)) /\
    (forall n info, StrMap.find n (processes s) = Some info -> state info <> RUNNING ->
       StrMap.find n (processes s') = Some info) /\
    (forall info, StrMap.find name (processes s) = Some info -> state info = RUNNING ->
       exists info', StrMap.find name (processes s') = Some info' /\
         state info' = STOPPED) /\
    forks s' = forks s /\ running s' = running s /\ channels s' = channels s.
Proof.
  intros Hfree Hpids. unfold stop_all_visit.
  destruct (StrMap.find name (processes s)) as [info|] eqn:Hfind.
  - destruct (ProcessState_eqb (state info) RUNNING) eqn:Hstate.
    + apply ProcessState_eqb_eq in Hstate.
      destruct (stop_process_stops name false s info Hfind Hfree
                  (Hpids name info Hfind Hstate))
        as (s1 & -> & Hfree1 & Hps & _ & Hforks & Hchan & Hrun).
      exists s1. simpl. split_and!; try done.
      * intros (it & Hit & Hrunning).
        rewrite Hps, find_set_eq, Hfind in Hit.
        injection Hit as <-. discriminate Hrunning.
      * intros n Hne. rewrite Hps. now apply find_set_ne.
      * intros n it Hit Hnot. rewrite Hps.
        destruct (String.eqb_spec name n) as [<-|Hne].
        -- congruence.
        -- now rewrite find_set_ne.
      * intros it _ _. eexists. rewrite Hps, find_set_eq, Hfind. split; reflexivity.
    + exists s. split_and!; try done.
      * intros (it & Hit & Hrunning).
        apply ProcessState_eqb_eq in Hrunning. congruence.
      * intros it [= <-] Hrunning.
        apply ProcessState_eqb_eq in Hrunning. congruence.
  - exists s. split_and!; try done.
    intros (it & Hit & _). congruence.
Qed.

Lemma stop_all_fold names s :
  manager_mutex s = false ->
  running_have_pid (processes s) ->
  exists s',
    for_each stop_all_visit names tt s = Ret tt s' /\
    manager_mutex s' = false /\
    (forall n info, StrMap.find n (processes s) = Some info -> state info <> RUNNING ->
       StrMap.find n (processes s') = Some info) /\
    (forall n, is_running n s' -> is_running n s /\ ~ In n names) /\
    (forall n info, StrMap.find n (processes s) = Some info -> state info = RUNNING ->
       In n names ->
       exists info', StrMap.find n (processes s') = Some info' /\
         state info' = STOPPED) /\
    forks s' = forks s /\ running s' = running s /\ channels s' = channels s.
Proof.
  revert s. induction names as [|name names IH]; intros s Hfree Hpids; simpl.
  - exists s. split_and!; try done. intros n Hn. split; [assumption | tauto].
  - destruct (stop_all_visit_outcome name s Hfree Hpids)
      as (s1 & -> & Hfree1 & Hstopped & Hothers & Hkept & Hnow & Hforks & Hrun & Hchan).
    simpl.
    assert (running_have_pid (processes s1)) as Hpids1.
    { intros n it Hit Hrunning.
      destruct (String.eqb_spec n name) as [->|Hne].
      - exfalso. apply Hstopped. now exists it.
      - rewrite Hothers in Hit by assumption. now apply (Hpids n it). }
    destruct (IH s1 Hfree1 Hpids1)
      as (s' & -> & Hfree' & IHkept & IHrunning & IHstopped & IHforks & IHrun & IHchan).
    exists s'. split_and!; try congruence.
    + intros n info Hfind Hstate. apply IHkept; [|assumption]. now apply Hkept.
    + intros n Hn. apply IHrunning in Hn as [Hn Hnotin].
      assert (n <> name) as Hne by (intros ->; contradiction).
      split.
      * destruct Hn as (it & Hit & Hst). exists it. now rewrite <- Hothers.
      * intros [->|Hin]; [congruence | contradiction].
    + intros n info Hfind Hstate Hin.
      destruct (String.eqb_spec name n) as [<-|Hne].
      * destruct (Hnow info Hfind Hstate) as (info1 & Hfind1 & Hstate1).
        exists info1. split; [|assumption].
        apply IHkept; [assumption|]. rewrite Hstate1. discriminate.
      * destruct Hin as [->|Hin]; [congruence|].
        apply (IHstopped n info); [|assumption..].
        rewrite Hothers by congruence. assumption.
Qed.

(** With the mutex free and an identifier in every [RUNNING] record,
    [shutdown] returns, and leaves a manager without processes. *)
Lemma shutdown_returns s :
  manager_mutex s = false ->
  running_have_pid (processes s) ->
  exists s',
    shutdown s = Ret tt s' /\
    manager_mutex s' = false /\
    processes s' = [] /\ channels s' = [] /\ running s' = false /\
    forks s' = forks s.
Proof.
  intros Hfree Hpids. unfold shutdown, stop_all.
  destruct (stop_all_fold (StrMap.keys (processes (set_running false s)))
              (set_running false s) Hfree Hpids)
    as (s1 & -> & Hfree1 & _ & _ & _ & Hforks & Hrun & _).
  simpl. eexists. split_and!; try reflexivity; assumption.
Qed.

(** C10.  For a name that is not in the process table
    [get_process_state] answers [STOPPED]: so it does on a fresh manager
    and after [shutdown], whatever the name, and the answer is the one it
    gives for a registered process that [stop_process] has stopped. *)
Theorem get_process_state_unknown name s :
  manager_mutex s = false ->
  (StrMap.find name (processes s) = None ->
     get_process_state name s = Ret STOPPED s) /\
  get_process_state name ProcessManager_new = Ret STOPPED ProcessManager_new /\
  (running_have_pid (processes s) ->
     exists s', shutdown s = Ret tt s' /\ get_process_state name s' = Ret STOPPED s') /\
  (forall force s',
     stop_process name force s = Ret true s' ->
     get_process_state name s' = Ret STOPPED s').
Proof.
  intros Hfree. split_and!.
  - intros Hfind. rewrite (get_process_state_free name s Hfree). now rewrite Hfind.
  - reflexivity.
  - intros Hpids.
    destruct (shutdown_returns s Hfree Hpids) as (s' & Hshutdown & Hfree' & Hps & _).
    exists s'. split; [assumption|].
    rewrite (get_process_state_free name s' Hfree'). now rewrite Hps.
  - intros force s' Hstop.
    destruct (StrMap.find name (processes s)) as [info|] eqn:Hfind.
    + destruct (Z.eq_dec (pid info) 0) as [Hzero|Hpid].
      * rewrite (stop_process_self_signal name force s info Hfind Hfree Hzero) in Hstop.
        discriminate.
      * destruct (stop_process_stops name force s info Hfind Hfree Hpid)
          as (s1 & Hstop1 & Hfree1 & Hps & _).
        assert (s1 = s') as -> by congruence.
        rewrite (get_process_state_free name s' Hfree1).
        now rewrite Hps, find_set_eq, Hfind.
    + rewrite (stop_process_free name force s Hfree) in Hstop.
      destruct (stop_process_locked_outcome name force s)
        as [[_ Hrefused]|[(i & Hi & _)|(i & Hi & _)]]; [|congruence..].
      rewrite Hrefused in Hstop. discriminate.
Qed.

Lemma get_process_state_unknown_witness :
  StrMap.find "ghost" (processes Sample.running_X) = None /\
  get_process_state "ghost" Sample.running_X = Ret STOPPED Sample.running_X /\
  exists s',
    stop_process "X" false Sample.running_X = Ret true s' /\
    get_process_state "X" s' = Ret STOPPED s'.
Proof.
  destruct (get_process_state_unknown "ghost" Sample.running_X eq_refl)
    as (Hunknown & _).
  destruct (get_process_state_unknown "X" Sample.running_X eq_refl)
    as (_ & _ & _ & Hstopped).
  split_and!; [reflexivity | apply Hunknown; reflexivity |].
  eexists. split; [reflexivity|]. apply (Hstopped false). reflexivity.
Defined.

(* ================================================================== *)
(** * Further properties *)

(* ================================================================== *)
(** ** Strings *)

Lemma append_cons (x : ascii) (a b : string) :
  String.append (String x a) b = String x (String.append a b).
Proof. reflexivity. Qed.

Lemma append_assoc (a b c : string) :
  String.append (String.append a b) c = String.append a (String.append b c).
Proof.
  induction a as [|x a IH]; [reflexivity|].
  rewrite !append_cons. now rewrite IH.
Qed.

Lemma append_nil_r (a : string) : String.append a EmptyString = a.
Proof.
  induction a as [|x a IH]; [reflexivity|].
  rewrite append_cons. now rewrite IH.
Qed.

Lemma length_append (a b : string) :
  String.length (String.append a b) = (String.length a + String.length b)%nat.
Proof.
  induction a as [|x a IH]; [reflexivity|].
  rewrite append_cons. simpl. now rewrite IH.
Qed.

(** The stream holds its pieces one after the other. *)
Lemma oss_str_cons (x : string) (pieces : list string) :
  oss_str (x :: pieces) = String.append x (oss_str pieces).
Proof.
  unfold oss_str. destruct pieces as [|y pieces]; simpl;
    [now rewrite append_nil_r | reflexivity].
Qed.

(* ================================================================== *)
(** ** Envelope encoding, continued *)

(** X1.  [to_json] copies the strings of a message between quotes without
    escaping them, so it is not injective: a source that contains the
    text that separates source from target is read back as a shorter
    source and a longer target.  Whatever [a], [b] and [c] are, the
    message with source [a","target":"b] and target [c] and the message
    with source [a] and target [b","target":"c] are two messages with one
    encoding. *)
Theorem to_json_not_injective (m : Message) (a b c : string) :
  let sep := oss_str [dq; ","; dq; "target"; dq; ":"; dq] in
  let m1 :=
    {| type := type m;
       source_process := String.append a (String.append sep b);
       target_process := c;
       command := command m; data := data m; timestamp := timestamp m;
       message_id := message_id m |} in
  let m2 :=
    {| type := type m;
       source_process := a;
       target_process := String.append b (String.append sep c);
       command := command m; data := data m; timestamp := timestamp m;
       message_id := message_id m |} in
  m1 <> m2 /\ to_json m1 = to_json m2.
Proof.
  intros sep m1 m2. split.
  - intros Heq. apply (f_equal (fun x => String.length (source_process x))) in Heq.
    simpl in Heq. rewrite !length_append in Heq. simpl in Heq. lia.
  - unfold to_json, m1, m2, sep.
    cbn [type source_process target_process command data timestamp message_id].
    rewrite !oss_str_cons. change (oss_str []) with EmptyString.
    rewrite !append_assoc. reflexivity.
Qed.

(* ================================================================== *)
(** ** Validation, continued *)

(** X2.  The verdicts of [validate_message].  It accepts, leaving [error]
    as it was, exactly when source, target and command are not empty and
    the payload has at most 1048576 bytes; otherwise it rejects with the
    message of the first check that fails, in the order source, target,
    command, payload size. *)
Theorem validate_message_decision (msg : Message) (error : string) :
  (validate_message msg error = (true, error) <->
     source_process msg <> EmptyString /\ target_process msg <> EmptyString /\
     command msg <> EmptyString /\ string_length (data msg) <= 1048576) /\
  (validate_message msg error = (false, "Source process is empty") <->
     source_process msg = EmptyString) /\
  (validate_message msg error = (false, "Target process is empty") <->
     source_process msg <> EmptyString /\ target_process msg = EmptyString) /\
  (validate_message msg error = (false, "Command is empty") <->
     source_process msg <> EmptyString /\ target_process msg <> EmptyString /\
     command msg = EmptyString) /\
  (validate_message msg error = (false, "Invalid JSON data") <->
     source_process msg <> EmptyString /\ target_process msg <> EmptyString /\
     command msg <> EmptyString /\ 1048576 < string_length (data msg)).
Proof.
  split_and!.
  - validate_cases msg.
  - apply validate_message_source_iff.
  - apply validate_message_target_iff.
  - apply validate_message_command_iff.
  - apply validate_message_data_iff.
Qed.

(** What [from_json] returns is rejected by the validator, for its empty
    source. *)
Lemma validate_message_from_json ty ts json error :
  validate_message (from_json ty ts json) error = (false, "Source process is empty").
Proof. reflexivity. Qed.

(* ================================================================== *)

(** ** Routing, continued *)

Section RouterMore.

Context {World : Type}.
Implicit Types (handlers : gmap string (list (@Handler World))).
Implicit Types (h : @Handler World) (w : World).

(** X3.  Registering [h] under [k] changes routing for the command [k]
    only.  A message with that command first goes, as before, to the
    handlers registered earlier; if all of them return, [h] is then
    called, on the state they left; if one of them throws, [h] is not
    called and the exception leaves [route_message] as before.  A message
    with another command is handled exactly as before. *)
Theorem route_message_register_handler handlers k h msg w :
  route_message msg (register_handler k h handlers) w =
    if String.eqb (command msg) k then
      match route_message msg handlers w with
      | Returned w' => h msg w'
      | Threw w' => Threw w'
      end
    else route_message msg handlers w.
Proof.
  destruct (String.eqb_spec (command msg) k) as [<-|Hne].
  - unfold route_message. rewrite lookup_register_handler_eq.
    rewrite run_handlers_app.
    destruct (handlers !! command msg) as [hs|]; simpl.
    + destruct (run_handlers msg hs w); [apply run_handlers_one | reflexivity].
    + now destruct (h msg w).
  - unfold route_message. rewrite lookup_register_handler_ne by congruence.
    reflexivity.
Qed.

(** After [unregister_all] no message reaches a handler, whatever had
    been registered. *)
Lemma route_message_unregister_all handlers msg w :
  route_message msg (unregister_all handlers) w = Returned w.
Proof. unfold route_message, unregister_all. now rewrite lookup_empty. Qed.

(** X4.  The event loop never routes a message.  Whatever a channel
    receives, over the pipe or from the response file, the message it
    hands to the loop is the one [from_json] makes, with an empty source;
    the validator rejects it and no handler runs. *)
Theorem run_on_receive_never_routes handlers w ty ts :
  (forall select_result n buffer,
     run_on_receive (StdioChannel.receive ty ts select_result n buffer) handlers w
       = Returned w) /\
  (forall steady_clock others fuel c timeout_ms fs received fs',
     FileIPCChannel.receive ty ts steady_clock others fuel c timeout_ms fs
       = Some (received, fs') ->
     run_on_receive received handlers w = Returned w).
Proof.
  split.
  - intros select_result n buffer. unfold StdioChannel.receive.
    destruct (0 <? select_result); [|reflexivity].
    destruct (0 <? n); reflexivity.
  - intros steady_clock others fuel c timeout_ms fs received fs'.
    unfold FileIPCChannel.receive.
    generalize (steady_clock O) as start. generalize O as k. revert fs.
    induction fuel as [|fuel IH]; intros fs k start; simpl; [discriminate|].
    destruct (negb (empty _)).
    + now intros [= <- _].
    + destruct (timeout_ms <=? _); [now intros [= <- _] | apply IH].
Qed.

End RouterMore.

Lemma run_on_receive_never_routes_witness :
  exists fs',
    FileIPCChannel.receive COMMAND 1 (fun k => 10 * Z.of_nat k) (fun _ fs => fs) 1
      (FileIPCChannel.make "t.json") 500
      {[ "t.json.response" := to_json Sample.ping ]}
      = Some (Some (from_json COMMAND 1 (to_json Sample.ping)), fs') /\
    run_on_receive (Some (from_json COMMAND 1 (to_json Sample.ping)))
      (register_handler "ping" (Sample.logger 1) ∅) [] = Returned [].
Proof.
  eexists. split; [reflexivity|].
  eapply (proj2 (run_on_receive_never_routes
                   (register_handler "ping" (Sample.logger 1) ∅) [] COMMAND 1)
           (fun k => 10 * Z.of_nat k) (fun _ fs => fs) 1%nat
           (FileIPCChannel.make "t.json") 500
           {[ "t.json.response" := to_json Sample.ping ]}).
  reflexivity.
Defined.

(* ================================================================== *)

(** ** The file channel *)

(** X5.  [FileIPCChannel::send] keeps one message at most.  When the file
    cannot be opened it returns [false] and touches nothing.  When it can,
    it returns [true], the file holds exactly the encoding of the message
    (no line feed is added), every other file is as it was, and a second
    [send] replaces the first message: the files are those that the second
    [send] alone would have left. *)
Theorem file_ipc_send_overwrites can_open c (m1 m2 : Message) fs :
  (can_open (FileIPCChannel.ipc_file_path c) = false ->
     FileIPCChannel.send can_open c m1 fs = (false, fs)) /\
  (can_open (FileIPCChannel.ipc_file_path c) = true ->
     fst (FileIPCChannel.send can_open c m1 fs) = true /\
     snd (FileIPCChannel.send can_open c m1 fs) !! FileIPCChannel.ipc_file_path c
       = Some (to_json m1) /\
     (forall path, path <> FileIPCChannel.ipc_file_path c ->
        snd (FileIPCChannel.send can_open c m1 fs) !! path = fs !! path) /\
     FileIPCChannel.send can_open c m2 (snd (FileIPCChannel.send can_open c m1 fs))
       = FileIPCChannel.send can_open c m2 fs).
Proof.
  unfold FileIPCChannel.send. split; intros ->; simpl; [reflexivity|].
  split_and!.
  - reflexivity.
  - apply lookup_insert_eq.
  - intros path Hne. now apply lookup_insert_ne.
  - now rewrite insert_insert_eq.
Qed.

Lemma file_ipc_send_overwrites_witness :
  FileIPCChannel.send (fun _ => true) (FileIPCChannel.make "t.json") Sample.pong
    (snd (FileIPCChannel.send (fun _ => true) (FileIPCChannel.make "t.json")
            Sample.ping ∅))
  = FileIPCChannel.send (fun _ => true) (FileIPCChannel.make "t.json") Sample.pong ∅.
Proof.
  apply (proj2 (file_ipc_send_overwrites (fun _ => true)
                  (FileIPCChannel.make "t.json") Sample.ping Sample.pong ∅)).
  reflexivity.
Defined.

(** With a clock that does not run backwards and advances by the 50 ms of
    each sleep, reading [k + 1] is at least [50 * k] ms after the start. *)
Lemma steady_clock_elapsed (steady_clock : nat -> Z) :
  steady_clock 0%nat <= steady_clock 1%nat ->
  (forall k, steady_clock (S k) + 50 <= steady_clock (S (S k))) ->
  forall k, 50 * Z.of_nat k <= steady_clock (S k) - steady_clock 0%nat.
Proof.
  intros Hfirst Hsleep k. induction k as [|k IH]; [lia|].
  specialize (Hsleep k). lia.
Qed.

Lemma receive_loop_returns ty ts steady_clock others c timeout_ms start fuel :
  (forall k, 50 * Z.of_nat k <= steady_clock (S k) - start) ->
  forall k fs,
    (0 < fuel)%nat ->
    timeout_ms <= 50 * (Z.of_nat k + Z.of_nat fuel - 1) ->
    exists received fs',
      FileIPCChannel.receive_loop ty ts steady_clock others fuel c timeout_ms start k fs
        = Some (received, fs') /\
      (forall msg, received = Some msg ->
         msg = from_json ty ts EmptyString /\
         fs' !! FileIPCChannel.response_file_path c = None).
Proof.
  intros Hclock. induction fuel as [|fuel IH]; intros k fs Hfuel Htimeout; [lia|].
  simpl. destruct (negb (empty _)).
  - eexists _, _. split; [reflexivity|].
    intros msg [= <-]. split; [reflexivity | apply lookup_delete_eq].
  - destruct (Z.leb_spec timeout_ms (steady_clock (S k) - start)) as [Hle|Hgt].
    + eexists _, _. split; [reflexivity | discriminate].
    + specialize (Hclock k).
      apply IH; lia.
Qed.

(** X6.  [FileIPCChannel::receive] comes back.  If the steady clock does
    not run backwards and each 50 ms sleep advances it by 50 ms or more,
    the loop ends within [timeout_ms / 50 + 2] turns, whatever the other
    processes do to the files meanwhile.  When it ends with a message the
    response file is gone, and the message is the empty one that
    [from_json] makes: nothing of what the file held is in it. *)
Theorem file_ipc_receive_returns ty ts steady_clock others c timeout_ms fs :
  steady_clock 0%nat <= steady_clock 1%nat ->
  (forall k, steady_clock (S k) + 50 <= steady_clock (S (S k))) ->
  exists received fs',
    FileIPCChannel.receive ty ts steady_clock others
      (Z.to_nat (timeout_ms / 50) + 2) c timeout_ms fs = Some (received, fs') /\
    (forall msg, received = Some msg ->
       msg = from_json ty ts EmptyString /\
       fs' !! FileIPCChannel.response_file_path c = None).
Proof.
  intros Hfirst Hsleep. unfold FileIPCChannel.receive.
  apply receive_loop_returns.
  - now apply steady_clock_elapsed.
  - lia.
  - pose proof (Z.mul_succ_div_gt timeout_ms 50 ltac:(lia)) as Hdiv.
    destruct (Z.le_gt_cases 0 (timeout_ms / 50)) as [Hpos|Hneg].
    + rewrite Nat2Z.inj_add, Z2Nat.id by assumption. lia.
    + rewrite Nat2Z.inj_add, Z2Nat.nonpos by lia. lia.
Qed.

Lemma file_ipc_receive_returns_witness :
  exists received fs',
    FileIPCChannel.receive COMMAND 1 (fun k => 50 * Z.of_nat k) (fun _ fs => fs)
      (Z.to_nat (100 / 50) + 2) (FileIPCChannel.make "t.json") 100 ∅
    = Some (received, fs').
Proof.
  destruct (file_ipc_receive_returns COMMAND 1 (fun k => 50 * Z.of_nat k)
              (fun _ fs => fs) (FileIPCChannel.make "t.json") 100 ∅)
    as (received & fs' & Hreceive & _).
  - simpl. lia.
  - intros k. lia.
  - now exists received, fs'.
Defined.

(* ================================================================== *)
(** ** The string-keyed map, continued *)

Section StrMapMore.

Context {V : Type}.
Implicit Types (m : list (string * V)) (k : string) (v : V).

Lemma find_Some_In_keys m k v : StrMap.find k m = Some v -> In k (StrMap.keys m).
Proof.
  induction m as [|[k' v'] m IH]; simpl; [discriminate|].
  destruct (String.eqb_spec k k') as [->|_]; [now left | right; now apply IH].
Qed.

Lemma find_Some_In_values m k v : StrMap.find k m = Some v -> In v (map snd m).
Proof.
  induction m as [|[k' v'] m IH]; simpl; [discriminate|].
  destruct (String.eqb k k'); [intros [= ->]; now left | right; now apply IH].
Qed.

Lemma set_set m k v : StrMap.set k v (StrMap.set k v m) = StrMap.set k v m.
Proof.
  unfold StrMap.set. rewrite map_map. apply map_ext.
  intros [k' v']; simpl. destruct (String.eqb k k') eqn:Heq; simpl; now rewrite Heq.
Qed.

Lemma length_insert_fresh m k v :
  StrMap.find k m = None -> List.length (StrMap.insert k v m) = S (List.length m).
Proof.
  induction m as [|[k' v'] m IH]; simpl; [reflexivity|].
  destruct (String.eqb_spec k k') as [->|Hne]; [discriminate|]. intros Hfind.
  destruct (String.compare k k') eqn:Hcmp; simpl.
  - now apply String.compare_eq_iff in Hcmp.
  - reflexivity.
  - now rewrite IH.
Qed.

(** Adding a key keeps the keys in ascending order. *)
Lemma keys_insert_sorted m k v :
  Sorted (fun a b => String.ltb a b = true) (StrMap.keys m) ->
  Sorted (fun a b => String.ltb a b = true) (StrMap.keys (StrMap.insert k v m)).
Proof.
  induction m as [|[k' v'] m IH]; simpl; intros Hsorted.
  - repeat constructor.
  - apply Sorted_inv in Hsorted as [Htail Hhead].
    destruct (String.compare k k') eqn:Hcmp; simpl.
    + apply String.compare_eq_iff in Hcmp. subst k'. now constructor.
    + constructor; [now constructor|]. constructor.
      unfold String.ltb. now rewrite Hcmp.
    + constructor; [now apply IH|].
      assert (String.ltb k' k = true) as Hlt.
      { unfold String.ltb. rewrite String.compare_antisym, Hcmp. reflexivity. }
      destruct m as [|[k0 v0] m]; simpl; [now repeat constructor|].
      apply HdRel_inv in Hhead.
      destruct (String.compare k k0); simpl; now constructor.
Qed.

End StrMapMore.

(** ** Registration, continued *)

Section RegistrationMore.

Context (os : OS).

Lemma forks_create_channels nm methods s :
  forks (fold_left (create_channel os nm) methods s) = forks s.
Proof.
  revert s. induction methods as [|method methods IH]; intros s; simpl; [reflexivity|].
  rewrite IH. destruct method; simpl; try reflexivity.
  unfold StdioChannel_initialize.
  destruct (os_pipe os (pipes s)); [|reflexivity].
  destruct (os_pipe os (pipes s + 1)); [|reflexivity].
  destruct (os_pipe os (pipes s + 2)); reflexivity.
Qed.

Lemma syscalls_create_channels nm methods s :
  syscalls (fold_left (create_channel os nm) methods s) = syscalls s.
Proof.
  revert s. induction methods as [|method methods IH]; intros s; simpl; [reflexivity|].
  rewrite IH. destruct method; simpl; try reflexivity.
  unfold StdioChannel_initialize.
  destruct (os_pipe os (pipes s)); [|reflexivity].
  destruct (os_pipe os (pipes s + 1)); [|reflexivity].
  destruct (os_pipe os (pipes s + 2)); reflexivity.
Qed.

Lemma ticks_create_channels nm methods s :
  ticks (fold_left (create_channel os nm) methods s) = ticks s.
Proof.
  revert s. induction methods as [|method methods IH]; intros s; simpl; [reflexivity|].
  rewrite IH. destruct method; simpl; try reflexivity.
  unfold StdioChannel_initialize.
  destruct (os_pipe os (pipes s)); [|reflexivity].
  destruct (os_pipe os (pipes s + 1)); [|reflexivity].
  destruct (os_pipe os (pipes s + 2)); reflexivity.
Qed.

Lemma running_create_channels nm methods s :
  running (fold_left (create_channel os nm) methods s) = running s.
Proof.
  revert s. induction methods as [|method methods IH]; intros s; simpl; [reflexivity|].
  rewrite IH. destruct method; simpl; try reflexivity.
  unfold StdioChannel_initialize.
  destruct (os_pipe os (pipes s)); [|reflexivity].
  destruct (os_pipe os (pipes s + 1)); [|reflexivity].
  destruct (os_pipe os (pipes s + 2)); reflexivity.
Qed.

(** Registration neither forks, nor reads the clock, nor signals. *)
Lemma register_process_locked_quiet cfg s :
  forks (snd (register_process_locked os cfg s)) = forks s /\
  ticks (snd (register_process_locked os cfg s)) = ticks s /\
  syscalls (snd (register_process_locked os cfg s)) = syscalls s /\
  running (snd (register_process_locked os cfg s)) = running s.
Proof.
  unfold register_process_locked.
  destruct (StrMap.find (name cfg) (processes s)); simpl; [now split_and!|].
  now rewrite forks_create_channels, ticks_create_channels, syscalls_create_channels,
    running_create_channels.
Qed.

(** X7.  Registering the same configuration a second time is refused and
    changes nothing, whether the first registration added the record or
    found the name taken. *)
Theorem register_process_twice cfg s :
  manager_mutex s = false ->
  exists ok s',
    register_process os cfg s = Ret ok s' /\
    register_process os cfg s' = Ret false s'.
Proof.
  intros Hfree.
  destruct (StrMap.find (name cfg) (processes s)) as [info|] eqn:Hfind.
  - exists false, s. split; now apply (register_process_duplicate os cfg s info).
  - destruct (register_process_fresh os cfg s Hfind Hfree) as (s' & Hok & Hfree' & Hps).
    exists true, s'. split; [assumption|].
    eapply register_process_duplicate; [|assumption].
    rewrite Hps. apply find_insert_eq.
Qed.

(** X8.  Registering a name that is not in the table adds one record and
    does nothing else to the processes: the new process is reported
    [CREATED], its record is among those [get_all_processes] returns, the
    record of every other name is as it was, and neither [fork] nor
    [kill] is called. *)
Theorem register_process_adds_one cfg s :
  StrMap.find (name cfg) (processes s) = None ->
  manager_mutex s = false ->
  exists s' all,
    register_process os cfg s = Ret true s' /\
    get_process_state (name cfg) s' = Ret CREATED s' /\
    get_all_processes s' = Ret all s' /\
    (exists info, In info all /\ config info = cfg) /\
    List.length all = S (List.length (processes s)) /\
    (forall other, other <> name cfg ->
       StrMap.find other (processes s') = StrMap.find other (processes s)) /\
    forks s' = forks s /\ syscalls s' = syscalls s.
Proof.
  intros Hfresh Hfree.
  destruct (register_process_locked_quiet cfg s) as (Hforks & _ & Hsys & _).
  destruct (register_process_fresh os cfg s Hfresh Hfree) as (s' & Hok & Hfree' & Hps).
  rewrite (register_process_free os cfg s Hfree) in Hok.
  injection Hok as _ Hs'. rewrite Hs' in Hforks, Hsys.
  exists s', (map snd (processes s')). split_and!.
  - rewrite (register_process_free os cfg s Hfree), Hs'. f_equal.
    now destruct (register_process_locked_fresh os cfg s Hfresh).
  - rewrite (get_process_state_free _ s' Hfree'). now rewrite Hps, find_insert_eq.
  - now apply get_all_processes_free.
  - eexists. split.
    + eapply find_Some_In_values. rewrite Hps. apply find_insert_eq.
    + reflexivity.
  - rewrite length_map, Hps. now apply length_insert_fresh.
  - intros other Hne. rewrite Hps. apply find_insert_ne. congruence.
  - exact Hforks.
  - exact Hsys.
Qed.

End RegistrationMore.

Lemma register_process_twice_witness :
  exists ok s',
    register_process Sample.os_ok (Sample.cfg "X" []) ProcessManager_new = Ret ok s' /\
    register_process Sample.os_ok (Sample.cfg "X" []) s' = Ret false s'.
Proof.
  apply (register_process_twice Sample.os_ok (Sample.cfg "X" []) ProcessManager_new).
  reflexivity.
Defined.

Lemma register_process_adds_one_witness :
  exists s',
    register_process Sample.os_ok (Sample.cfg "X" []) ProcessManager_new = Ret true s' /\
    get_process_state "X" s' = Ret CREATED s'.
Proof.
  destruct (register_process_adds_one Sample.os_ok (Sample.cfg "X" []) ProcessManager_new)
    as (s' & all & Hok & Hstate & _); [reflexivity..|].
  exists s'. split; [exact Hok | exact Hstate].
Defined.

(* ================================================================== *)
(** ** The channels of a registered process *)

Section ChannelsOfProcess.

Context (os : OS).

Lemma channel_key_stdio_file_ipc nm : channel_key nm STDIO <> channel_key nm FILE_IPC.
Proof.
  unfold channel_key. intros Heq. apply (inj (String.append nm)) in Heq.
  cbv in Heq. discriminate Heq.
Qed.

(** The channel table after [StdioChannel::initialize] is the one before. *)
Lemma channels_StdioChannel_initialize s :
  channels (snd (StdioChannel_initialize os s)) = channels s.
Proof.
  unfold StdioChannel_initialize.
  destruct (os_pipe os (pipes s)); [|reflexivity].
  destruct (os_pipe os (pipes s + 1)); [|reflexivity].
  destruct (os_pipe os (pipes s + 2)); reflexivity.
Qed.

Lemma create_channel_file_ipc_stays nm s method v :
  v = FileIPC (FileIPCChannel.make (String.append "ipc_" (String.append nm ".json"))) ->
  StrMap.find (channel_key nm FILE_IPC) (channels s) = Some v ->
  StrMap.find (channel_key nm FILE_IPC) (channels (create_channel os nm s method)) = Some v.
Proof.
  intros -> Hfind. destruct method; simpl; try assumption.
  - pose proof (channels_StdioChannel_initialize s) as Hsame.
    destruct (StdioChannel_initialize os s) as [[channel|] s1]; simpl in *.
    + rewrite find_insert_ne by apply channel_key_stdio_file_ipc. congruence.
    + congruence.
  - apply find_insert_eq.
Qed.

Lemma create_channels_file_ipc nm methods s :
  In FILE_IPC methods ->
  StrMap.find (channel_key nm FILE_IPC)
    (channels (fold_left (create_channel os nm) methods s))
  = Some (FileIPC (FileIPCChannel.make (String.append "ipc_" (String.append nm ".json")))).
Proof.
  assert (forall methods s v,
    v = FileIPC (FileIPCChannel.make (String.append "ipc_" (String.append nm ".json"))) ->
    StrMap.find (channel_key nm FILE_IPC) (channels s) = Some v ->
    StrMap.find (channel_key nm FILE_IPC)
      (channels (fold_left (create_channel os nm) methods s)) = Some v) as Hstays.
  { clear. induction methods as [|method methods IH]; intros s v Hv Hfind; simpl;
      [assumption|].
    apply IH; [assumption|]. now apply create_channel_file_ipc_stays. }
  revert s. induction methods as [|method methods IH]; intros s Hin; simpl;
    [contradiction|].
  destruct Hin as [->|Hin]; [|now apply IH].
  apply Hstays; [reflexivity|]. simpl. apply find_insert_eq.
Qed.

Lemma create_channels_unsupported nm methods s :
  Forall (fun method => method <> STDIO /\ method <> FILE_IPC) methods ->
  channels (fold_left (create_channel os nm) methods s) = channels s.
Proof.
  intros Hall. revert s.
  induction Hall as [|method methods [Hstdio Hfile] _ IH]; intros s; simpl;
    [reflexivity|].
  rewrite IH. now destruct method.
Qed.

Lemma create_channels_pipes_fail nm methods s :
  (forall n, os_pipe os n = None) ->
  StrMap.find (channel_key nm STDIO)
    (channels (fold_left (create_channel os nm) methods s))
  = StrMap.find (channel_key nm STDIO) (channels s).
Proof.
  intros Hfail. revert s.
  induction methods as [|method methods IH]; intros s; simpl; [reflexivity|].
  rewrite IH. destruct method; simpl; try reflexivity.
  - unfold StdioChannel_initialize. now rewrite Hfail.
  - apply find_insert_ne. intros Heq. now apply (channel_key_stdio_file_ipc nm).
Qed.

(** X9.  The channels a registration creates.  For a name that is not
    registered yet, [register_process] returns [true] whatever happens to
    the channels.  If [FILE_IPC] is among the methods, the channel table
    then holds, under the name followed by [_1], a file channel on
    [ipc_<name>.json]; if the methods are all among [NAMED_PIPE],
    [SHARED_MEMORY] and [TCP_SOCKET], the channel table is as it was; and
    if every [pipe] call fails, no channel for [STDIO] is added. *)
Theorem register_process_channels cfg s :
  StrMap.find (name cfg) (processes s) = None ->
  manager_mutex s = false ->
  exists s',
    register_process os cfg s = Ret true s' /\
    (In FILE_IPC (comm_methods cfg) ->
       StrMap.find (String.append (name cfg) "_1") (channels s')
         = Some (FileIPC
                   {| FileIPCChannel.ipc_file_path :=
                        String.append "ipc_" (String.append (name cfg) ".json");
                      FileIPCChannel.response_file_path :=
                        String.append
                          (String.append "ipc_" (String.append (name cfg) ".json"))
                          ".response" |})) /\
    (Forall (fun method => method <> STDIO /\ method <> FILE_IPC) (comm_methods cfg) ->
       channels s' = channels s) /\
    ((forall n, os_pipe os n = None) ->
       StrMap.find (String.append (name cfg) "_0") (channels s')
         = StrMap.find (String.append (name cfg) "_0") (channels s)).
Proof.
  intros Hfresh Hfree.
  exists (snd (register_process_locked os cfg s)).
  rewrite (register_process_free os cfg s Hfree).
  unfold register_process_locked. rewrite Hfresh. simpl.
  split_and!.
  - reflexivity.
  - intros Hin. now apply (create_channels_file_ipc (name cfg)).
  - intros Hall. now rewrite create_channels_unsupported.
  - intros Hfail. now rewrite (create_channels_pipes_fail (name cfg)).
Qed.

End ChannelsOfProcess.

Lemma register_process_channels_witness :
  exists s',
    register_process Sample.os_ok (Sample.cfg "X" []) ProcessManager_new = Ret true s' /\
    StrMap.find "X_1" (channels s')
    = Some (FileIPC {| FileIPCChannel.ipc_file_path := "ipc_X.json";
                       FileIPCChannel.response_file_path := "ipc_X.json.response" |}).
Proof.
  destruct (register_process_channels Sample.os_ok (Sample.cfg "X" []) ProcessManager_new)
    as (s' & Hok & Hfile & _); [reflexivity..|].
  exists s'. split; [exact Hok|]. apply Hfile. now left.
Defined.

(* ================================================================== *)
(** ** Stopping *)

(** X10.  [stop_process] does not look at the state of the process, only
    at the identifier its record holds.  If that is the identifier of a
    child, the call returns [true], signals the child (SIGKILL alone when
    forced, SIGTERM and then SIGKILL otherwise) and leaves the record
    [STOPPED] with identifier and handle cleared, its configuration and
    restart counter as they were.  Stopping the process once more does
    not return: the record now holds 0, the signal goes to the process
    group of the manager itself, and the record is left [STOPPING] with
    the mutex held.  The same happens at the first call when the record
    holds 0 from the start, as it does for a process that never ran. *)
Theorem stop_process_twice name force force' s info :
  StrMap.find name (processes s) = Some info ->
  manager_mutex s = false ->
  (pid info <> 0 ->
     exists s1 info1 s2 info2,
       stop_process name force s = Ret true s1 /\
       StrMap.find name (processes s1) = Some info1 /\
       state info1 = STOPPED /\ pid info1 = 0 /\ platform_handle info1 = 0 /\
       config info1 = config info /\ restart_count info1 = restart_count info /\
       syscalls s1 =
         (syscalls s ++
            if force then [sys_kill (pid info) SIGKILL]
            else [sys_kill (pid info) SIGTERM; sys_kill (pid info) SIGKILL])%list /\
       forks s1 = forks s /\
       stop_process name force' s1 = Stop SelfSignalled s2 /\
       syscalls s2 =
         (syscalls s1 ++ [sys_kill 0 (if force' then SIGKILL else SIGTERM)])%list /\
       manager_mutex s2 = true /\
       StrMap.find name (processes s2) = Some info2 /\ state info2 = STOPPING) /\
  (pid info = 0 ->
     exists s2 info2,
       stop_process name force s = Stop SelfSignalled s2 /\
       syscalls s2 =
         (syscalls s ++ [sys_kill 0 (if force then SIGKILL else SIGTERM)])%list /\
       manager_mutex s2 = true /\
       StrMap.find name (processes s2) = Some info2 /\ state info2 = STOPPING).
Proof.
  intros Hfind Hfree.
  assert (forall force0 s0 info0,
            StrMap.find name (processes s0) = Some info0 ->
            manager_mutex s0 = false -> pid info0 = 0 ->
            exists s2 info2,
              stop_process name force0 s0 = Stop SelfSignalled s2 /\
              syscalls s2 =
                (syscalls s0 ++ [sys_kill 0 (if force0 then SIGKILL else SIGTERM)])%list /\
              manager_mutex s2 = true /\
              StrMap.find name (processes s2) = Some info2 /\ state info2 = STOPPING)
    as Hself.
  { intros force0 s0 info0 Hfind0 Hfree0 Hzero.
    rewrite (stop_process_self_signal name force0 s0 info0 Hfind0 Hfree0 Hzero).
    eexists _, _. split_and!; [reflexivity | reflexivity | reflexivity | | ].
    - simpl. rewrite find_set_eq, Hfind0. reflexivity.
    - reflexivity. }
  split.
  - intros Hpid.
    destruct (stop_process_stops name force s info Hfind Hfree Hpid)
      as (s1 & Hstop & Hfree1 & Hps & Hsys & Hforks & _).
    assert (StrMap.find name (processes s1) =
              Some {| config := config info; state := STOPPED;
                      platform_handle := 0; pid := 0;
                      start_time := start_time info;
                      last_heartbeat := last_heartbeat info;
                      restart_count := restart_count info;
                      last_error := last_error info |}) as Hfind1.
    { rewrite Hps, find_set_eq, Hfind. reflexivity. }
    destruct (Hself force' s1 _ Hfind1 Hfree1 eq_refl)
      as (s2 & info2 & Hstop2 & Hsys2 & Hheld & Hfind2 & Hstate2).
    eexists s1, _, s2, info2.
    split_and!; [exact Hstop | exact Hfind1 | reflexivity.. | exact Hsys
                | exact Hforks | exact Hstop2 | exact Hsys2 | exact Hheld
                | exact Hfind2 | exact Hstate2].
  - now apply Hself.
Qed.

Lemma stop_process_twice_witness :
  exists s1 s2,
    stop_process "X" false Sample.running_X = Ret true s1 /\
    stop_process "X" false s1 = Stop SelfSignalled s2 /\
    syscalls s2 =
      [sys_kill 100 SIGTERM; sys_kill 100 SIGKILL; sys_kill 0 SIGTERM].
Proof.
  destruct (stop_process_twice "X" false false Sample.running_X Sample.info_X)
    as [Hchild _]; [reflexivity..|].
  destruct Hchild as (s1 & info1 & s2 & info2 & Hstop & _ & _ & _ & _ & _ & _
                      & Hsys1 & _ & Hstop2 & Hsys2 & _); [discriminate|].
  exists s1, s2. split_and!; [exact Hstop | exact Hstop2 |].
  rewrite Hsys2, Hsys1. reflexivity.
Defined.

Lemma forallb_ext_in {A : Type} (f g : A -> bool) (l : list A) :
  (forall x, In x l -> f x = g x) -> forallb f l = forallb g l.
Proof.
  induction l as [|x l IH]; simpl; intros Hext; [reflexivity|].
  rewrite (Hext x) by now left. rewrite IH; [reflexivity|].
  intros y Hy. apply Hext. now right.
Qed.

(** Overwriting the record of a process that [cfg] does not depend on
    does not change whether the dependencies of [cfg] are ready. *)
Lemma check_dependencies_ready_other cfg s s' name info' :
  processes s' = StrMap.set name info' (processes s) ->
  ~ In name (depends_on cfg) ->
  check_dependencies_ready cfg s' = check_dependencies_ready cfg s.
Proof.
  intros Hps Hnotin. unfold check_dependencies_ready.
  apply forallb_ext_in. intros dep Hin. rewrite Hps.
  rewrite find_set_ne; [reflexivity|]. intros ->. contradiction.
Qed.

(** X11.  Start, stop, start.  For a registered process that does not
    depend on itself, whose dependencies are ready and for which [fork]
    succeeds twice, starting it, stopping it and starting it again leaves
    it [RUNNING] with the second child, with the configuration and the
    restart counter it had, after the signals of the one stop to the first
    child. *)
Theorem start_stop_start os name force s info child1 child2 :
  StrMap.find name (processes s) = Some info ->
  manager_mutex s = false ->
  ~ In name (depends_on (config info)) ->
  check_dependencies_ready (config info) s = true ->
  os_fork os (forks s) = Some child1 ->
  os_fork os (S (forks s)) = Some child2 ->
  exists s1 s2 s3 info3,
    start_process os name s = Ret true s1 /\
    stop_process name force s1 = Ret true s2 /\
    start_process os name s2 = Ret true s3 /\
    StrMap.find name (processes s3) = Some info3 /\
    state info3 = RUNNING /\ pid info3 = Z.pos child2 /\
    config info3 = config info /\ restart_count info3 = restart_count info /\
    forks s3 = S (S (forks s)) /\
    syscalls s3 =
      (syscalls s ++
         if force then [sys_kill (Z.pos child1) SIGKILL]
         else [sys_kill (Z.pos child1) SIGTERM; sys_kill (Z.pos child1) SIGKILL])%list.
Proof.
  intros Hfind Hfree Hself Hdeps Hfork1 Hfork2.
  destruct (start_process_spawns os name s info Hfind Hdeps Hfree)
    as (ok1 & s1 & info1 & Hstart1 & Hfree1 & Hps1 & Hforks1 & Hsys1 & _ & _
        & Hcfg1 & Hcount1 & Hstate1).
  destruct Hstate1 as [(-> & _ & child & Hfork & Hpid1)|(_ & _ & Hfork)]; [|congruence].
  assert (child = child1) as -> by congruence.
  assert (StrMap.find name (processes s1) = Some info1) as Hfind1.
  { rewrite Hps1, find_set_eq, Hfind. reflexivity. }
  assert (pid info1 <> 0) as Hpid by (rewrite Hpid1; discriminate).
  destruct (stop_process_stops name force s1 info1 Hfind1 Hfree1 Hpid)
    as (s2 & Hstop & Hfree2 & Hps2 & Hsys2 & Hforks2 & _).
  set (info2 := {| config := config info1; state := STOPPED;
                   platform_handle := 0; pid := 0;
                   start_time := start_time info1;
                   last_heartbeat := last_heartbeat info1;
                   restart_count := restart_count info1;
                   last_error := last_error info1 |}) in *.
  assert (StrMap.find name (processes s2) = Some info2) as Hfind2.
  { rewrite Hps2, find_set_eq, Hfind1. reflexivity. }
  assert (check_dependencies_ready (config info2) s2 = true) as Hdeps2.
  { change (config info2) with (config info1). rewrite Hcfg1.
    rewrite (check_dependencies_ready_other _ s1 s2 name info2 Hps2 Hself).
    now rewrite (check_dependencies_ready_other _ s s1 name info1 Hps1 Hself). }
  destruct (start_process_spawns os name s2 info2 Hfind2 Hdeps2 Hfree2)
    as (ok3 & s3 & info3 & Hstart3 & _ & Hps3 & Hforks3 & Hsys3 & _ & _
        & Hcfg3 & Hcount3 & Hstate3).
  destruct Hstate3 as [(-> & Hrunning & child & Hfork3 & Hpid3)|(_ & _ & Hfork3)].
  - exists s1, s2, s3, info3. split_and!; try assumption.
    + rewrite Hps3, find_set_eq, Hfind2. reflexivity.
    + rewrite Hforks2, Hforks1 in Hfork3. congruence.
    + rewrite Hcfg3. simpl. exact Hcfg1.
    + rewrite Hcount3. simpl. exact Hcount1.
    + congruence.
    + rewrite Hsys3, Hsys2, Hsys1, Hpid1. reflexivity.
  - rewrite Hforks2, Hforks1 in Hfork3. congruence.
Qed.

Lemma start_stop_start_witness :
  exists s1 s2 s3 info3,
    start_process Sample.os_ok "X" Sample.registered_X = Ret true s1 /\
    stop_process "X" false s1 = Ret true s2 /\
    start_process Sample.os_ok "X" s2 = Ret true s3 /\
    StrMap.find "X" (processes s3) = Some info3 /\
    state info3 = RUNNING /\ pid info3 = 101.
Proof.
  destruct (start_stop_start Sample.os_ok "X" false Sample.registered_X
              {| config := Sample.cfg "X" []; state := CREATED;
                 platform_handle := 0; pid := 0;
                 start_time := 0; last_heartbeat := 0;
                 restart_count := 0; last_error := EmptyString |}
              100%positive 101%positive)
    as (s1 & s2 & s3 & info3 & H1 & H2 & H3 & Hfind & Hstate & Hpid & _).
  - reflexivity.
  - reflexivity.
  - simpl. tauto.
  - reflexivity.
  - reflexivity.
  - reflexivity.
  - exists s1, s2, s3, info3. now split_and!.
Defined.

(* ================================================================== *)
(** ** Stopping everything, continued *)

(** X12.  With the mutex free and the identifier of a child in every
    [RUNNING] record, [stop_all] returns, and then no process is
    [RUNNING]: every process that was is [STOPPED], and the record of
    every process that was not is as it was.  [stop_all] does not fork. *)
Theorem stop_all_stops_running s :
  manager_mutex s = false ->
  running_have_pid (processes s) ->
  exists s',
    stop_all s = Ret tt s' /\
    (forall n, ~ is_running n s') /\
    (forall n info, StrMap.find n (processes s) = Some info -> state info = RUNNING ->
       get_process_state n s' = Ret STOPPED s') /\
    (forall n info, StrMap.find n (processes s) = Some info -> state info <> RUNNING ->
       StrMap.find n (processes s') = Some info) /\
    forks s' = forks s.
Proof.
  intros Hfree Hpids. unfold stop_all.
  destruct (stop_all_fold (StrMap.keys (processes s)) s Hfree Hpids)
    as (s' & Hstop & Hfree' & Hkept & Hrunning & Hstopped & Hforks & _ & _).
  exists s'. split_and!; try assumption.
  - intros n Hn. apply Hrunning in Hn as [(it & Hit & _) Hnotin].
    apply Hnotin. now apply (find_Some_In_keys _ _ it).
  - intros n info Hfind Hstate.
    destruct (Hstopped n info Hfind Hstate (find_Some_In_keys _ _ info Hfind))
      as (info' & Hfind' & Hstate').
    rewrite (get_process_state_free n s' Hfree'), Hfind'. now rewrite Hstate'.
Qed.

Lemma stop_all_stops_running_witness :
  exists s',
    stop_all Sample.running_A_created_B = Ret tt s' /\
    get_process_state "A" s' = Ret STOPPED s' /\
    option_map state (StrMap.find "B" (processes s')) = Some CREATED.
Proof.
  assert (processes Sample.running_A_created_B =
            [("A", {| config := Sample.cfg "A" []; state := RUNNING;
                      platform_handle := 100; pid := 100;
                      start_time := 0; last_heartbeat := 1;
                      restart_count := 0; last_error := EmptyString |});
             ("B", {| config := Sample.cfg "B" ["A"]; state := CREATED;
                      platform_handle := 0; pid := 0;
                      start_time := 0; last_heartbeat := 0;
                      restart_count := 0; last_error := EmptyString |})]) as Hps
    by (vm_compute; reflexivity).
  destruct (stop_all_stops_running Sample.running_A_created_B)
    as (s' & Hstop & _ & Hstopped & Hkept & _).
  - vm_compute. reflexivity.
  - intros n it Hit Hrunning. rewrite Hps in Hit. simpl in Hit.
    destruct (String.eqb n "A"); [injection Hit as <-; discriminate|].
    destruct (String.eqb n "B"); [injection Hit as <-; discriminate Hrunning|].
    discriminate Hit.
  - exists s'. split_and!; [exact Hstop | |].
    + eapply Hstopped; [rewrite Hps; reflexivity | reflexivity].
    + erewrite Hkept; [| rewrite Hps; reflexivity | discriminate]. reflexivity.
Defined.

(* ================================================================== *)
(** ** Shutting down *)

(** X13.  With the mutex free and the identifier of a child in every
    [RUNNING] record, [shutdown] returns and leaves a manager that is not
    running and has no process and no channel, without forking; and a
    second [shutdown], as the destructor makes, returns and changes
    nothing more. *)
Theorem shutdown_idempotent s :
  manager_mutex s = false ->
  running_have_pid (processes s) ->
  exists s',
    shutdown s = Ret tt s' /\
    processes s' = [] /\ channels s' = [] /\
    running s' = false /\ forks s' = forks s /\
    shutdown s' = Ret tt s'.
Proof.
  intros Hfree Hpids.
  destruct (shutdown_returns s Hfree Hpids)
    as (s' & Hshutdown & Hfree' & Hps & Hchan & Hrun & Hforks).
  exists s'. split_and!; try assumption.
  destruct s' as [ps cs r m f p t sc]. simpl in *. subst.
  unfold shutdown, stop_all, close_channels, clear_tables, emit,
    set_processes, set_channels, set_running. simpl.
  now rewrite app_nil_r.
Qed.

Lemma shutdown_idempotent_witness :
  exists s',
    shutdown Sample.running_X = Ret tt s' /\
    processes s' = [] /\ shutdown s' = Ret tt s'.
Proof.
  destruct (shutdown_idempotent Sample.running_X)
    as (s' & Hshutdown & Hps & _ & _ & _ & Hagain).
  - reflexivity.
  - intros n it Hit Hrunning.
    assert (processes Sample.running_X = [("X", Sample.info_X)]) as Htable
      by reflexivity.
    rewrite Htable in Hit. simpl in Hit.
    destruct (String.eqb n "X"); [injection Hit as <-; discriminate | discriminate Hit].
  - exists s'. now split_and!.
Defined.

(** The [RUNNING] records of a reachable manager hold the identifier of
    a child. *)
Lemma step_running_have_pid os s s' :
  step os s s' -> running_have_pid (processes s) -> running_have_pid (processes s').
Proof.
  intros Hstep Hpids.
  assert (forall name info',
            processes s' = StrMap.set name info' (processes s) ->
            (state info' = RUNNING -> pid info' <> 0) ->
            running_have_pid (processes s')) as Hset.
  { intros name info' Hps Hinfo n it Hit Hrunning. rewrite Hps in Hit.
    destruct (String.eqb_spec name n) as [<-|Hne].
    - rewrite find_set_eq in Hit.
      destruct (StrMap.find name (processes s)); [|discriminate].
      injection Hit as <-. now apply Hinfo.
    - rewrite find_set_ne in Hit by assumption. now apply (Hpids n it). }
  assert (forall name info',
            processes s' = StrMap.insert name info' (processes s) ->
            state info' <> RUNNING ->
            running_have_pid (processes s')) as Hinsert.
  { intros name info' Hps Hinfo n it Hit Hrunning. rewrite Hps in Hit.
    destruct (String.eqb_spec name n) as [<-|Hne].
    - rewrite find_insert_eq in Hit. congruence.
    - rewrite find_insert_ne in Hit by assumption. now apply (Hpids n it). }
  destruct Hstep as [cfg s|name s|name force s|name s|b s|held s|s|s|s];
    try assumption.
  - destruct (StrMap.find (name cfg) (processes s)) as [info|] eqn:Hfind.
    + now rewrite (register_process_locked_duplicate os cfg s info Hfind).
    + destruct (register_process_locked_fresh os cfg s Hfind) as [_ Hps].
      now apply (Hinsert _ _ Hps).
  - destruct (StrMap.find name (processes s)) as [info|] eqn:Hfind;
      [|now rewrite start_process_locked_unknown].
    destruct (check_dependencies_ready (config info) s) eqn:Hdeps;
      [|now rewrite (start_process_locked_not_ready os name s info)].
    destruct (start_process_locked_spawns os name s info Hfind Hdeps)
      as (info' & Hps & _ & _ & _ & _ & Hstate).
    apply (Hset _ _ Hps).
    destruct Hstate as [(_ & _ & child & _ & ->)|(_ & -> & _)]; discriminate.
  - destruct (stop_process_locked_outcome name force s)
      as [[_ Heq]|[(info & Hfind & _ & Heq)|(info & Hfind & _ & Heq)]];
      rewrite Heq in *; [assumption | |].
    + eapply Hset; [reflexivity | discriminate].
    + eapply Hset; [reflexivity | discriminate].
  - unfold mark_crashed in *.
    destruct (StrMap.find name (processes s)) as [info|] eqn:Hfind.
    + eapply Hset; [reflexivity | discriminate].
    + eapply Hinsert; [reflexivity | discriminate].
  - intros n it Hit. discriminate Hit.
Qed.

Lemma reachable_running_have_pid os s :
  reachable os s -> running_have_pid (processes s).
Proof.
  apply (reachable_ind os (fun s => running_have_pid (processes s))).
  - intros n it Hit. discriminate Hit.
  - intros op s0 Hpids. pose proof (exec_steps os op s0) as Hsteps.
    induction Hsteps as [|s1 s2 s3 [Hstep _] _ IH]; [assumption|].
    apply IH. now apply (step_running_have_pid os s1 s2).
Qed.

(* ================================================================== *)
(** ** Starting everything *)

Section StartAllMore.

Context (os : OS).

(** What holds before [start_all] and is kept by every [start_process]
    that [start_all] can make, on a [CREATED] process whose dependencies
    are ready, holds in the state [start_all] leaves. *)
Lemma start_all_ind (P : ProcessManager -> Prop) :
  (forall s name info ok s',
     P s -> StrMap.find name (processes s) = Some info -> state info = CREATED ->
     check_dependencies_ready (config info) s = true ->
     start_process os name s = Ret ok s' ->
     P s') ->
  forall s, P s -> P (state_of (start_all os s)).
Proof.
  intros Hstart.
  assert (forall progress name s,
            P s -> P (state_of (start_all_visit os progress name s))) as Hvisit.
  { intros progress name s Hs. unfold start_all_visit.
    destruct (StrMap.find name (processes s)) as [info|] eqn:Hfind; [|assumption].
    destruct (ProcessState_eqb (state info) CREATED) eqn:Hcreated; [|assumption].
    destruct (check_dependencies_ready (config info) s) eqn:Hdeps; [|assumption].
    apply ProcessState_eqb_eq in Hcreated.
    destruct (start_process os name s) as [ok s'|why s'] eqn:Hrun; simpl.
    - now apply (Hstart s name info ok s').
    - destruct (manager_mutex s) eqn:Hmutex.
      + unfold start_process in Hrun. rewrite locked_held in Hrun by assumption.
        now injection Hrun as _ <-.
      + rewrite start_process_free in Hrun by assumption. discriminate. }
  assert (forall names progress s,
            P s -> P (state_of (for_each (start_all_visit os) names progress s)))
    as Hfold.
  { induction names as [|name names IH]; intros progress s Hs; simpl; [assumption|].
    specialize (Hvisit progress name s Hs).
    destruct (start_all_visit os progress name s) as [a s1|why s1]; simpl in *;
      [now apply IH | assumption]. }
  assert (forall fuel s r, P s -> start_all_loop os fuel s = Some r -> P (state_of r))
    as Hloop.
  { induction fuel as [|fuel IH]; intros s r Hs; simpl; [discriminate|].
    pose proof (Hfold (StrMap.keys (processes s)) false s Hs) as Hpass.
    fold (start_all_pass os s) in Hpass.
    destruct (start_all_pass os s) as [[|] s1|why s1]; simpl in Hpass.
    - now apply IH.
    - now intros [= <-].
    - now intros [= <-]. }
  intros s Hs.
  apply (Hloop (S (List.length (processes s))) s _ Hs), start_all_loop_returns.
Qed.

(** Once a turn has set [progress], the pass does not report [false]. *)
Lemma start_all_fold_progress names s s' :
  for_each (start_all_visit os) names true s <> Ret false s'.
Proof.
  destruct (start_all_fold_outcome os names true s)
    as [->|[(s1 & -> & _)|[_ ->]]]; discriminate.
Qed.

(** A pass that reports no progress found nothing to start. *)
Lemma start_all_pass_settled s s' name info :
  start_all_pass os s = Ret false s' ->
  StrMap.find name (processes s) = Some info -> state info = CREATED ->
  check_dependencies_ready (config info) s = false.
Proof.
  intros Hpass Hfind Hcreated.
  assert (forall names,
            for_each (start_all_visit os) names false s = Ret false s' ->
            forall n, In n names -> start_all_visit os false n s = Ret false s) as Hidle.
  { induction names as [|n0 names IH]; intros Hfalse n Hin; simpl in *;
      [contradiction|].
    destruct (start_all_visit_outcome os false n0 s)
      as [Hsame|[(s1 & Heq & _)|[_ Heq]]].
    - rewrite Hsame in Hfalse. simpl in Hfalse.
      destruct Hin as [<-|Hin]; [assumption | now apply IH].
    - rewrite Heq in Hfalse. simpl in Hfalse.
      now apply start_all_fold_progress in Hfalse.
    - rewrite Heq in Hfalse. discriminate. }
  specialize (Hidle _ Hpass name (find_Some_In_keys _ _ _ Hfind)).
  unfold start_all_visit in Hidle. rewrite Hfind in Hidle.
  apply ProcessState_eqb_eq in Hcreated. rewrite Hcreated in Hidle.
  destruct (check_dependencies_ready (config info) s); [|reflexivity].
  destruct (start_process os name s); discriminate.
Qed.

(** [start_all] neither adds nor removes a name, nor changes a
    configuration. *)
Lemma start_all_same_configs s :
  same_configs (processes s) (processes (state_of (start_all os s))).
Proof.
  apply (start_all_ind (fun s' => same_configs (processes s) (processes s')));
    [|now intros n].
  intros s1 name info ok s' Hcfg Hfind _ Hdeps Hstart n.
  destruct (manager_mutex s1) eqn:Hmutex.
  { unfold start_process in Hstart. rewrite locked_held in Hstart by assumption.
    discriminate. }
  destruct (start_process_spawns os name s1 info Hfind Hdeps Hmutex)
    as (ok' & s'' & info' & Hstart' & _ & Hps & _ & _ & _ & _ & Hcfg' & _).
  assert (s'' = s') as -> by congruence.
  rewrite Hps, <- Hcfg.
  destruct (String.eqb_spec name n) as [<-|Hne].
  - rewrite find_set_eq, Hfind. simpl. now rewrite Hcfg'.
  - now rewrite find_set_ne.
Qed.

(** A [start_process] that returns was made with the mutex free. *)
Lemma start_process_returns_free name s ok s' :
  start_process os name s = Ret ok s' -> manager_mutex s = false.
Proof.
  destruct (manager_mutex s) eqn:Hmutex; [|reflexivity].
  unfold start_process. rewrite locked_held by assumption. discriminate.
Qed.

(** X14.  [start_all] ends: its loop makes at most one pass more than
    there are processes.  With the mutex free it returns, and then
    nothing is left to start: every process that is still [CREATED] has a
    dependency that is missing or not [RUNNING]. *)
Theorem start_all_settles s :
  start_all_loop os (S (List.length (processes s))) s = Some (start_all os s) /\
  (manager_mutex s = false ->
   exists s',
     start_all os s = Ret tt s' /\
     forall name info,
       StrMap.find name (processes s') = Some info -> state info = CREATED ->
       ~ Forall (fun dep => is_running dep s') (depends_on (config info))).
Proof.
  split; [apply start_all_loop_returns|].
  intros Hfree.
  destruct (start_all_free os s Hfree) as (s' & Hrun & _ & Hpass).
  exists s'. split; [assumption|].
  intros name info Hfind Hcreated Hready.
  apply check_dependencies_ready_iff in Hready.
  rewrite (start_all_pass_settled s' s' name info Hpass Hfind Hcreated) in Hready.
  discriminate.
Qed.

(** X15.  [start_all] starts [CREATED] processes only, and each at most
    once: in the state it leaves, the record of every process that was
    not [CREATED] is as it was, the table has the same names with the same
    configurations, no signal was sent, and [fork] was called at most as
    many times as there were [CREATED] processes. *)
Theorem start_all_only_created s :
  (forall name info, StrMap.find name (processes s) = Some info ->
     state info <> CREATED ->
     StrMap.find name (processes (state_of (start_all os s))) = Some info) /\
  same_configs (processes s) (processes (state_of (start_all os s))) /\
  syscalls (state_of (start_all os s)) = syscalls s /\
  (forks s <= forks (state_of (start_all os s))
     <= forks s + created_count (processes s))%nat.
Proof.
  enough ((fun s' =>
    (forall name info, StrMap.find name (processes s) = Some info ->
       state info <> CREATED -> StrMap.find name (processes s') = Some info) /\
    same_configs (processes s) (processes s') /\
    syscalls s' = syscalls s /\
    (forks s <= forks s' /\
     forks s' + created_count (processes s') <= forks s + created_count (processes s))%nat)
    (state_of (start_all os s))) as (Hkept & Hcfg & Hsys & Hforks & Hbound)
    by (split_and!; try assumption; lia).
  apply start_all_ind.
  - intros s1 name info ok s' (Hkept & Hcfg & Hsys & Hforks & Hbound)
      Hfind Hcreated Hdeps Hstart.
    pose proof (start_process_returns_free name s1 ok s' Hstart) as Hmutex.
    destruct (start_process_spawns os name s1 info Hfind Hdeps Hmutex)
      as (ok' & s'' & info' & Hstart' & _ & Hps & Hforks' & Hsys' & _ & _
          & Hcfg' & _ & Hstate).
    assert (s'' = s') as -> by congruence.
    assert (state info' <> CREATED) as Hnot
      by (destruct Hstate as [(_ & -> & _)|(_ & -> & _)]; discriminate).
    pose proof (created_count_set_lt (processes s1) name info info' Hfind Hcreated Hnot).
    split_and!.
    + intros n it Hit Hstate'. rewrite Hps.
      destruct (String.eqb_spec name n) as [<-|Hne].
      * specialize (Hkept name it Hit Hstate'). congruence.
      * rewrite find_set_ne by assumption. now apply Hkept.
    + intros n. rewrite Hps, <- Hcfg.
      destruct (String.eqb_spec name n) as [<-|Hne].
      * rewrite find_set_eq, Hfind. simpl. now rewrite Hcfg'.
      * now rewrite find_set_ne.
    + congruence.
    + lia.
    + rewrite Hps, Hforks'. lia.
  - now split_and!.
Qed.

(** X16.  Dependency-ordered start.  Let every record be [CREATED] or
    [RUNNING], every dependency be registered, and the dependencies have
    no cycle (some rank puts each process after those it depends on).
    If [fork] never fails and the mutex is free, [start_all] returns and
    every process is [RUNNING]. *)
Theorem start_all_starts_everything (rank : string -> nat) s :
  (forall n, os_fork os n <> None) ->
  manager_mutex s = false ->
  created_or_running (processes s) ->
  dependencies_registered (processes s) ->
  dependencies_ranked rank (processes s) ->
  exists s',
    start_all os s = Ret tt s' /\
    forall name info,
      StrMap.find name (processes s') = Some info -> state info = RUNNING.
Proof.
  intros Hfork Hfree Hstates Hregistered Hranked.
  destruct (start_all_free os s Hfree) as (s' & Hrun & _ & Hpass).
  exists s'. split; [assumption|].
  pose proof (start_all_same_configs s) as Hcfg.
  assert (created_or_running (processes (state_of (start_all os s)))) as Hstates'.
  { apply (start_all_ind (fun s' => created_or_running (processes s')));
      [|assumption].
    intros s1 name info ok s2 Hs1 Hfind Hcreated Hdeps Hstart.
    pose proof (start_process_returns_free name s1 ok s2 Hstart) as Hmutex.
    destruct (start_process_spawns os name s1 info Hfind Hdeps Hmutex)
      as (ok' & s'' & info' & Hstart' & _ & Hps & _ & _ & _ & _ & _ & _ & Hstate).
    assert (s'' = s2) as -> by congruence.
    destruct Hstate as [(_ & Hrunning & _)|(_ & _ & Hnone)];
      [|now apply Hfork in Hnone].
    intros n it. rewrite Hps.
    destruct (String.eqb_spec name n) as [<-|Hne].
    - rewrite find_set_eq, Hfind. intros [= <-]. now right.
    - rewrite find_set_ne by assumption. apply Hs1. }
  rewrite Hrun in Hcfg, Hstates'. simpl in Hcfg, Hstates'.
  assert (forall k name info, (rank name < k)%nat ->
            StrMap.find name (processes s') = Some info ->
            state info = RUNNING) as Hrank.
  { induction k as [|k IH]; intros name info Hlt Hfind; [lia|].
    destruct (Hstates' name info Hfind) as [Hcreated|Hrunning]; [|assumption].
    exfalso.
    pose proof (start_all_pass_settled s' s' name info Hpass Hfind Hcreated) as Hblocked.
    enough (check_dependencies_ready (config info) s' = true) by congruence.
    apply check_dependencies_ready_iff, List.Forall_forall. intros dep Hin.
    pose proof (Hcfg name) as Hname. rewrite Hfind in Hname. simpl in Hname.
    destruct (StrMap.find name (processes s)) as [info0|] eqn:Hfind0; [|discriminate].
    injection Hname as Hname. rewrite Hname in Hin.
    pose proof (Hregistered name info0 dep Hfind0 Hin) as Hdep.
    pose proof (Hranked name info0 dep Hfind0 Hin) as Hlower.
    pose proof (Hcfg dep) as Hdep'.
    destruct (StrMap.find dep (processes s')) as [it|] eqn:Hit.
    - exists it. split; [assumption|]. apply (IH dep it); [lia | assumption].
    - destruct (StrMap.find dep (processes s)); simpl in Hdep'; congruence. }
  intros name info. apply (Hrank (S (rank name))). lia.
Qed.

End StartAllMore.

Lemma start_all_settles_witness :
  exists s',
    start_all Sample.os_ok Sample.created_B_needs_ghost = Ret tt s' /\
    forall name info,
      StrMap.find name (processes s') = Some info -> state info = CREATED ->
      ~ Forall (fun dep => is_running dep s') (depends_on (config info)).
Proof.
  apply (start_all_settles Sample.os_ok Sample.created_B_needs_ghost).
  reflexivity.
Defined.

(** Evaluates the table of the sample manager in [H] and unfolds the
    look-up on it. *)
Ltac reduce_table H :=
  let ps := eval vm_compute in (processes Sample.created_A_needs_B) in
  change (processes Sample.created_A_needs_B) with ps in H;
  simpl in H.

Lemma start_all_starts_everything_witness :
  exists s',
    start_all Sample.os_ok Sample.created_A_needs_B = Ret tt s' /\
    forall name info,
      StrMap.find name (processes s') = Some info -> state info = RUNNING.
Proof.
  apply (start_all_starts_everything Sample.os_ok Sample.rank_A_after_B
           Sample.created_A_needs_B).
  - intros n. discriminate.
  - reflexivity.
  - intros n it Hit. reduce_table Hit.
    destruct (String.eqb n "A"); [injection Hit as <-; now left|].
    destruct (String.eqb n "B"); [injection Hit as <-; now left | discriminate].
  - intros n it dep Hit Hin. reduce_table Hit.
    destruct (String.eqb n "A") eqn:HA.
    + injection Hit as <-. destruct Hin as [<-|[]]. discriminate.
    + destruct (String.eqb n "B"); [injection Hit as <-; destruct Hin | discriminate].
  - intros n it dep Hit Hin. reduce_table Hit. unfold Sample.rank_A_after_B.
    destruct (String.eqb n "A") eqn:HA.
    + injection Hit as <-. destruct Hin as [<-|[]]. simpl. lia.
    + destruct (String.eqb n "B"); [injection Hit as <-; destruct Hin | discriminate].
Defined.

Lemma start_all_only_created_witness :
  StrMap.find "X" (processes (state_of (start_all Sample.os_ok Sample.running_X)))
  = StrMap.find "X" (processes Sample.running_X).
Proof.
  destruct (start_all_only_created Sample.os_ok Sample.running_X) as (Hkept & _).
  symmetry. erewrite Hkept; [reflexivity | reflexivity | discriminate].
Defined.

(* ================================================================== *)
(** ** Crashes *)

Lemma mark_crashed_registered name s info :
  StrMap.find name (processes s) = Some info ->
  mark_crashed name s = put name (set_state CRASHED info) s.
Proof. intros Hfind. unfold mark_crashed. now rewrite Hfind. Qed.

(** [handle_process_crash] on a registered process: the record is marked
    [CRASHED], and [restart_process] follows if the policy asks for it. *)
Lemma handle_process_crash_registered os name s info :
  StrMap.find name (processes s) = Some info ->
  handle_process_crash os name s =
    if auto_restart (config info)
       && (restart_count info <? max_restart_attempts (config info))
    then bind (restart_process os name (put name (set_state CRASHED info) s))
           (fun _ => Ret tt)
    else Ret tt (put name (set_state CRASHED info) s).
Proof.
  intros Hfind. unfold handle_process_crash.
  rewrite (mark_crashed_registered name s info Hfind).
  rewrite processes_put, find_set_eq, Hfind. reflexivity.
Qed.

(** X17.  What [handle_process_crash] does to a registered process.
    Without [auto_restart], or with a restart counter that has reached
    [max_restart_attempts], the record is marked [CRASHED] and the call
    returns; nothing else happens.  Otherwise, called as the monitor
    calls it, with the mutex held, it marks the record [CRASHED] and never
    returns: [restart_process] stops at the lock of [stop_process], so no
    signal is sent, no [fork] is made and the mutex stays held. *)
Theorem handle_process_crash_outcome os name s info :
  StrMap.find name (processes s) = Some info ->
  let crashed := put name (set_state CRASHED info) s in
  StrMap.find name (processes crashed) = Some (set_state CRASHED info) /\
  forks crashed = forks s /\ syscalls crashed = syscalls s /\
  manager_mutex crashed = manager_mutex s /\
  (auto_restart (config info) = false \/
   max_restart_attempts (config info) <= restart_count info ->
     handle_process_crash os name s = Ret tt crashed) /\
  (auto_restart (config info) = true ->
   restart_count info < max_restart_attempts (config info) ->
   manager_mutex s = true ->
     handle_process_crash os name s = Stop Deadlock crashed).
Proof.
  intros Hfind crashed.
  rewrite (handle_process_crash_registered os name s info Hfind). fold crashed.
  split_and!; try reflexivity.
  - unfold crashed. rewrite processes_put, find_set_eq, Hfind. reflexivity.
  - intros [Hauto|Hmax].
    + now rewrite Hauto.
    + destruct (Z.ltb_spec (restart_count info) (max_restart_attempts (config info)));
        [lia|]. now rewrite andb_false_r.
  - intros Hauto Hless Hheld. rewrite Hauto.
    destruct (Z.ltb_spec (restart_count info) (max_restart_attempts (config info)));
      [|lia].
    simpl. unfold restart_process, stop_process.
    now rewrite locked_held.
Qed.

Lemma handle_process_crash_outcome_witness :
  handle_process_crash Sample.os_ok "X" (set_mutex true Sample.running_X)
  = Stop Deadlock
      (put "X" (set_state CRASHED Sample.info_X) (set_mutex true Sample.running_X)).
Proof.
  destruct (handle_process_crash_outcome Sample.os_ok "X"
              (set_mutex true Sample.running_X) Sample.info_X)
    as (_ & _ & _ & _ & _ & Hrestart); [reflexivity|].
  apply Hrestart; reflexivity.
Defined.

(** X18.  No crash is ever followed by a restart.  In every state that
    operations of the manager can lead to, the restart counter of every
    process is zero.  There, the turn of a monitor that finds its process
    exited, the process being registered with [auto_restart] and a
    positive [max_restart_attempts], never returns: it stops at a lock
    with the mutex held, without a signal and without a [fork]; if the
    mutex was free, the record is left [CRASHED]. *)
Theorem reachable_crash_never_restarts os s :
  reachable os s ->
  restart_counts_zero (processes s) /\
  (forall name info waitpid_result,
     StrMap.find name (processes s) = Some info ->
     waitpid_result <> 0 ->
     auto_restart (config info) = true ->
     0 < max_restart_attempts (config info) ->
     exists s',
       monitor_iteration os name waitpid_result s = Stop Deadlock s' /\
       manager_mutex s' = true /\
       forks s' = forks s /\ syscalls s' = syscalls s /\
       (manager_mutex s = false ->
          processes s' = StrMap.set name (set_state CRASHED info) (processes s))).
Proof.
  intros Hreachable.
  pose proof (reachable_restart_counts_zero os s Hreachable) as Hzero.
  split; [assumption|].
  intros name info waitpid_result Hfind Hexit Hauto Hmax.
  destruct (manager_mutex s) eqn:Hmutex.
  - exists s. unfold monitor_iteration. rewrite locked_held by assumption.
    split_and!; try reflexivity; [assumption | discriminate].
  - unfold monitor_iteration, locked. rewrite Hmutex.
    change (processes (set_mutex true s)) with (processes s). rewrite Hfind.
    destruct (Z.eqb_spec waitpid_result 0) as [?|_]; [contradiction|]. simpl.
    rewrite (handle_process_crash_registered os name (set_mutex true s) info Hfind).
    rewrite Hauto, (Hzero name info Hfind).
    destruct (Z.ltb_spec 0 (max_restart_attempts (config info))); [|lia]. simpl.
    eexists. split_and!; reflexivity.
Qed.

Lemma reachable_crash_never_restarts_witness :
  exists s',
    monitor_iteration Sample.os_ok "X" 1 Sample.running_X = Stop Deadlock s' /\
    manager_mutex s' = true /\
    forks s' = forks Sample.running_X /\ syscalls s' = syscalls Sample.running_X.
Proof.
  destruct (reachable_crash_never_restarts Sample.os_ok Sample.running_X)
    as [_ Hcrash].
  - exists [op_register_process (Sample.cfg "X" []); op_start_process "X"].
    vm_compute. reflexivity.
  - destruct (Hcrash "X" Sample.info_X 1)
      as (s' & Hrun & Hheld & Hforks & Hsys & _);
      [reflexivity | discriminate | reflexivity | reflexivity|].
    exists s'. now split_and!.
Defined.

(* ================================================================== *)
(** ** The order of the table *)

Lemma table_change_keys_ascending ps ps' :
  table_change ps ps' -> keys_ascending ps -> keys_ascending ps'.
Proof.
  unfold keys_ascending.
  intros [->|changed info info' _ -> _ _ _
         | added info' _ -> _ _ | -> ] Hsorted.
  - assumption.
  - now rewrite keys_set.
  - now apply keys_insert_sorted.
  - constructor.
Qed.

(** X19.  In every state that operations of the manager can lead to, the
    names of the process table are in strictly ascending order, so that
    no name has two records, and [start_all], [stop_all] and
    [get_all_processes] go through the processes in the order of their
    names. *)
Theorem reachable_keys_ascending os s :
  reachable os s -> keys_ascending (processes s).
Proof.
  assert (forall s0 s1, rtc (safe_step os) s0 s1 ->
            keys_ascending (processes s0) -> keys_ascending (processes s1)) as Hsteps.
  { induction 1 as [|s0 s1 s2 [Hstep _] _ IH]; [done|].
    intros Hsorted. apply IH.
    eapply table_change_keys_ascending; [|exact Hsorted].
    now apply (step_table_change os). }
  apply (reachable_ind os (fun s => keys_ascending (processes s))).
  - constructor.
  - intros op s0 Hsorted. eapply Hsteps; [apply exec_steps | exact Hsorted].
Qed.

Lemma reachable_keys_ascending_witness :
  keys_ascending (processes Sample.created_A_needs_B).
Proof.
  apply (reachable_keys_ascending Sample.os_ok).
  exists [op_register_process (Sample.cfg "B" []);
          op_register_process (Sample.cfg "A" ["B"])].
  vm_compute. reflexivity.
Defined.

(* ================================================================== *)
(** ** Dependencies, continued *)

(** Starting a [CREATED] process whose dependencies are ready keeps every
    [RUNNING] process with all its dependencies [RUNNING]. *)
Lemma start_process_running_have_dependencies os s name info ok s' :
  running_have_dependencies (processes s) ->
  StrMap.find name (processes s) = Some info -> state info = CREATED ->
  check_dependencies_ready (config info) s = true ->
  start_process os name s = Ret ok s' ->
  running_have_dependencies (processes s').
Proof.
  intros Hs Hfind Hcreated Hdeps Hstart.
  pose proof (start_process_returns_free os name s ok s' Hstart) as Hmutex.
  destruct (start_process_spawns os name s info Hfind Hdeps Hmutex)
    as (ok' & s'' & info' & Hstart' & _ & Hps & _ & _ & _ & _ & Hcfg & _).
  assert (s'' = s') as -> by congruence.
  apply check_dependencies_ready_iff in Hdeps.
  assert (forall dep, running_in (processes s) dep ->
            running_in (processes s') dep) as Hstill.
  { intros dep (it & Hit & Hrunning). exists it. split; [|assumption].
    rewrite Hps, find_set_ne; [assumption|]. intros <-. congruence. }
  intros n it. rewrite Hps at 1.
  destruct (String.eqb_spec name n) as [<-|Hne].
  - rewrite find_set_eq, Hfind. intros [= <-] _. rewrite Hcfg.
    eapply List.Forall_impl; [exact Hstill | exact Hdeps].
  - rewrite find_set_ne by assumption. intros Hit Hrunning.
    eapply List.Forall_impl; [exact Hstill | now apply (Hs n it)].
Qed.

(** X20.  [start_all] keeps the table consistent with the dependencies: if
    every [RUNNING] process has all its dependencies [RUNNING] before
    [start_all], so it is in the state [start_all] leaves, whether the
    forks succeed or fail. *)
Theorem start_all_running_have_dependencies os s :
  running_have_dependencies (processes s) ->
  running_have_dependencies (processes (state_of (start_all os s))).
Proof.
  apply (start_all_ind os (fun s' => running_have_dependencies (processes s'))).
  intros s1 name info ok s' Hs1 Hfind Hcreated Hdeps Hstart.
  now apply (start_process_running_have_dependencies os s1 name info ok s').
Qed.

Lemma start_all_running_have_dependencies_witness :
  running_have_dependencies
    (processes (state_of (start_all Sample.os_ok Sample.created_A_needs_B))).
Proof.
  apply start_all_running_have_dependencies.
  intros n it Hit Hrunning. reduce_table Hit.
  destruct (String.eqb n "A"); [injection Hit as <-; discriminate Hrunning|].
  destruct (String.eqb n "B"); [injection Hit as <-; discriminate Hrunning|].
  discriminate Hit.
Defined.

(* ================================================================== *)
(** ** Monitoring *)

(** The end of a monitor turn that has found a crash, the turn having
    taken the mutex: with a restart due, the turn stops at the lock of
    [stop_process]; otherwise it returns [false] and releases the mutex. *)
Lemma monitor_crash os name s info :
  StrMap.find name (processes s) = Some info ->
  manager_mutex s = false ->
  match bind (handle_process_crash os name (set_mutex true s)) (fun _ => Ret false) with
  | Ret a s' => Ret a (set_mutex false s')
  | Stop why s' => Stop why s'
  end =
  if auto_restart (config info)
     && (restart_count info <? max_restart_attempts (config info))
  then Stop Deadlock (set_mutex true (put name (set_state CRASHED info) s))
  else Ret false (put name (set_state CRASHED info) s).
Proof.
  intros Hfind Hfree.
  rewrite (handle_process_crash_registered os name (set_mutex true s) info Hfind).
  destruct (auto_restart (config info)
            && (restart_count info <? max_restart_attempts (config info))).
  - reflexivity.
  - simpl. f_equal. destruct s; simpl in *; subst; reflexivity.
Qed.

(** X21.  A turn of the monitor loop, with the mutex free.  For an
    unknown name the loop ends and nothing changes.  When [waitpid]
    returns anything but 0, or when the heartbeat is enabled and the whole
    seconds since [last_heartbeat] exceed [heartbeat_timeout], the record
    is marked [CRASHED]; the turn then returns [false], or, with a restart
    due, never returns.  When the child is alive and the heartbeat is
    disabled or the lapse, rounded down to whole seconds, is at most the
    timeout, the loop goes on; so a lapse of less than one second more
    than the timeout is no timeout, and such a turn leaves every record,
    [last_heartbeat] included, as it was. *)
Theorem monitor_iteration_outcome os name waitpid_result s :
  manager_mutex s = false ->
  (StrMap.find name (processes s) = None ->
     monitor_iteration os name waitpid_result s = Ret false s) /\
  (forall info, StrMap.find name (processes s) = Some info ->
     let crash s0 :=
       if auto_restart (config info)
          && (restart_count info <? max_restart_attempts (config info))
       then Stop Deadlock (set_mutex true (put name (set_state CRASHED info) s0))
       else Ret false (put name (set_state CRASHED info) s0) in
     let lapse := os_now os (ticks s) - last_heartbeat info in
     (waitpid_result <> 0 ->
        monitor_iteration os name waitpid_result s = crash s) /\
     (waitpid_result = 0 -> enable_heartbeat (config info) = false ->
        monitor_iteration os name waitpid_result s = Ret true s) /\
     (waitpid_result = 0 -> enable_heartbeat (config info) = true ->
        monitor_iteration os name waitpid_result s =
          if heartbeat_timeout (config info) <? Z.quot lapse (os_ticks_per_second os)
          then crash (set_ticks (ticks s + 1) s)
          else Ret true (set_ticks (ticks s + 1) s)) /\
     (waitpid_result = 0 -> 0 < os_ticks_per_second os ->
      0 <= lapse < (heartbeat_timeout (config info) + 1) * os_ticks_per_second os ->
        exists s',
          monitor_iteration os name waitpid_result s = Ret true s' /\
          processes s' = processes s /\ forks s' = forks s /\
          syscalls s' = syscalls s)).
Proof.
  intros Hfree.
  assert (forall s0 : ProcessManager,
            manager_mutex s0 = false -> set_mutex false (set_mutex true s0) = s0)
    as Hrelease.
  { intros s0 H0. destruct s0; simpl in *; subst; reflexivity. }
  split.
  - intros Hfind. unfold monitor_iteration, locked. rewrite Hfree.
    change (processes (set_mutex true s)) with (processes s). rewrite Hfind.
    now rewrite Hrelease.
  - intros info Hfind crash lapse.
    assert (waitpid_result = 0 -> enable_heartbeat (config info) = true ->
            monitor_iteration os name waitpid_result s =
              if heartbeat_timeout (config info) <? Z.quot lapse (os_ticks_per_second os)
              then crash (set_ticks (ticks s + 1) s)
              else Ret true (set_ticks (ticks s + 1) s)) as Hbeat.
    { intros -> Hon. unfold monitor_iteration, locked. rewrite Hfree.
      change (processes (set_mutex true s)) with (processes s).
      rewrite Hfind, Hon. simpl.
      fold lapse.
      destruct (heartbeat_timeout (config info) <? Z.quot lapse (os_ticks_per_second os)).
      - apply (monitor_crash os name (set_ticks (ticks s + 1) s) info Hfind Hfree).
      - f_equal. apply (Hrelease (set_ticks (ticks s + 1) s) Hfree). }
    assert (waitpid_result = 0 -> enable_heartbeat (config info) = false ->
            monitor_iteration os name waitpid_result s = Ret true s) as Hquiet.
    { intros -> Hoff. unfold monitor_iteration, locked. rewrite Hfree.
      change (processes (set_mutex true s)) with (processes s).
      rewrite Hfind, Hoff. simpl. now rewrite Hrelease. }
    split_and!; try assumption.
    + intros Hexit. unfold monitor_iteration, locked. rewrite Hfree.
      change (processes (set_mutex true s)) with (processes s). rewrite Hfind.
      destruct (Z.eqb_spec waitpid_result 0) as [?|_]; [contradiction|]. simpl.
      apply (monitor_crash os name s info Hfind Hfree).
    + intros Halive Hhz [Hnonneg Hbelow].
      destruct (enable_heartbeat (config info)) eqn:Henabled.
      * rewrite (Hbeat Halive eq_refl).
        assert (Z.quot lapse (os_ticks_per_second os) <= heartbeat_timeout (config info))
          as Hwhole.
        { rewrite Z.quot_div_nonneg by lia.
          enough (lapse / os_ticks_per_second os < heartbeat_timeout (config info) + 1)
            by lia.
          apply Z.div_lt_upper_bound; lia. }
        destruct (Z.ltb_spec (heartbeat_timeout (config info))
                    (Z.quot lapse (os_ticks_per_second os))); [lia|].
        eexists. split_and!; reflexivity.
      * rewrite (Hquiet Halive eq_refl). now exists s.
Qed.

Lemma monitor_iteration_outcome_witness :
  15 * os_ticks_per_second Sample.os_ms
    < os_now Sample.os_ms (ticks Sample.running_Y) - 15900 /\
  exists s',
    monitor_iteration Sample.os_ms "Y" 0 Sample.running_Y = Ret true s' /\
    processes s' = processes Sample.running_Y.
Proof.
  split; [reflexivity|].
  destruct (monitor_iteration_outcome Sample.os_ms "Y" 0 Sample.running_Y eq_refl)
    as [_ Hknown].
  destruct (Hknown {| config := Sample.cfg_heartbeat "Y"; state := RUNNING;
                      platform_handle := 100; pid := 100;
                      start_time := 0; last_heartbeat := 15900;
                      restart_count := 0; last_error := EmptyString |})
    as (_ & _ & _ & Halive); [reflexivity|].
  destruct Halive as (s' & Hrun & Hps & _);
    [reflexivity | reflexivity | split; [discriminate | reflexivity] |].
  exists s'. split; [exact Hrun | exact Hps].
Defined.

(* ================================================================== *)
(** ** The entry point *)

Section MainProperties.

Context (os : OS).

(** Registration neither forks, nor reads the clock, nor signals. *)
Lemma register_process_quiet cfg s ok s' :
  register_process os cfg s = Ret ok s' ->
  forks s' = forks s /\ ticks s' = ticks s /\ syscalls s' = syscalls s /\
  running s' = running s.
Proof.
  destruct (manager_mutex s) eqn:Hmutex.
  { unfold register_process. rewrite locked_held by assumption. discriminate. }
  rewrite register_process_free by assumption. intros [= _ <-].
  apply register_process_locked_quiet.
Qed.

(** The manager of [main] after the two registrations: both succeed, and
    the table holds the two records, [CREATED]; nothing was forked and the
    clock was not read. *)
Lemma main_registered :
  exists registered,
    Main.main os = inr (run_startup os registered) /\
    manager_mutex registered = false /\
    processes registered =
      [("go_integration",
        {| config := Main.go_config; state := CREATED; platform_handle := 0; pid := 0;
           start_time := 0; last_heartbeat := 0;
           restart_count := 0; last_error := EmptyString |});
       ("rust_main",
        {| config := Main.rust_config; state := CREATED; platform_handle := 0; pid := 0;
           start_time := 0; last_heartbeat := 0;
           restart_count := 0; last_error := EmptyString |})] /\
    forks registered = 0%nat /\ ticks registered = 0%nat /\ syscalls registered = [].
Proof.
  unfold Main.main.
  destruct (register_process_fresh os Main.rust_config ProcessManager_new eq_refl eq_refl)
    as (s1 & Hfirst & Hfree1 & Hps1).
  rewrite Hfirst.
  assert (StrMap.find (name Main.go_config) (processes s1) = None) as Hfresh.
  { rewrite Hps1. reflexivity. }
  destruct (register_process_fresh os Main.go_config s1 Hfresh Hfree1)
    as (s2 & Hsecond & Hfree2 & Hps2).
  rewrite Hsecond.
  destruct (register_process_quiet _ _ _ _ Hfirst) as (Hforks1 & Hticks1 & Hsys1 & _).
  destruct (register_process_quiet _ _ _ _ Hsecond) as (Hforks2 & Hticks2 & Hsys2 & _).
  exists s2. split_and!; [reflexivity | assumption | | | |].
  - rewrite Hps2, Hps1. reflexivity.
  - now rewrite Hforks2, Hforks1.
  - now rewrite Hticks2, Hticks1.
  - now rewrite Hsys2, Hsys1.
Qed.

End MainProperties.

(** X22.  What [main] does before it enters the event loop, whatever the
    operating system answers.  Both registrations succeed, so [main] never
    returns 1 (the pipes of the STDIO channel may fail without
    consequence), [start_all] returns, and the manager is running.
    go_integration is never [RUNNING] unless rust_main is.  If the first
    two forks succeed, rust_main is [RUNNING] with the first child and
    go_integration with the second; if the first fork fails, rust_main is
    [CRASHED], go_integration stays [CREATED] and no second fork is
    made. *)
Theorem main_outcome os :
  exists manager,
    Main.main os = inr (Ret tt manager) /\
    running manager = true /\
    (is_running "go_integration" manager -> is_running "rust_main" manager) /\
    (forall child1 child2,
       os_fork os 0%nat = Some child1 -> os_fork os 1%nat = Some child2 ->
       option_map (fun info => (state info, pid info))
         (StrMap.find "rust_main" (processes manager)) = Some (RUNNING, Z.pos child1) /\
       option_map (fun info => (state info, pid info))
         (StrMap.find "go_integration" (processes manager)) = Some (RUNNING, Z.pos child2)) /\
    (os_fork os 0%nat = None ->
       get_process_state "rust_main" manager = Ret CRASHED manager /\
       get_process_state "go_integration" manager = Ret CREATED manager /\
       forks manager = 1%nat).
Proof.
  destruct (main_registered os)
    as (registered & Hmain & Hfree & Hps & Hforks & Hticks & Hsys).
  set (s := set_running true registered) in *.
  assert (manager_mutex s = false) as Hfree0 by exact Hfree.
  destruct (start_all_free os s Hfree0) as (manager & Hrun & Hfree' & _).
  assert (state_of (start_all os s) = manager) as Hstate by now rewrite Hrun.
  exists manager. split_and!.
  - rewrite Hmain. unfold run_startup. fold s. now rewrite Hrun.
  - rewrite <- Hstate.
    apply (start_all_ind os (fun s => running s = true)); [|reflexivity].
    intros s1 name info ok s' Hs1 Hfind _ Hdeps Hstart.
    pose proof (start_process_returns_free os name s1 ok s' Hstart) as Hmutex.
    destruct (start_process_spawns os name s1 info Hfind Hdeps Hmutex)
      as (ok' & s'' & info' & Hstart' & _ & _ & _ & _ & _ & Hrunning & _).
    assert (s'' = s') as -> by congruence. congruence.
  - intros (info & Hfind & Hrunning).
    assert (running_have_dependencies (processes s)) as Hconsistent.
    { intros n it Hit Hstate0. simpl in Hit. rewrite Hps in Hit. simpl in Hit.
      destruct (String.eqb n "go_integration");
        [injection Hit as <-; discriminate Hstate0|].
      destruct (String.eqb n "rust_main");
        [injection Hit as <-; discriminate Hstate0 | discriminate Hit]. }
    assert (running_have_dependencies (processes manager)) as Hafter.
    { rewrite <- Hstate.
      apply (start_all_ind os (fun s' => running_have_dependencies (processes s')));
        [|assumption].
      intros s1 n it ok s' Hs1 Hit Hcreated Hdeps Hstart.
      now apply (start_process_running_have_dependencies os s1 n it ok s'). }
    specialize (Hafter "go_integration" info Hfind Hrunning).
    pose proof (start_all_same_configs os s) as Hcfg.
    rewrite Hstate in Hcfg.
    specialize (Hcfg "go_integration"). rewrite Hfind in Hcfg.
    simpl in Hcfg. rewrite Hps in Hcfg. injection Hcfg as Hcfg.
    rewrite Hcfg in Hafter. simpl in Hafter.
    now apply Forall_inv in Hafter.
  - intros child1 child2 Hfork1 Hfork2. rewrite <- Hstate. clear Hrun Hstate Hfree'.
    subst s.
    destruct registered as [ps ch run mx fk pp tk sc].
    simpl in Hps, Hforks, Hticks, Hsys, Hfree. subst.
    destruct os as [fork pipe now hz]. simpl in Hfork1, Hfork2.
    unfold start_all.
    split; cbv; rewrite Hfork1; cbv; rewrite Hfork2; reflexivity.
  - intros Hfork1.
    rewrite !(get_process_state_free _ manager Hfree').
    rewrite <- Hstate. clear Hrun Hstate Hfree'.
    subst s.
    destruct registered as [ps ch run mx fk pp tk sc].
    simpl in Hps, Hforks, Hticks, Hsys, Hfree. subst.
    destruct os as [fork pipe now hz]. simpl in Hfork1.
    unfold start_all.
    split_and!; cbv; rewrite Hfork1; reflexivity.
Qed.

Lemma main_outcome_witness :
  exists manager,
    Main.main Sample.os_ok = inr (Ret tt manager) /\
    option_map (fun info => (state info, pid info))
      (StrMap.find "rust_main" (processes manager)) = Some (RUNNING, 100) /\
    option_map (fun info => (state info, pid info))
      (StrMap.find "go_integration" (processes manager)) = Some (RUNNING, 101).
Proof.
  destruct (main_outcome Sample.os_ok) as (manager & Hmain & _ & _ & Hforks & _).
  exists manager. split; [exact Hmain|].
  apply (Hforks 100%positive 101%positive); reflexivity.
Defined.
